(** * MiniGit (reduced): a shallow embedding of [minigit.py]

    The program keeps three durable structures under [.minigit]: the staging
    index ([index.json]), one commit record per id ([commits/<id>.json]) and
    the object store ([objects/<sha>_<basename>]).  All of them live in the
    same file system as the working tree, so the embedding uses ONE store
    (a finite map from normalised paths to nodes) for everything; aliasing
    between working-tree paths and repository files is therefore visible.

    Modelling conventions.
    - A path is a Python [str], embedded as [string].  The operating system's
      path resolution is lexical: two path strings name the same node iff
      [os.path.normpath] maps them to the same string (no symbolic links, and
      [..] is resolved as [normpath] resolves it).  The empty string names no
      node.  Two things the operating system rejects resolve here: a slash
      after the name of a file ([a.txt/] is [a.txt]), and [x/..] where [x]
      is missing or is a file; the theorems speak of paths on which the two
      resolutions agree.
    - A node is a directory or a file; a file is its bytes (no metadata,
      no permissions), and a write replaces the bytes in one step.
    - A file holds bytes.  [json.dump] / [json.load] and [hashlib.sha1] are
      library code: they are interfaces ([JsonCodec], [Sha1]) with concrete
      instances given below.
    - Python exceptions are values of [exn]; a command is a state
      transformer over [world] that may raise.  Every mutation of the disk is
      recorded in the history of the world, in program order.
    - [uuid.uuid4().hex[:12]] and [datetime.utcnow()] are inputs of
      [cmd_commit]. *)

From Stdlib Require Import ZArith NArith Ascii String List.
From Stdlib Require Strings.Byte.
From stdpp Require Import base tactics option list strings gmap fin_maps pretty.

Set Warnings "-register-all".

(** ** posixpath *)

Module Path.

Definition sep : ascii := "/"%char.

(** [str.split("/")] *)
Fixpoint split (s : string) : list string :=
  match s with
  | EmptyString => [""]
  | String a r =>
      if Ascii.eqb a sep then "" :: split r
      else match split r with
           | h :: t => String a h :: t
           | [] => [String a ""]
           end
  end.

(** ["/".join(comps)] *)
Fixpoint join_comps (comps : list string) : string :=
  match comps with
  | [] => ""
  | [c] => c
  | c :: rest => c +:+ "/" +:+ join_comps rest
  end.

Fixpoint starts_with (p s : string) : bool :=
  match p, s with
  | EmptyString, _ => true
  | String a p', String b s' => Ascii.eqb a b && starts_with p' s'
  | String _ _, EmptyString => false
  end.

Fixpoint ends_with_sep (s : string) : bool :=
  match s with
  | EmptyString => false
  | String a EmptyString => Ascii.eqb a sep
  | String _ r => ends_with_sep r
  end.

(** number of leading slashes kept by [normpath]: 0, 1 or 2 *)
Definition initial_slashes (path : string) : nat :=
  if starts_with "/" path then
    if starts_with "//" path && negb (starts_with "///" path) then 2 else 1
  else 0.

(** the loop of [normpath]; [new_comps] is kept reversed (last pushed first) *)
Fixpoint norm_loop (init : nat) (comps : list string) (new_comps : list string)
  : list string :=
  match comps with
  | [] => rev new_comps
  | comp :: rest =>
      if String.eqb comp "" || String.eqb comp "." then norm_loop init rest new_comps
      else if negb (String.eqb comp "..")
              || (Nat.eqb init 0 && match new_comps with [] => true | _ => false end)
              || match new_comps with c :: _ => String.eqb c ".." | [] => false end
           then norm_loop init rest (comp :: new_comps)
           else match new_comps with
                | _ :: popped => norm_loop init rest popped
                | [] => norm_loop init rest new_comps
                end
  end.

Fixpoint slashes (n : nat) : string :=
  match n with O => "" | S k => String sep (slashes k) end.

(** [os.path.normpath] *)
Definition normpath (path : string) : string :=
  if String.eqb path "" then "."
  else
    let init := initial_slashes path in
    let p := slashes init +:+ join_comps (norm_loop init (split path) []) in
    if String.eqb p "" then "." else p.

(** [os.path.basename]: what follows the last slash *)
Definition basename (p : string) : string := List.last (split p) "".

(** [str.rstrip("/")] *)
Fixpoint rstrip_sep (s : string) : string :=
  match s with
  | EmptyString => ""
  | String a r =>
      match rstrip_sep r with
      | EmptyString => if Ascii.eqb a sep then "" else String a ""
      | r' => String a r'
      end
  end.

(** [os.path.dirname]: up to and including the last slash, then trailing
    slashes stripped unless the head is made of slashes only *)
Definition dirname (p : string) : string :=
  let comps := split p in
  match comps with
  | [] | [_] => ""
  | _ =>
      let head := join_comps (removelast comps) +:+ "/" in
      match rstrip_sep head with
      | EmptyString => head
      | h => h
      end
  end.

(** [os.path.join(a, b)] *)
Definition join (a b : string) : string :=
  if starts_with "/" b then b
  else if String.eqb a "" || ends_with_sep a then a +:+ b
  else a +:+ "/" +:+ b.

End Path.

(** ** Python values read from and written to JSON documents

    What [json.load] returns for the documents of this program: [None],
    booleans, integers, strings, lists and dictionaries with string keys (a
    dictionary keeps insertion order, its keys are pairwise distinct).
    Floating-point numbers never occur in the program's documents and are
    not represented. *)

Inductive json : Type :=
  | JNull
  | JBool (b : bool)
  | JNum (n : Z)
  | JStr (s : string)
  | JList (items : list json)
  | JDict (fields : list (string * json)).

Abbreviation bytes := (list Byte.byte).

(** the exceptions the program and its library calls raise *)
Inductive exn : Type :=
  | SystemExit (msg : string)
  | FileNotFoundError (path : string)
  | IsADirectoryError (path : string)
  | NotADirectoryError (path : string)
  | FileExistsError (path : string)
  | SameFileError (src dst : string)
  | JSONDecodeError
  | KeyError (key : string)
  | TypeError
  | AttributeError.

(** ** The file system *)

Inductive node : Type :=
  | Dir
  | File (data : bytes).

Abbreviation disk_t := (gmap string node).

(** the state a command runs in: the disk, what was printed so far, and the
    disk after each mutation performed so far (oldest first) *)
Record world : Type := World {
  disk : disk_t;
  out : list string;
  hist : list disk_t
}.

Inductive res (A : Type) : Type :=
  | Ok (a : A)
  | Raise (e : exn).
Arguments Ok {A} a.
Arguments Raise {A} e.

#[global] Instance res_ret : MRet res := @Ok.
#[global] Instance res_bind : MBind res :=
  λ A B f r, match r with Ok a => f a | Raise e => Raise e end.

Definition M (A : Type) : Type := world → res A * world.

Definition ret {A} (a : A) : M A := λ w, (Ok a, w).
Definition raise {A} (e : exn) : M A := λ w, (Raise e, w).
Definition bind {A B} (m : M A) (f : A → M B) : M B :=
  λ w, match m w with
       | (Ok a, w') => f a w'
       | (Raise e, w') => (Raise e, w')
       end.

#[global] Instance M_ret : MRet M := @ret.
#[global] Instance M_bind : MBind M := λ A B f m, bind m f.

Definition get_disk : M disk_t := λ w, (Ok (disk w), w).
Definition put_disk (d : disk_t) : M unit :=
  λ w, (Ok tt, World d (out w) (hist w ++ [d])).
Definition print (line : string) : M unit :=
  λ w, (Ok tt, World (disk w) (out w ++ [line]) (hist w)).

(** a normalised path naming the current directory, a root, or an ancestor
    of the current directory: always an existing directory *)
Definition is_top (k : string) : bool :=
  String.eqb k "." || String.eqb k "/" || String.eqb k "//"
  || forallb (String.eqb "..") (Path.split k).

(** the node stored under a normalised path *)
Definition key_node (d : disk_t) (k : string) : option node :=
  if is_top k then Some Dir else d !! k.

(** the node a path resolves to; the empty path resolves to nothing *)
Definition node_at (d : disk_t) (p : string) : option node :=
  if String.eqb p "" then None else key_node d (Path.normpath p).

Definition os_path_exists (p : string) : M bool :=
  d ← get_disk; ret (bool_decide (is_Some (node_at d p))).

Definition os_path_isdir (p : string) : M bool :=
  d ← get_disk;
  ret (match node_at d p with Some Dir => true | _ => false end).

(** [open(p, "rb").read()] (also text mode: the bytes are decoded by the
    caller) *)
Definition read_file (p : string) : M bytes :=
  d ← get_disk;
  match node_at d p with
  | None => raise (FileNotFoundError p)
  | Some Dir => raise (IsADirectoryError p)
  | Some (File data) => ret data
  end.

(** [open(p, "w")] followed by writing [data] and closing *)
Definition write_file (p : string) (data : bytes) : M unit :=
  d ← get_disk;
  let k := Path.normpath p in
  if String.eqb p "" then raise (FileNotFoundError p)
  else
    match key_node d k with
    | Some Dir => raise (IsADirectoryError p)
    | _ =>
        let parent := Path.dirname k in
        match (if String.eqb parent "" then Some Dir else node_at d parent) with
        | None => raise (FileNotFoundError p)
        | Some (File _) => raise (NotADirectoryError p)
        | Some Dir => put_disk (<[k := File data]> d)
        end
    end.

(** [shutil.copy2(src, dst)]; file metadata is not modelled *)
Definition shutil_copy2 (src dst : string) : M unit :=
  isdir ← os_path_isdir dst;
  let dst := if isdir : bool then Path.join dst (Path.basename src) else dst in
  d ← get_disk;
  if bool_decide (Path.normpath src = Path.normpath dst)
     && bool_decide (is_Some (node_at d src))
     && bool_decide (is_Some (node_at d dst))
  then raise (SameFileError src dst)
  else data ← read_file src; write_file dst data.

(** the directories [os.makedirs] has to find or create for a normalised
    path, outermost first *)
Fixpoint dir_chain (acc : string) (comps : list string) : list string :=
  match comps with
  | [] => []
  | c :: rest =>
      let here := if String.eqb acc "" then c
                  else if Path.ends_with_sep acc then acc +:+ c
                  else acc +:+ "/" +:+ c in
      if String.eqb c "" then dir_chain (acc +:+ "/") rest
      else here :: dir_chain here rest
  end.

Fixpoint mkdir_chain (p : string) (chain : list string) : M unit :=
  match chain with
  | [] => ret tt
  | k :: rest =>
      d ← get_disk;
      match key_node d k with
      | Some Dir => mkdir_chain p rest
      | Some (File _) =>
          match rest with
          | [] => raise (FileExistsError p)
          | _ => raise (NotADirectoryError p)
          end
      | None => put_disk (<[k := Dir]> d) ;; mkdir_chain p rest
      end
  end.

(** [os.makedirs(p, exist_ok=True)] *)
Definition os_makedirs (p : string) : M unit :=
  mkdir_chain p (dir_chain "" (Path.split (Path.normpath p))).

(** ** Library interfaces *)

(** [hashlib.sha1()]: a running digest *)
Class Sha1 : Type := {
  sha1_state : Type;
  sha1_new : sha1_state;
  sha1_update : sha1_state → bytes → sha1_state;
  sha1_hexdigest : sha1_state → string
}.

(** [json.dump(_, f, indent=2)] and [json.load(f)] *)
Class JsonCodec : Type := {
  json_dump : json → bytes;
  json_load : bytes → option json
}.

(** ** Operations on Python values *)

Definition lift {A} (r : res A) : M A := λ w, (r, w).

Fixpoint assoc (k : string) (fields : list (string * json)) : option json :=
  match fields with
  | [] => None
  | (k', v) :: rest => if String.eqb k k' then Some v else assoc k rest
  end.

(** [d[k] = v] on a dictionary: replaces in place, appends a new key *)
Fixpoint assoc_set (k : string) (v : json) (fields : list (string * json))
  : list (string * json) :=
  match fields with
  | [] => [(k, v)]
  | (k', v') :: rest =>
      if String.eqb k k' then (k', v) :: rest else (k', v') :: assoc_set k v rest
  end.

(** [v.get(k, default)] *)
Definition py_get (v : json) (k : string) (default : json) : res json :=
  match v with
  | JDict fields => Ok (from_option id default (assoc k fields))
  | _ => Raise AttributeError
  end.

(** [v[k]] for a string key *)
Definition py_getitem (v : json) (k : string) : res json :=
  match v with
  | JDict fields =>
      match assoc k fields with
      | Some x => Ok x
      | None => Raise (KeyError k)
      end
  | _ => Raise TypeError
  end.

Fixpoint chars (s : string) : list json :=
  match s with
  | EmptyString => []
  | String a r => JStr (String a "") :: chars r
  end.

(** the items a [for] loop or a comprehension visits *)
Definition py_iter (v : json) : res (list json) :=
  match v with
  | JList items => Ok items
  | JDict fields => Ok (map (λ kv, JStr kv.1) fields)
  | JStr s => Ok (chars s)
  | _ => Raise TypeError
  end.

(** truth value, as tested by [if not v] *)
Definition py_truthy (v : json) : bool :=
  match v with
  | JNull => false
  | JBool b => b
  | JNum n => negb (Z.eqb n 0)
  | JStr s => negb (String.eqb s "")
  | JList items => match items with [] => false | _ => true end
  | JDict fields => match fields with [] => false | _ => true end
  end.

(** [v != s] for a string [s] *)
Definition py_ne_str (v : json) (s : string) : bool :=
  match v with
  | JStr s' => negb (String.eqb s' s)
  | _ => true
  end.

(** a value handed to [os.path] or [open] as a path has to be a string; for
    any other value the call raises [TypeError] (integers, which Python
    would take as file descriptors, never occur in the program's own
    documents and are treated alike) *)
Definition as_str (v : json) : res string :=
  match v with
  | JStr s => Ok s
  | _ => Raise TypeError
  end.

(** ** The program *)

Section Program.
Context `{Sha1} `{JsonCodec}.

Definition MINIGIT_DIR : string := ".minigit".
Definition COMMITS_DIR : string := Path.join MINIGIT_DIR "commits".
Definition OBJECTS_DIR : string := Path.join MINIGIT_DIR "objects".
Definition INDEX_FILE : string := Path.join MINIGIT_DIR "index.json".

Definition ensure_repo : M unit :=
  isdir ← os_path_isdir MINIGIT_DIR;
  if isdir : bool then mret tt
  else raise (SystemExit
    "No parece un repositorio MiniGit. Ejecuta 'minigit.py init' primero.").

Definition empty_index : json := JDict [("staged", JList [])].

Definition cmd_init : M unit :=
  os_makedirs COMMITS_DIR;;
  os_makedirs OBJECTS_DIR;;
  ex ← os_path_exists INDEX_FILE;
  (if ex : bool then mret tt
   else write_file INDEX_FILE (json_dump empty_index));;
  print ("Repositorio MiniGit inicializado en ./" +:+ MINIGIT_DIR).

Definition read_index : M json :=
  ex ← os_path_exists INDEX_FILE;
  if ex : bool then
    data ← read_file INDEX_FILE;
    match json_load data with
    | Some v => mret v
    | None => raise JSONDecodeError
    end
  else mret empty_index.

Definition write_index (data : json) : M unit :=
  write_file INDEX_FILE (json_dump data).

Definition chunk_size : nat := Nat.pow 2 13.

(** the read loop of [hash_file_bytes]: 8192 bytes at a time until an empty
    read; [fuel] bounds the number of reads *)
Fixpoint hash_chunks (fuel : nat) (rest : bytes) (h : sha1_state) : sha1_state :=
  match fuel with
  | O => h
  | S n =>
      match take chunk_size rest with
      | [] => h
      | chunk => hash_chunks n (drop chunk_size rest) (sha1_update h chunk)
      end
  end.

(** the fingerprint of a file's content *)
Definition fingerprint (data : bytes) : string :=
  sha1_hexdigest (hash_chunks (S (length data)) data sha1_new).

Definition hash_file_bytes (path : string) : M string :=
  data ← read_file path;
  mret (fingerprint data).

Definition staged_entry (path sha : string) : json :=
  JDict [("path", JStr path); ("sha", JStr sha)].

(** [[s for s in items if s["path"] != rel_path]] *)
Fixpoint without_path (items : list json) (rel_path : string) : res (list json) :=
  match items with
  | [] => Ok []
  | s :: rest =>
      match py_getitem s "path" with
      | Raise e => Raise e
      | Ok p =>
          match without_path rest rel_path with
          | Raise e => Raise e
          | Ok kept => Ok (if py_ne_str p rel_path then s :: kept else kept)
          end
      end
  end.

Definition cmd_add (file : string) : M unit :=
  ensure_repo;;
  let path := file in
  ex ← os_path_exists path;
  if ex : bool then
    let rel_path := Path.normpath path in
    index ← read_index;
    old ← lift (py_get index "staged" (JList []));
    items ← lift (py_iter old);
    staged ← lift (without_path items rel_path);
    sha ← hash_file_bytes rel_path;
    let staged := (staged ++ [staged_entry rel_path sha])%list in
    index ← lift (match index with
                  | JDict fields => Ok (JDict (assoc_set "staged" (JList staged) fields))
                  | _ => Raise TypeError
                  end);
    write_index index;;
    print ("Archivo añadido al área de preparación: " +:+ rel_path)
  else raise (SystemExit ("Archivo no encontrado: " +:+ path)).

Definition file_entry (path object_name sha : string) : json :=
  JDict [("path", JStr path); ("object", JStr object_name); ("sha", JStr sha)].

(** the [for entry in staged] loop of [cmd_commit] *)
Fixpoint commit_loop (staged : list json) (files_metadata : list json)
  : M (list json) :=
  match staged with
  | [] => mret files_metadata
  | entry :: rest =>
      path ← lift (py_getitem entry "path" ≫= as_str);
      ex ← os_path_exists path;
      if ex : bool then
        sha ← hash_file_bytes path;
        let base_name := Path.basename path in
        let object_name := sha +:+ "_" +:+ base_name in
        let object_path := Path.join OBJECTS_DIR object_name in
        oex ← os_path_exists object_path;
        (if oex : bool then mret tt else shutil_copy2 path object_path);;
        commit_loop rest (files_metadata ++ [file_entry path object_name sha])%list
      else
        print ("Advertencia: " +:+ path +:+ " ya no existe; se omitirá.");;
        commit_loop rest files_metadata
  end.

Definition commit_record (commit_id timestamp message : string)
    (files_metadata : list json) : json :=
  JDict [("id", JStr commit_id); ("timestamp", JStr timestamp);
         ("message", JStr message); ("files", JList files_metadata)].

Definition commit_path (commit_id : string) : string :=
  Path.join COMMITS_DIR (commit_id +:+ ".json").

(** [commit_id] is the value of [uuid.uuid4().hex[:12]] and [timestamp] that
    of [datetime.utcnow().isoformat() + "Z"] in this run *)
Definition cmd_commit (message commit_id timestamp : string) : M unit :=
  ensure_repo;;
  index ← read_index;
  staged ← lift (py_get index "staged" (JList []));
  if py_truthy staged then
    items ← lift (py_iter staged);
    files_metadata ← commit_loop items [];
    let commit_obj := commit_record commit_id timestamp message files_metadata in
    let commit_file := commit_path commit_id in
    write_file commit_file (json_dump commit_obj);;
    write_index empty_index;;
    print ("Commit creado: " +:+ commit_id +:+ " con "
           +:+ pretty (length files_metadata) +:+ " archivos.")
  else print "Nada para commitear. El área de preparación está vacía.".

(** the [for fmeta in files] loop of [cmd_restore] *)
Fixpoint restore_loop (files : list json) (restored : nat) : M nat :=
  match files with
  | [] => mret restored
  | fmeta :: rest =>
      obj_name ← lift (py_getitem fmeta "object" ≫= as_str);
      let object_path := Path.join OBJECTS_DIR obj_name in
      target_path ← lift (py_getitem fmeta "path" ≫= as_str);
      oex ← os_path_exists object_path;
      if oex : bool then
        let target_dir := Path.dirname target_path in
        dex ← os_path_exists target_dir;
        (if negb (String.eqb target_dir "") && negb dex
         then os_makedirs target_dir else mret tt);;
        shutil_copy2 object_path target_path;;
        restore_loop rest (S restored)
      else
        print ("Objeto faltante: " +:+ obj_name +:+ " (no se puede restaurar "
               +:+ target_path +:+ ")");;
        restore_loop rest restored
  end.

Definition cmd_restore (id : string) : M unit :=
  ensure_repo;;
  let commit_id := id in
  let commit_file := commit_path commit_id in
  ex ← os_path_exists commit_file;
  if ex : bool then
    data ← read_file commit_file;
    commit_obj ← match json_load data with
                 | Some v => mret v
                 | None => raise JSONDecodeError
                 end;
    files ← lift (py_get commit_obj "files" (JList []));
    items ← lift (py_iter files);
    restored ← restore_loop items 0;
    print ("Restaurados " +:+ pretty restored +:+ " archivos desde el commit "
           +:+ commit_id +:+ ".")
  else raise (SystemExit ("No se encontró el commit con id " +:+ commit_id)).

End Program.

(** ** SHA-1 (FIPS 180-4), the instance of [Sha1] used to run the program *)

Module SHA1.
Local Open Scope N_scope.

Definition w32 (x : N) : N := x mod 2 ^ 32.
Definition rotl (n x : N) : N :=
  w32 (N.lor (N.shiftl x n) (N.shiftr x (32 - n))).
Definition add32 (x y : N) : N := w32 (x + y).
Definition not32 (x : N) : N := N.lxor x (2 ^ 32 - 1).

(** big-endian value of a byte sequence *)
Definition be (bs : list N) : N := fold_left (λ acc b, acc * 256 + b) bs 0.

(** [n] as [len] big-endian bytes *)
Fixpoint to_be (len : nat) (n : N) : list N :=
  match len with
  | O => []
  | S k => (to_be k (n / 256) ++ [n mod 256])%list
  end.

Definition pad (msg : list N) : list N :=
  let l := N.of_nat (length msg) in
  let zeros := N.to_nat ((119 - l mod 64) mod 64) in
  (msg ++ [128] ++ repeat 0 zeros ++ to_be 8 (8 * l))%list.

Fixpoint blocks (fuel : nat) (bs : list N) : list (list N) :=
  match fuel, bs with
  | S k, _ :: _ => take 64 bs :: blocks k (drop 64 bs)
  | _, _ => []
  end.

Fixpoint words (fuel : nat) (bs : list N) : list N :=
  match fuel, bs with
  | S k, _ :: _ => be (take 4 bs) :: words k (drop 4 bs)
  | _, _ => []
  end.

(** the message schedule, most recent word first *)
Fixpoint schedule (n : nat) (w : list N) : list N :=
  match n with
  | O => w
  | S k =>
      let x := N.lxor (N.lxor (nth 2 w 0) (nth 7 w 0))
                      (N.lxor (nth 13 w 0) (nth 15 w 0)) in
      schedule k (rotl 1 x :: w)
  end.

Definition round_f (t : nat) (b c d : N) : N :=
  if (t <? 20)%nat then N.lor (N.land b c) (N.land (not32 b) d)
  else if (t <? 40)%nat then N.lxor (N.lxor b c) d
  else if (t <? 60)%nat
       then N.lor (N.lor (N.land b c) (N.land b d)) (N.land c d)
  else N.lxor (N.lxor b c) d.

Definition round_k (t : nat) : N :=
  if (t <? 20)%nat then 1518500249
  else if (t <? 40)%nat then 1859775393
  else if (t <? 60)%nat then 2400959708
  else 3395469782.

Definition regs : Type := N * N * N * N * N.

Fixpoint rounds (t : nat) (ws : list N) (r : regs) : regs :=
  match ws with
  | [] => r
  | w :: rest =>
      let '(a, b, c, d, e) := r in
      let temp :=
        add32 (add32 (add32 (add32 (rotl 5 a) (round_f t b c d)) e) (round_k t)) w in
      rounds (S t) rest (temp, a, rotl 30 b, c, d)
  end.

Definition compress (h : regs) (block : list N) : regs :=
  let ws := rev (schedule 64 (rev (words 16 block))) in
  let '(a, b, c, d, e) := rounds 0 ws h in
  let '(h0, h1, h2, h3, h4) := h in
  (add32 h0 a, add32 h1 b, add32 h2 c, add32 h3 d, add32 h4 e).

Definition init : regs :=
  (1732584193, 4023233417, 2562383102, 271733878, 3285377520).

Definition hex_digit (n : N) : ascii :=
  ascii_of_N (if n <? 10 then 48 + n else 87 + n).

Fixpoint hex (digits : nat) (n : N) : string :=
  match digits with
  | O => ""
  | S k => hex k (n / 16) +:+ String (hex_digit (n mod 16)) ""
  end.

Definition digest (msg : bytes) : regs :=
  let padded := pad (map Byte.to_N msg) in
  fold_left compress (blocks (length padded) padded) init.

Definition hexdigest (msg : bytes) : string :=
  let '(h0, h1, h2, h3, h4) := digest msg in
  hex 8 h0 +:+ hex 8 h1 +:+ hex 8 h2 +:+ hex 8 h3 +:+ hex 8 h4.

End SHA1.

(** the running digest keeps the bytes fed so far *)
#[global] Instance hashlib_sha1 : Sha1 := {|
  sha1_state := bytes;
  sha1_new := [];
  sha1_update := λ h chunk, (h ++ chunk)%list;
  sha1_hexdigest := SHA1.hexdigest
|}.


(** ** JSON text, the instance of [JsonCodec] used to run the program

    [dumps] lays a value out as [json.dump(_, indent=2)] does (ASCII output,
    [\uXXXX] escapes); [loads] is a recursive-descent reader of JSON text.
    A [string] holds the UTF-8 bytes of the Python string. *)

Module Json.

Definition to_bytes (s : string) : bytes := String.list_byte_of_string s.
Definition of_bytes (bs : bytes) : string := String.string_of_list_byte bs.

Local Open Scope N_scope.

(** code points of a UTF-8 byte sequence *)
Fixpoint code_points (bs : list N) : list N :=
  match bs with
  | [] => []
  | b0 :: rest =>
      if b0 <? 128 then b0 :: code_points rest
      else if b0 <? 224 then
        match rest with
        | b1 :: r => ((b0 mod 32) * 64 + b1 mod 64) :: code_points r
        | _ => [b0]
        end
      else if b0 <? 240 then
        match rest with
        | b1 :: b2 :: r =>
            ((b0 mod 16) * 4096 + (b1 mod 64) * 64 + b2 mod 64) :: code_points r
        | _ => [b0]
        end
      else
        match rest with
        | b1 :: b2 :: b3 :: r =>
            ((b0 mod 8) * 262144 + (b1 mod 64) * 4096 + (b2 mod 64) * 64 + b3 mod 64)
              :: code_points r
        | _ => [b0]
        end
  end.

Definition utf8 (cp : N) : list N :=
  if cp <? 128 then [cp]
  else if cp <? 2048 then [192 + cp / 64; 128 + cp mod 64]
  else if cp <? 65536 then [224 + cp / 4096; 128 + (cp / 64) mod 64; 128 + cp mod 64]
  else [240 + cp / 262144; 128 + (cp / 4096) mod 64; 128 + (cp / 64) mod 64;
        128 + cp mod 64].

Definition str_of (ns : list N) : string :=
  fold_right (λ n acc, String (ascii_of_N n) acc) EmptyString ns.
Definition ns_of (s : string) : list N := map N_of_ascii (list_ascii_of_string s).

Definition u_escape (n : N) : string := "\u" +:+ SHA1.hex 4 n.

Definition escape_cp (cp : N) : string :=
  if cp =? 34 then "\" +:+ String (ascii_of_N 34) ""
  else if cp =? 92 then "\\"
  else if cp =? 10 then "\n"
  else if cp =? 13 then "\r"
  else if cp =? 9 then "\t"
  else if cp =? 8 then "\b"
  else if cp =? 12 then "\f"
  else if (32 <=? cp) && (cp <? 127) then String (ascii_of_N cp) ""
  else if cp <? 65536 then u_escape cp
  else let v := cp - 65536 in
       u_escape (55296 + v / 1024) +:+ u_escape (56320 + v mod 1024).

Definition quote : string := String (ascii_of_N 34) "".

Definition dump_str (s : string) : string :=
  quote +:+ String.concat "" (map escape_cp (code_points (ns_of s))) +:+ quote.

Definition newline (level : nat) : string :=
  String (ascii_of_N 10) (str_of (repeat 32 (2 * level))).

Fixpoint dumps (level : nat) (v : json) : string :=
  match v with
  | JNull => "null"
  | JBool true => "true"
  | JBool false => "false"
  | JNum n => pretty n
  | JStr s => dump_str s
  | JList [] => "[]"
  | JList items =>
      "[" +:+ newline (S level)
      +:+ String.concat ("," +:+ newline (S level)) (map (dumps (S level)) items)
      +:+ newline level +:+ "]"
  | JDict [] => "{}"
  | JDict fields =>
      "{" +:+ newline (S level)
      +:+ String.concat ("," +:+ newline (S level))
            (map (λ kv, dump_str kv.1 +:+ ": " +:+ dumps (S level) kv.2) fields)
      +:+ newline level +:+ "}"
  end.

Definition is_ws (a : ascii) : bool :=
  let n := N_of_ascii a in (n =? 32) || (n =? 9) || (n =? 10) || (n =? 13).

Fixpoint skip_ws (s : string) : string :=
  match s with
  | String a r => if is_ws a then skip_ws r else s
  | EmptyString => s
  end.

Definition hex_val (a : ascii) : option N :=
  let n := N_of_ascii a in
  if (48 <=? n) && (n <=? 57) then Some (n - 48)
  else if (97 <=? n) && (n <=? 102) then Some (n - 87)
  else if (65 <=? n) && (n <=? 70) then Some (n - 55)
  else None.

Definition simple_escape (a : ascii) : option N :=
  let n := N_of_ascii a in
  if (n =? 34) || (n =? 92) || (n =? 47) then Some n
  else if n =? 98 then Some 8
  else if n =? 102 then Some 12
  else if n =? 110 then Some 10
  else if n =? 114 then Some 13
  else if n =? 116 then Some 9
  else None.

(** the body of a string literal, after its opening quote: raw bytes
    ([false]) and escaped UTF-16 code units ([true]), and the text that
    follows the closing quote *)
Fixpoint read_str (s : string) : option (list (bool * N) * string) :=
  match s with
  | EmptyString => None
  | String a r =>
      let n := N_of_ascii a in
      if n =? 34 then Some ([], r)
      else if n =? 92 then
        match r with
        | String e r' =>
            if N_of_ascii e =? 117 then
              match r' with
              | String h1 (String h2 (String h3 (String h4 r''))) =>
                  match hex_val h1, hex_val h2, hex_val h3, hex_val h4, read_str r'' with
                  | Some d1, Some d2, Some d3, Some d4, Some (us, rest) =>
                      Some ((true, d1 * 4096 + d2 * 256 + d3 * 16 + d4) :: us, rest)
                  | _, _, _, _, _ => None
                  end
              | _ => None
              end
            else
              match simple_escape e, read_str r' with
              | Some c, Some (us, rest) => Some ((true, c) :: us, rest)
              | _, _ => None
              end
        | EmptyString => None
        end
      else if n <? 32 then None
      else match read_str r with
           | Some (us, rest) => Some ((false, n) :: us, rest)
           | None => None
           end
  end.

(** UTF-8 bytes of the units of a literal; a surrogate pair is one code point *)
Fixpoint units_bytes (us : list (bool * N)) : list N :=
  match us with
  | [] => []
  | (false, n) :: rest => n :: units_bytes rest
  | (true, hi) :: rest =>
      match rest with
      | (true, lo) :: rest' =>
          if (55296 <=? hi) && (hi <? 56320) && (56320 <=? lo) && (lo <? 57344)
          then (utf8 (65536 + (hi - 55296) * 1024 + (lo - 56320)) ++ units_bytes rest')%list
          else (utf8 hi ++ units_bytes rest)%list
      | _ => (utf8 hi ++ units_bytes rest)%list
      end
  end.

Definition read_string (s : string) : option (string * string) :=
  match read_str s with
  | Some (us, rest) => Some (str_of (units_bytes us), rest)
  | None => None
  end.

Definition is_digit (a : ascii) : bool :=
  let n := N_of_ascii a in (48 <=? n) && (n <=? 57).

Fixpoint read_digits (s : string) (acc : N) (count : nat) : N * nat * string :=
  match s with
  | String a r =>
      if is_digit a then read_digits r (acc * 10 + (N_of_ascii a - 48)) (S count)
      else (acc, count, s)
  | EmptyString => (acc, count, s)
  end.

(** an integer literal; a fraction or an exponent makes it a float, which
    the value type does not represent *)
Definition read_int (negative : bool) (s : string) : option (json * string) :=
  let '(n, count, rest) := read_digits s 0 0 in
  let leading_zero := match s with String a _ => N_of_ascii a =? 48 | _ => false end in
  let float := match rest with
               | String a _ => let c := N_of_ascii a in (c =? 46) || (c =? 101) || (c =? 69)
               | _ => false
               end in
  if (count =? 0)%nat || (leading_zero && negb (count =? 1)%nat) || float then None
  else Some (JNum (if negative then - Z.of_N n else Z.of_N n)%Z, rest).

Fixpoint drop_prefix (p s : string) : option string :=
  match p, s with
  | EmptyString, _ => Some s
  | String a p', String c s' => if Ascii.eqb a c then drop_prefix p' s' else None
  | String _ _, EmptyString => None
  end.

Fixpoint read_value (fuel : nat) (s : string) : option (json * string) :=
  match fuel with
  | O => None
  | S k =>
      match skip_ws s with
      | EmptyString => None
      | String a r as s' =>
          let n := N_of_ascii a in
          if n =? 34 then
            match read_string r with
            | Some (x, rest) => Some (JStr x, rest)
            | None => None
            end
          else if n =? 91 then
            match skip_ws r with
            | String c rest as r' =>
                if N_of_ascii c =? 93 then Some (JList [], rest)
                else match read_items k r' with
                     | Some (items, rest') => Some (JList items, rest')
                     | None => None
                     end
            | EmptyString => None
            end
          else if n =? 123 then
            match skip_ws r with
            | String c rest as r' =>
                if N_of_ascii c =? 125 then Some (JDict [], rest)
                else match read_fields k r' [] with
                     | Some (fields, rest') => Some (JDict fields, rest')
                     | None => None
                     end
            | EmptyString => None
            end
          else if n =? 45 then read_int true r
          else if is_digit a then read_int false s'
          else match drop_prefix "null" s', drop_prefix "true" s', drop_prefix "false" s' with
               | Some rest, _, _ => Some (JNull, rest)
               | _, Some rest, _ => Some (JBool true, rest)
               | _, _, Some rest => Some (JBool false, rest)
               | _, _, _ => None
               end
      end
  end
with read_items (fuel : nat) (s : string) : option (list json * string) :=
  match fuel with
  | O => None
  | S k =>
      match read_value k s with
      | Some (v, s1) =>
          match skip_ws s1 with
          | String c rest =>
              if N_of_ascii c =? 44 then
                match read_items k rest with
                | Some (vs, s2) => Some (v :: vs, s2)
                | None => None
                end
              else if N_of_ascii c =? 93 then Some ([v], rest)
              else None
          | EmptyString => None
          end
      | None => None
      end
  end
with read_fields (fuel : nat) (s : string) (acc : list (string * json))
  : option (list (string * json) * string) :=
  match fuel with
  | O => None
  | S k =>
      match skip_ws s with
      | String q r =>
          if N_of_ascii q =? 34 then
            match read_string r with
            | Some (key, s1) =>
                match skip_ws s1 with
                | String c s2 =>
                    if N_of_ascii c =? 58 then
                      match read_value k s2 with
                      | Some (v, s3) =>
                          let acc' := assoc_set key v acc in
                          match skip_ws s3 with
                          | String c' rest =>
                              if N_of_ascii c' =? 44 then read_fields k rest acc'
                              else if N_of_ascii c' =? 125 then Some (acc', rest)
                              else None
                          | EmptyString => None
                          end
                      | None => None
                      end
                    else None
                | EmptyString => None
                end
            | None => None
            end
          else None
      | EmptyString => None
      end
  end.

Definition loads (s : string) : option json :=
  match read_value (2 * String.length s + 2) s with
  | Some (v, rest) =>
      match skip_ws rest with
      | EmptyString => Some v
      | _ => None
      end
  | None => None
  end.

End Json.

#[global] Instance json_text : JsonCodec := {|
  json_dump := λ v, Json.to_bytes (Json.dumps 0 v);
  json_load := λ data, Json.loads (Json.of_bytes data)
|}.

(** ** Running commands *)

(** a fresh run on a disk: nothing printed, no mutation yet *)
Definition start (d : disk_t) : world := World d [] [].

(** the user removes the working copy at [p] *)
Definition user_delete (p : string) (d : disk_t) : disk_t :=
  delete (Path.normpath p) d.

(** the user writes [data] to the file at [p] *)
Definition user_write (p : string) (data : bytes) (d : disk_t) : disk_t :=
  <[Path.normpath p := File data]> d.

(** the user makes a directory at [p] *)
Definition user_mkdir (p : string) (d : disk_t) : disk_t :=
  <[Path.normpath p := Dir]> d.

(** ** Names inside the repository directory *)

Fixpoint no_sep (s : string) : bool :=
  match s with
  | EmptyString => true
  | String a r => negb (Ascii.eqb a Path.sep) && no_sep r
  end.

(** a name that is one path component: no slash, not empty, neither [.]
    nor [..] *)
Definition plain (s : string) : bool :=
  no_sep s && negb (String.eqb s "") && negb (String.eqb s ".")
  && negb (String.eqb s "..").

(** the digest is printed without slashes (it is hexadecimal) *)
Class Sha1Hex `{Sha1} : Prop :=
  hexdigest_no_sep : ∀ st, no_sep (sha1_hexdigest st) = true.

Section Keys.
Context `{Sha1}.

(** the name [cmd_commit] gives the object of a file *)
Definition object_name (data : bytes) (path : string) : string :=
  fingerprint data +:+ "_" +:+ Path.basename path.

(** where an object of a given name is stored *)
Definition object_key (name : string) : string := ".minigit/objects/" +:+ name.

(** where the record of a commit is stored *)
Definition commit_key (commit_id : string) : string :=
  ".minigit/commits/" +:+ commit_id +:+ ".json".

Definition INDEX_KEY : string := ".minigit/index.json".

End Keys.

(** a path of three components *)
Definition path3 (a b n : string) : string := a +:+ "/" +:+ (b +:+ "/" +:+ n).

(** components as [normpath] leaves them: some [..] first (relative paths
    only), then ordinary names *)
Definition clean (init : nat) (comps : list string) : Prop :=
  ∃ dots rest, comps = dots ++ rest
               ∧ Forall (λ c, c = "..") dots
               ∧ Forall (λ c, plain c = true) rest
               ∧ (init ≠ 0 → dots = []).

Section Views.
Context `{Sha1} `{JsonCodec}.

(** what [read_index] returns on a disk *)
Definition load_index (d : disk_t) : res json :=
  match node_at d INDEX_FILE with
  | None => Ok empty_index
  | Some Dir => Raise (IsADirectoryError INDEX_FILE)
  | Some (File data) =>
      match json_load data with
      | Some v => Ok v
      | None => Raise JSONDecodeError
      end
  end.

(** a staging entry as a pair (path, fingerprint) *)
Definition entry_json (e : string * string) : json := staged_entry e.1 e.2.

(** the index document [fields] lists the entries [es] *)
Definition staged_in (fields : list (string * json)) (es : list (string * string))
  : Prop :=
  from_option id (JList []) (assoc "staged" fields) = JList (map entry_json es).

(** the staging index of a disk is the document [fields], listing [es] *)
Definition staging (d : disk_t) (fields : list (string * json))
    (es : list (string * string)) : Prop :=
  load_index d = Ok (JDict fields) ∧ staged_in fields es.

(** the record of commit [commit_id], if the disk holds a readable one *)
Definition load_commit (d : disk_t) (commit_id : string) : option json :=
  match node_at d (commit_path commit_id) with
  | Some (File data) => json_load data
  | _ => None
  end.

(** a document the codec reads back as it was written *)
Definition roundtrips (v : json) : Prop := json_load (json_dump v) = Some v.

End Views.

(** the directories of an initialised repository are in place *)
Definition repo_ok (d : disk_t) : Prop :=
  node_at d MINIGIT_DIR = Some Dir
  ∧ node_at d COMMITS_DIR = Some Dir
  ∧ node_at d OBJECTS_DIR = Some Dir.

(** ** The commit loop, as a function of the disk *)

Section CommitModel.
Context `{Sha1} `{JsonCodec}.

(** the world after one mutation of the disk *)
Definition mutated (w : world) (d : disk_t) : world :=
  World d (out w) (hist w ++ [d]).

(** the world after one line of output *)
Definition printed (w : world) (line : string) : world :=
  World (disk w) (out w ++ [line]) (hist w).

(** the key under which [cmd_commit] stores the object of a file *)
Definition okey (data : bytes) (p : string) : string :=
  object_key (object_name data p).

Definition warning (p : string) : string :=
  "Advertencia: " +:+ p +:+ " ya no existe; se omitirá.".

Definition recorded (data : bytes) (p : string) : json :=
  file_entry p (object_name data p) (fingerprint data).

(** the disk after the commit loop has handled one staged entry *)
Definition step_disk (d : disk_t) (e : string * string) : disk_t :=
  match node_at d e.1 with
  | Some (File data) =>
      match d !! okey data e.1 with
      | Some _ => d
      | None => <[okey data e.1 := File data]> d
      end
  | _ => d
  end.

Definition loop_disk (d : disk_t) (es : list (string * string)) : disk_t :=
  foldl step_disk d es.

(** the file entries the loop appends, the warnings it prints and the disks
    it goes through *)
Fixpoint loop_files (d : disk_t) (es : list (string * string)) : list json :=
  match es with
  | [] => []
  | e :: rest =>
      match node_at d e.1 with
      | Some (File data) => recorded data e.1 :: loop_files (step_disk d e) rest
      | _ => loop_files (step_disk d e) rest
      end
  end.

Fixpoint loop_out (d : disk_t) (es : list (string * string)) : list string :=
  match es with
  | [] => []
  | e :: rest =>
      match node_at d e.1 with
      | None => warning e.1 :: loop_out (step_disk d e) rest
      | _ => loop_out (step_disk d e) rest
      end
  end.

Fixpoint loop_hist (d : disk_t) (es : list (string * string)) : list disk_t :=
  match es with
  | [] => []
  | e :: rest =>
      match node_at d e.1 with
      | Some (File data) =>
          match d !! okey data e.1 with
          | Some _ => loop_hist (step_disk d e) rest
          | None => step_disk d e :: loop_hist (step_disk d e) rest
          end
      | _ => loop_hist (step_disk d e) rest
      end
  end.

(** no staged path is a directory *)
Definition no_dirs (d : disk_t) (es : list (string * string)) : Prop :=
  Forall (λ e, node_at d e.1 ≠ Some Dir) es.

(** a path that does not name an object of the store *)
Definition not_object (k : string) : Prop := ∀ name, k ≠ object_key name.

(** the entries recorded and the warnings printed, when the state of each
    staged path is the one it has before the loop *)
Definition snapshot (d : disk_t) (es : list (string * string)) : list json :=
  omap (λ e, match node_at d e.1 with
             | Some (File data) => Some (recorded data e.1)
             | _ => None
             end) es.

Definition warnings (d : disk_t) (es : list (string * string)) : list string :=
  omap (λ e, match node_at d e.1 with
             | None => Some (warning e.1)
             | _ => None
             end) es.

(** the staged paths that do not exist are not paths of objects *)
Definition settled (d : disk_t) (es : list (string * string)) : Prop :=
  Forall (λ e, node_at d e.1 = None → not_object (Path.normpath e.1)) es.

(** the message [cmd_commit] ends with *)
Definition created (commit_id : string) (n : nat) : string :=
  "Commit creado: " +:+ commit_id +:+ " con " +:+ pretty n +:+ " archivos.".

(** the three disks a commit ends with: after the loop, after the record
    is written, after the index is cleared *)
Definition disk_looped (d : disk_t) (es : list (string * string)) : disk_t :=
  loop_disk d es.
Definition disk_recorded (d : disk_t) (es : list (string * string))
    (message commit_id timestamp : string) : disk_t :=
  <[commit_key commit_id :=
      File (json_dump (commit_record commit_id timestamp message (loop_files d es)))]>
    (loop_disk d es).
Definition disk_committed (d : disk_t) (es : list (string * string))
    (message commit_id timestamp : string) : disk_t :=
  <[INDEX_KEY := File (json_dump empty_index)]>
    (disk_recorded d es message commit_id timestamp).

End CommitModel.

Section CommitReady.
Context `{Sha1} `{JsonCodec}.

(** what a commit needs to run to its end: an initialised repository, a
    staging index that lists entries, none of them a directory, and an id
    (twelve hexadecimal digits in the program) that holds no slash and is not
    the name of a directory *)
Definition commit_ready (d : disk_t) (fields : list (string * json))
    (es : list (string * string)) (commit_id : string) : Prop :=
  repo_ok d ∧ staging d fields es ∧ es ≠ [] ∧ no_dirs d es
  ∧ no_sep commit_id = true ∧ d !! commit_key commit_id ≠ Some Dir.

End CommitReady.

Section RestoreModel.
Context `{Sha1} `{JsonCodec}.

(** a file entry of a commit record: target path, object name, fingerprint *)
Record fentry : Type := FEntry { fpath : string; fobject : string; fsha : string }.

Definition fentry_json (e : fentry) : json :=
  file_entry (fpath e) (fobject e) (fsha e).

(** where [cmd_restore] looks for the object of an entry *)
Definition opath (e : fentry) : string := Path.join OBJECTS_DIR (fobject e).

(** the disk after the restore loop has handled one entry *)
Definition restore_step (d : disk_t) (e : fentry) : disk_t :=
  match node_at d (opath e) with
  | Some (File data) => <[Path.normpath (fpath e) := File data]> d
  | _ => d
  end.

Definition restore_disk (d : disk_t) (es : list fentry) : disk_t :=
  foldl restore_step d es.

Definition missing (e : fentry) : string :=
  "Objeto faltante: " +:+ fobject e +:+ " (no se puede restaurar "
  +:+ fpath e +:+ ")".

Fixpoint restore_count (d : disk_t) (es : list fentry) : nat :=
  match es with
  | [] => 0
  | e :: rest =>
      match node_at d (opath e) with
      | Some (File _) => S (restore_count (restore_step d e) rest)
      | _ => restore_count (restore_step d e) rest
      end
  end.

Fixpoint restore_out (d : disk_t) (es : list fentry) : list string :=
  match es with
  | [] => []
  | e :: rest =>
      match node_at d (opath e) with
      | None => missing e :: restore_out (restore_step d e) rest
      | _ => restore_out (restore_step d e) rest
      end
  end.

Fixpoint restore_hist (d : disk_t) (es : list fentry) : list disk_t :=
  match es with
  | [] => []
  | e :: rest =>
      match node_at d (opath e) with
      | Some (File _) => restore_step d e :: restore_hist (restore_step d e) rest
      | _ => restore_hist (restore_step d e) rest
      end
  end.

(** an entry can be restored on a disk: its object is not a directory and,
    if the object is there, the target is a path (not the empty string), is
    not a directory and lies in an existing directory *)
Definition entry_ok (d : disk_t) (e : fentry) : Prop :=
  node_at d (opath e) ≠ Some Dir
  ∧ (is_Some (node_at d (opath e)) →
       fpath e ≠ ""
       ∧ node_at d (fpath e) ≠ Some Dir
       ∧ (Path.dirname (fpath e) = "" ∨ node_at d (Path.dirname (fpath e)) = Some Dir)
       ∧ (Path.dirname (Path.normpath (fpath e)) = ""
          ∨ node_at d (Path.dirname (Path.normpath (fpath e))) = Some Dir)).

(** no target of the record is the path of an object of the record *)
Definition targets_apart (es : list fentry) : Prop :=
  ∀ e e', e ∈ es → e' ∈ es → Path.normpath (fpath e) ≠ Path.normpath (opath e').

Definition restorable (d : disk_t) (es : list fentry) : Prop :=
  Forall (entry_ok d) es ∧ targets_apart es.

End RestoreModel.

Section RestoreViews.
Context `{Sha1} `{JsonCodec}.

(** the bytes stored for an entry, if its object is a file of the store *)
Definition stored (d : disk_t) (e : fentry) : option bytes :=
  match node_at d (opath e) with
  | Some (File data) => Some data
  | _ => None
  end.

Definition missing_warnings (d : disk_t) (es : list fentry) : list string :=
  omap (λ e, match node_at d (opath e) with
             | None => Some (missing e)
             | _ => None
             end) es.

End RestoreViews.

Section RestoreRecord.
Context `{Sha1} `{JsonCodec}.

(** the message [cmd_restore] ends with *)
Definition restored_line (n : nat) (commit_id : string) : string :=
  "Restaurados " +:+ pretty n +:+ " archivos desde el commit " +:+ commit_id +:+ ".".

(** the entries whose object is stored, each with its bytes, in record order *)
Definition stored_entries (d : disk_t) (es : list fentry) : list (fentry * bytes) :=
  omap (λ e, pair e <$> stored d e) es.

(** the disk holds a record for [commit_id] whose file list is [es] *)
Definition record_lists (d : disk_t) (commit_id : string) (es : list fentry) : Prop :=
  ∃ data record,
    node_at d (commit_path commit_id) = Some (File data)
    ∧ json_load data = Some record
    ∧ py_get record "files" (JList []) = Ok (JList (map fentry_json es)).

End RestoreRecord.

Section RestoreTargets.
Context `{Sha1} `{JsonCodec}.

(** a computation that, whatever its outcome, leaves every key outside [K]
    as it found it *)
Definition changes_only {A} (K : string → Prop) (m : M A) : Prop :=
  ∀ w r w', m w = (r, w') → ∀ k, ¬ K k → disk w' !! k = disk w !! k.

(** the keys the restore of one entry of a record may write: the target, the
    file of the object's name inside the target when the target is a
    directory, and the directories leading to the target *)
Definition entry_targets (fmeta : json) : list string :=
  match py_getitem fmeta "object" ≫= as_str, py_getitem fmeta "path" ≫= as_str with
  | Ok obj_name, Ok target_path =>
      Path.normpath target_path
      :: Path.normpath (Path.join target_path
                          (Path.basename (Path.join OBJECTS_DIR obj_name)))
      :: dir_chain "" (Path.split (Path.normpath (Path.dirname target_path)))
  | _, _ => []
  end.

(** the keys a restore of [commit_id] may write on a disk *)
Definition restore_targets (d : disk_t) (commit_id : string) : list string :=
  match load_commit d commit_id with
  | Some record =>
      match py_get record "files" (JList []) ≫= py_iter with
      | Ok items => concat (map entry_targets items)
      | Raise _ => []
      end
  | None => []
  end.

End RestoreTargets.

Section AddModel.
Context `{Sha1} `{JsonCodec}.

(** the staging entries after [path], whose bytes have fingerprint [sha], is
    staged *)
Definition restaged (es : list (string * string)) (rel_path sha : string)
  : list (string * string) :=
  filter (λ e, e.1 ≠ rel_path) es ++ [(rel_path, sha)].

Definition added (rel_path : string) : string :=
  "Archivo añadido al área de preparación: " +:+ rel_path.

End AddModel.

Section RoundTripModel.
Context `{Sha1} `{JsonCodec}.

(** every file or directory of the disk lies in a directory of the disk *)
Definition tree (d : disk_t) : Prop :=
  map_Forall (λ k _, Path.dirname k = "" ∨ node_at d (Path.dirname k) = Some Dir) d.

(** the name under which the object of a staged file is stored is not taken
    by other bytes: neither on the disk, nor by another staged file *)
Definition names_trusted (d : disk_t) (es : list (string * string)) : Prop :=
  ∀ e data, e ∈ es → node_at d e.1 = Some (File data) →
    (∀ n, d !! okey data e.1 = Some n → n = File data)
    ∧ (∀ e' data', e' ∈ es → node_at d e'.1 = Some (File data') →
         okey data' e'.1 = okey data e.1 → data' = data).

(** the staging index as [cmd_add] writes it, for files outside the object
    store: paths are normalised and none is the path of an object *)
Definition working_paths (es : list (string * string)) : Prop :=
  Forall (λ e, Path.normpath e.1 = e.1 ∧ not_object e.1) es.

(** the file entries of the record of a commit of [es] on [d] *)
Definition snapshot_entries (d : disk_t) (es : list (string * string)) : list fentry :=
  omap (λ e, match node_at d e.1 with
             | Some (File data) =>
                 Some (FEntry e.1 (object_name data e.1) (fingerprint data))
             | _ => None
             end) es.

End RoundTripModel.

(** ** Concrete runs *)

Module Demo.

Definition hello : bytes := Json.to_bytes "hello".
Definition hello_sha : string := "aaf4c61ddcc5e8a2dabede0f3b482cd9aea9434d".
Definition id1 : string := "0123456789ab".
Definition ts1 : string := "2025-01-01T00:00:00Z".

(** an empty directory after [init] *)
Definition fresh : disk_t :=
  Eval vm_compute in
  disk (cmd_init (start ∅)).2.

(** ... with a file [a.txt] holding [hello] *)
Definition tracked : disk_t :=
  Eval vm_compute in
  user_write "a.txt" hello fresh.

(** ... after [add a.txt] *)
Definition staged : disk_t :=
  Eval vm_compute in
  disk (cmd_add "a.txt" (start tracked)).2.

(** ... after [commit first] *)
Definition committed : disk_t :=
  Eval vm_compute in
  disk (cmd_commit "first" id1 ts1 (start staged)).2.

(** ... after the working copy is deleted *)
Definition lost : disk_t :=
  Eval vm_compute in
  user_delete "a.txt" committed.

(** ... and a directory is made where the working copy was; then the commit
    is restored *)
Definition shadowed : disk_t :=
  Eval vm_compute in
  user_mkdir "a.txt" lost.
Definition shadowed_restore : res unit * world :=
  cmd_restore id1 (start shadowed).

Definition staged_fields : list (string * json) :=
  [("staged", JList [staged_entry "a.txt" hello_sha])].

(** [a.txt] edited, or deleted, after it was staged *)
Definition edited : disk_t :=
  Eval vm_compute in
  user_write "a.txt" (Json.to_bytes "hello, world") staged.
Definition vanished : disk_t :=
  Eval vm_compute in
  user_delete "a.txt" staged.

(** a second file, both staged and committed; then the working copies and
    the object of the second file are deleted *)
Definition bye : bytes := Json.to_bytes "bye".
Definition bye_sha : string := Eval vm_compute in fingerprint bye.
Definition two_staged : disk_t :=
  Eval vm_compute in
  disk (cmd_add "b.txt" (start (disk (cmd_add "a.txt"
          (start (user_write "b.txt" bye tracked))).2))).2.
Definition two_committed : disk_t :=
  Eval vm_compute in
  disk (cmd_commit "first" id1 ts1 (start two_staged)).2.
Definition partial : disk_t :=
  Eval vm_compute in
  user_delete (".minigit/objects/" +:+ bye_sha +:+ "_b.txt")
    (user_delete "a.txt" (user_delete "b.txt" two_committed)).
Definition two_entries : list fentry :=
  [FEntry "a.txt" (hello_sha +:+ "_a.txt") hello_sha;
   FEntry "b.txt" (bye_sha +:+ "_b.txt") bye_sha].

(** [a.txt] staged while the store already holds other bytes under the name
    of its object *)
Definition evil : bytes := Json.to_bytes "evil".
Definition tampered : disk_t :=
  Eval vm_compute in
  user_write (".minigit/objects/" +:+ hello_sha +:+ "_a.txt") evil staged.
Definition tampered_commit : res unit * world :=
  cmd_commit "first" id1 ts1 (start tampered).
Definition tampered_restore : res unit * world :=
  cmd_restore id1 (start (user_delete "a.txt" (disk tampered_commit.2))).

(** [a.txt] edited, staged and committed again, the second commit drawing
    the id of the first *)
Definition again_staged : disk_t :=
  Eval vm_compute in
  disk (cmd_add "a.txt"
          (start (user_write "a.txt" (Json.to_bytes "hello, world") committed))).2.
Definition again_commit : res unit * world :=
  cmd_commit "second" id1 "2025-01-02T00:00:00Z" (start again_staged).

(** the index file itself staged and committed; later [a.txt] is staged and
    the commit is restored *)
Definition index_committed : disk_t :=
  Eval vm_compute in
  disk (cmd_commit "index" id1 ts1
          (start (disk (cmd_add ".minigit/index.json" (start fresh)).2))).2.
Definition index_later : disk_t :=
  Eval vm_compute in
  disk (cmd_add "a.txt" (start (user_write "a.txt" hello index_committed))).2.
Definition index_restore : res unit * world :=
  cmd_restore id1 (start index_later).

End Demo.

(** ** The index command, and views of init and restore *)

(** [json.dumps(_, indent=2, ensure_ascii=False)] *)
Class JsonDumps : Type := {
  json_dumps : json → string
}.

Section ShowIndex.
Context `{Sha1} `{JsonCodec} `{JsonDumps}.

Definition cmd_show_index : M unit :=
  ensure_repo;;
  index ← read_index;
  print (json_dumps index).

End ShowIndex.

(** the layout of [Json.dumps] with the escapes of [ensure_ascii=False]:
    only the quote, the backslash and the control characters are escaped,
    every other byte of the UTF-8 text is written as it is *)
Module JsonRaw.
Local Open Scope N_scope.

Definition escape_byte (b : N) : string :=
  if (b =? 34) || (b =? 92) || (b <? 32) then Json.escape_cp b
  else String (ascii_of_N b) "".

Definition dump_str (s : string) : string :=
  Json.quote +:+ String.concat "" (map escape_byte (Json.ns_of s)) +:+ Json.quote.

Fixpoint dumps (level : nat) (v : json) : string :=
  match v with
  | JNull => "null"
  | JBool true => "true"
  | JBool false => "false"
  | JNum n => pretty n
  | JStr s => dump_str s
  | JList [] => "[]"
  | JList items =>
      "[" +:+ Json.newline (S level)
      +:+ String.concat ("," +:+ Json.newline (S level)) (map (dumps (S level)) items)
      +:+ Json.newline level +:+ "]"
  | JDict [] => "{}"
  | JDict fields =>
      "{" +:+ Json.newline (S level)
      +:+ String.concat ("," +:+ Json.newline (S level))
            (map (λ kv, dump_str kv.1 +:+ ": " +:+ dumps (S level) kv.2) fields)
      +:+ Json.newline level +:+ "}"
  end.

End JsonRaw.

#[global] Instance json_raw : JsonDumps := {| json_dumps := JsonRaw.dumps 0 |}.

Section InitModel.
Context `{Sha1} `{JsonCodec}.

(** the disk after [os.mkdir] of a key that is not there yet *)
Definition made (d : disk_t) (k : string) : disk_t :=
  match d !! k with
  | None => <[k := Dir]> d
  | Some _ => d
  end.

(** the keys [cmd_init] may create *)
Definition init_dirs : list string :=
  [".minigit"; ".minigit/commits"; ".minigit/objects"].

(** nothing stands in the way of the directories of the repository *)
Definition init_free (d : disk_t) : Prop :=
  ∀ k data, k ∈ init_dirs → d !! k ≠ Some (File data).

(** a computation that, whatever its outcome, keeps every node of the disk *)
Definition grows {A} (m : M A) : Prop :=
  ∀ w r w', m w = (r, w') → disk w ⊆ disk w'.

Definition not_a_repo : exn :=
  SystemExit "No parece un repositorio MiniGit. Ejecuta 'minigit.py init' primero.".

Definition nothing_staged : string :=
  "Nada para commitear. El área de preparación está vacía.".

Definition init_line : string :=
  "Repositorio MiniGit inicializado en ./.minigit".

(** the disk [cmd_init] leaves *)
Definition init_disk (d : disk_t) : disk_t :=
  let d' := foldl made d init_dirs in
  match d' !! INDEX_KEY with
  | None => <[INDEX_KEY := File (json_dump empty_index)]> d'
  | Some _ => d'
  end.

End InitModel.


(** feeding a running digest piece by piece is feeding it the whole *)
Class Sha1Stream `{Sha1} : Prop := {
  sha1_update_nil : ∀ h, sha1_update h [] = h;
  sha1_update_app : ∀ h a b, sha1_update (sha1_update h a) b = sha1_update h (a ++ b)%list
}.

Section RestoreWrites.
Context `{Sha1} `{JsonCodec}.

(** the writes of a restore, in order: the target of every entry whose
    object is stored, with the bytes of the object *)
Definition writes (d : disk_t) (es : list fentry) : list (string * bytes) :=
  omap (λ e, pair (Path.normpath (fpath e)) <$> stored d e) es.

Definition written (d : disk_t) (ws : list (string * bytes)) : disk_t :=
  foldl (λ m kv, <[kv.1 := File kv.2]> m) d ws.

End RestoreWrites.

Section StoreModel.
Context `{Sha1}.

(** every object of the store goes by the fingerprint of its bytes *)
Definition store_named (d : disk_t) : Prop :=
  ∀ name data, d !! object_key name = Some (File data) →
    ∃ base, name = fingerprint data +:+ "_" +:+ base.

End StoreModel.

(** ** More runs *)

Module Runs.

(** a working directory with one file and no repository *)
Definition bare : disk_t :=
  Eval vm_compute in
  user_write "a.txt" Demo.hello ∅.

(** a repository whose index file was removed *)
Definition no_index : disk_t :=
  Eval vm_compute in
  user_delete ".minigit/index.json" Demo.tracked.

(** a repository whose index file does not hold JSON *)
Definition garbage : bytes := Json.to_bytes "not json".
Definition corrupt : disk_t :=
  Eval vm_compute in
  user_write ".minigit/index.json" garbage Demo.tracked.

(** a staging list with a file and then a directory *)
Definition mixed_index : json :=
  JDict [("staged", JList [staged_entry "a.txt" Demo.hello_sha;
                           staged_entry ".minigit/commits" Demo.hello_sha])].
Definition mixed : disk_t :=
  Eval vm_compute in
  user_write ".minigit/index.json" (json_dump mixed_index) Demo.tracked.
Definition mixed_commit : res unit * world :=
  cmd_commit "first" Demo.id1 Demo.ts1 (start mixed).

(** the record of a commit, with a second entry that has no object name *)
Definition a_entry : fentry :=
  FEntry "a.txt" (Demo.hello_sha +:+ "_a.txt") Demo.hello_sha.
Definition bad_fields : list (string * json) :=
  [("id", JStr Demo.id1);
   ("files", JList [fentry_json a_entry; JDict [("path", JStr "b.txt")]])].
Definition bad_raw : bytes := Eval vm_compute in json_dump (JDict bad_fields).
Definition bad_record : disk_t :=
  Eval vm_compute in
  user_write (".minigit/commits/" +:+ Demo.id1 +:+ ".json") bad_raw Demo.lost.

(** a file two directories down, staged and committed; then both
    directories are removed with what they hold *)
Definition deep_tracked : disk_t :=
  Eval vm_compute in
  user_write "sub/dir/a.txt" Demo.hello
    (user_mkdir "sub/dir" (user_mkdir "sub" Demo.fresh)).
Definition deep_committed : disk_t :=
  Eval vm_compute in
  disk (cmd_commit "first" Demo.id1 Demo.ts1
          (start (disk (cmd_add "sub/dir/a.txt" (start deep_tracked)).2))).2.
Definition deep_lost : disk_t :=
  Eval vm_compute in
  user_delete "sub" (user_delete "sub/dir" (user_delete "sub/dir/a.txt" deep_committed)).
Definition deep_dirs : list string := ["sub"; "dir"].
Definition deep_entry : fentry :=
  FEntry (Path.join_comps (deep_dirs ++ ["a.txt"]))
         (Demo.hello_sha +:+ "_a.txt") Demo.hello_sha.

End Runs.

(** ** Facts about paths *)

Section PathFacts.

Lemma split_no_sep s : no_sep s = true → Path.split s = [s].
Proof.
  induction s as [|a r IH]; simpl; [done|].
  intros [Ha Hr]%andb_prop. apply negb_true_iff in Ha. rewrite Ha, (IH Hr). done.
Qed.

Lemma split_nonempty s : Path.split s ≠ [].
Proof. destruct s as [|a r]; simpl; [done|]. destruct (Ascii.eqb a Path.sep); [done|]. by destruct (Path.split r). Qed.

Lemma split_prepend p s :
  no_sep p = true →
  Path.split (p +:+ "/" +:+ s) = p :: Path.split s.
Proof.
  induction p as [|a r IH]; simpl; [done|].
  intros [Ha Hr]%andb_prop. apply negb_true_iff in Ha. rewrite Ha, (IH Hr). done.
Qed.

Lemma no_sep_app s t : no_sep (s +:+ t) = no_sep s && no_sep t.
Proof. induction s as [|a r IH]; simpl; [done|]. by rewrite IH, andb_assoc. Qed.

Lemma no_sep_last_split s : no_sep (List.last (Path.split s) "") = true.
Proof.
  induction s as [|a r IH]; simpl; [done|].
  destruct (Ascii.eqb a Path.sep) eqn:Ha.
  - pose proof (split_nonempty r). destruct (Path.split r); [done|]. exact IH.
  - destruct (Path.split r) as [|h [|h' t]] eqn:Hs; simpl in *; [by rewrite Ha| by rewrite Ha, IH | exact IH].
Qed.

Lemma no_sep_basename p : no_sep (Path.basename p) = true.
Proof. apply no_sep_last_split. Qed.

Lemma append_cons c r s : String c r +:+ s = String c (r +:+ s).
Proof. reflexivity. Qed.
Lemma append_nil s : "" +:+ s = s.
Proof. reflexivity. Qed.
Lemma append_nil_r s : s +:+ "" = s.
Proof. induction s as [|c r IH]; [done|]. by rewrite append_cons, IH. Qed.
Lemma append_assoc s t u : (s +:+ t) +:+ u = s +:+ (t +:+ u).
Proof. induction s as [|c r IH]; [done|]. by rewrite !append_cons, IH. Qed.
Lemma length_append s t : String.length (s +:+ t) = String.length s + String.length t.
Proof. induction s as [|c r IH]; [done|]. rewrite append_cons. simpl. by rewrite IH. Qed.
Lemma append_nonempty a s : a ≠ "" → String.eqb (a +:+ s) "" = false.
Proof. destruct a; [done|]. intros _. done. Qed.

Lemma plain_inv n : plain n = true →
  no_sep n = true ∧ n ≠ "" ∧ n ≠ "." ∧ n ≠ "..".
Proof.
  unfold plain. rewrite !andb_true_iff, !negb_true_iff, !String.eqb_neq. tauto.
Qed.

Lemma plain_not_abs n s : plain n = true → Path.starts_with "/" (n +:+ s) = false.
Proof.
  intros (Hn & Hne & _)%plain_inv. destruct n as [|a r]; [done|].
  cbn [no_sep] in Hn. apply andb_prop in Hn as [Ha _]. apply negb_true_iff in Ha.
  rewrite append_cons. cbn [Path.starts_with]. unfold Path.sep in Ha.
  rewrite Ascii.eqb_sym in Ha. by rewrite Ha.
Qed.

Lemma plain_step init n rest acc :
  plain n = true →
  Path.norm_loop init (n :: rest) acc = Path.norm_loop init rest (n :: acc).
Proof.
  intros (Hn & H1 & H2 & H3)%plain_inv. cbn [Path.norm_loop].
  apply String.eqb_neq in H1, H2, H3. rewrite H1, H2, H3. done.
Qed.

Lemma split_path3 a b n : plain a = true → plain b = true → plain n = true →
  Path.split (path3 a b n) = [a; b; n].
Proof.
  intros (Ha & _)%plain_inv (Hb & _)%plain_inv (Hn & _)%plain_inv.
  unfold path3. rewrite !split_prepend by done. by rewrite split_no_sep.
Qed.

Lemma rstrip_sep_app a s : a ≠ "" → no_sep a = true →
  Path.rstrip_sep (a +:+ s) = a +:+ Path.rstrip_sep s.
Proof.
  induction a as [|c r IH]; [done|]. intros _ [Hc Hr]%andb_prop.
  apply negb_true_iff in Hc.
  destruct r as [|c' r'].
  - rewrite !append_cons, !append_nil. cbn [Path.rstrip_sep].
    destruct (Path.rstrip_sep s); by rewrite ?Hc.
  - specialize (IH ltac:(done) Hr). rewrite append_cons. rewrite (append_cons c).
    cbn [Path.rstrip_sep]. rewrite IH. rewrite append_cons. done.
Qed.

Lemma ends_with_sep_app a s : s ≠ "" →
  Path.ends_with_sep (a +:+ s) = Path.ends_with_sep s.
Proof.
  intros Hs. induction a as [|c r IH]; [done|]. rewrite append_cons.
  cbn [Path.ends_with_sep]. rewrite IH. destruct (r +:+ s) eqn:E; [|done].
  destruct r; [|done]. by rewrite append_nil in E.
Qed.

Lemma ends_with_sep_no_sep s : no_sep s = true → Path.ends_with_sep s = false.
Proof.
  induction s as [|c r IH]; [done|]. intros [Hc Hr]%andb_prop.
  apply negb_true_iff in Hc. cbn [Path.ends_with_sep]. rewrite (IH Hr).
  by destruct r.
Qed.

Lemma path3_facts (a b n : string) :
  plain a = true → plain b = true → plain n = true →
  Path.join (a +:+ "/" +:+ b) n = path3 a b n
  ∧ Path.normpath (path3 a b n) = path3 a b n
  ∧ Path.dirname (path3 a b n) = a +:+ "/" +:+ b
  ∧ Path.basename (path3 a b n) = n.
Proof.
  intros Ha Hb Hn.
  pose proof (plain_inv _ Ha) as (Ha0 & Ha1 & Ha2 & Ha3).
  pose proof (plain_inv _ Hb) as (Hb0 & Hb1 & Hb2 & Hb3).
  pose proof (plain_inv _ Hn) as (Hn0 & Hn1 & Hn2 & Hn3).
  split_and!.
  - unfold Path.join. rewrite <-(append_nil_r n) at 1.
    rewrite (plain_not_abs n "" Hn), append_nonempty by done.
    change (a +:+ "/" +:+ b) with (a +:+ String "/" b).
    rewrite ends_with_sep_app by done.
    change (String "/" b) with ("/" +:+ b).
    rewrite ends_with_sep_app, ends_with_sep_no_sep by done.
    cbn [orb]. unfold path3. by rewrite !append_assoc.
  - unfold Path.normpath.
    unfold Path.initial_slashes.
    rewrite split_path3 by done. rewrite !plain_step by done.
    cbn [Path.norm_loop rev app Path.join_comps].
    unfold path3. rewrite (plain_not_abs a _ Ha). cbn [Path.slashes].
    rewrite append_nil. rewrite !append_nonempty by done. done.
  - unfold Path.dirname. rewrite split_path3 by done.
    cbn [removelast Path.join_comps].
    rewrite !append_assoc. rewrite rstrip_sep_app by done.
    change ("/" +:+ b +:+ "/") with (String "/" (b +:+ "/")).
    cbn [Path.rstrip_sep]. rewrite rstrip_sep_app by done.
    change (Path.rstrip_sep "/") with "". rewrite append_nil_r.
    destruct b as [|c r]; [done|]. destruct a as [|c' r']; [done|].
    by rewrite !append_cons.
  - unfold Path.basename. by rewrite split_path3.
Qed.

Lemma eqb_length_ne s t :
  String.length s ≠ String.length t → String.eqb s t = false.
Proof. intros Hl. apply String.eqb_neq. by intros ->. Qed.

Lemma length_pos s : s ≠ "" → 0 < String.length s.
Proof. destruct s; [done|]. simpl. lia. Qed.

Lemma is_top_path3 a b n : plain a = true → plain b = true → plain n = true →
  is_top (path3 a b n) = false.
Proof.
  intros Ha Hb Hn. unfold is_top. rewrite split_path3 by done.
  pose proof (plain_inv _ Ha) as (Ha0 & Ha1 & Ha2 & Ha3).
  pose proof (plain_inv _ Hb) as (Hb0 & Hb1 & Hb2 & Hb3).
  cbn [forallb]. apply not_eq_sym, String.eqb_neq in Ha3. rewrite Ha3.
  assert (Hlen : 3 ≤ String.length (path3 a b n)).
  { unfold path3. rewrite !length_append.
    pose proof (length_pos _ Ha1). pose proof (length_pos _ Hb1). simpl. lia. }
  rewrite !eqb_length_ne by (cbn [String.length]; lia). done.
Qed.

Lemma split_all_no_sep s : Forall (λ c, no_sep c = true) (Path.split s).
Proof.
  induction s as [|a r IH]; simpl; [by repeat constructor|].
  destruct (Ascii.eqb a Path.sep) eqn:Ha; [by constructor|].
  destruct (Path.split r) as [|h t]; [by repeat constructor; simpl; rewrite Ha|].
  inversion IH; subst. constructor; [|done]. simpl. by rewrite Ha.
Qed.

Lemma plain_intro c :
  no_sep c = true → (c =? "")%string = false → (c =? ".")%string = false →
  (c =? "..")%string = false → plain c = true.
Proof. intros H0 H1 H2 H3. unfold plain. by rewrite H0, H1, H2, H3. Qed.

Lemma clean_nil init : clean init [].
Proof. exists [], []. by split_and!. Qed.

Lemma clean_dotdot_prefix init l1 l2 :
  clean init (l1 ++ ".." :: l2) → Forall (λ c, c = "..") l1 ∧ init = 0.
Proof.
  intros (dots & rest & E & Hdots & Hrest & Hinit).
  apply app_eq_inv in E as [(k & -> & ->)|(k & -> & E)].
  - apply Forall_app in Hrest as [_ Hr]. by inversion Hr.
  - apply Forall_app in Hdots as [Hl1 Hk]. split; [done|].
    destruct (decide (init = 0)) as [|Hne]; [done|].
    apply Hinit, app_eq_nil in Hne as [_ ->]. simpl in E. subst rest.
    by inversion Hrest.
Qed.

Lemma clean_snoc_plain init l c :
  plain c = true → clean init l → clean init (l ++ [c]).
Proof.
  intros Hc (dots & rest & -> & Hdots & Hrest & Hinit).
  exists dots, (rest ++ [c]). rewrite app_assoc. split_and!; [done|done| |done].
  apply Forall_app. split; [done|]. by repeat constructor.
Qed.

Lemma clean_snoc_dotdot init l :
  init = 0 → Forall (λ c, c = "..") l → clean init (l ++ [".."]).
Proof.
  intros Hi Hl. exists (l ++ [".."]), []. rewrite app_nil_r. split_and!; [done| |done|lia].
  apply Forall_app. split; [done|]. by repeat constructor.
Qed.

Lemma clean_unsnoc init l c : clean init (l ++ [c]) → clean init l.
Proof.
  intros (dots & rest & E & Hdots & Hrest & Hinit).
  destruct rest as [|r rest' _] using rev_ind.
  - rewrite app_nil_r in E. subst dots. apply Forall_app in Hdots as [Hl _].
    exists l, []. rewrite app_nil_r. split_and!; [done|done|done|].
    intros Hne. apply Hinit in Hne. by destruct l.
  - rewrite app_assoc in E. apply app_inj_tail in E as [-> _].
    apply Forall_app in Hrest as [Hr _]. by exists dots, rest'.
Qed.

Lemma norm_loop_clean init comps acc :
  Forall (λ c, no_sep c = true) comps →
  clean init (rev acc) → clean init (Path.norm_loop init comps acc).
Proof.
  revert acc. induction comps as [|c comps IH]; intros acc Hns Hacc; [done|].
  inversion Hns as [|?? Hc Hns']; subst. cbn [Path.norm_loop].
  destruct (c =? "")%string eqn:E1; [by apply IH|].
  destruct (c =? ".")%string eqn:E2; [by apply IH|]. cbn [orb].
  destruct (c =? "..")%string eqn:E3; cbn [negb orb].
  - apply String.eqb_eq in E3 as ->.
    destruct acc as [|a acc'].
    + destruct (Nat.eqb init 0) eqn:Ei; cbn [andb orb]; apply IH; try done.
      apply Nat.eqb_eq in Ei. by apply (clean_snoc_dotdot init []).
    + rewrite andb_false_r. cbn [orb].
      destruct (a =? "..")%string eqn:Ea.
      * apply String.eqb_eq in Ea as ->. apply IH; [done|].
        cbn [rev] in *. destruct (clean_dotdot_prefix _ _ _ Hacc) as [Hl Hi].
        apply clean_snoc_dotdot; [done|]. apply Forall_app. split; [done|by repeat constructor].
      * apply IH; [done|]. cbn [rev] in Hacc. by apply clean_unsnoc in Hacc.
  - apply IH; [done|]. cbn [rev]. apply clean_snoc_plain; [|done]. by apply plain_intro.
Qed.

Lemma clean_head init c l : clean init (c :: l) → c = ".." ∨ plain c = true.
Proof.
  intros (dots & rest & E & Hdots & Hrest & _).
  destruct dots as [|d dots']; simpl in E; subst.
  - right. by inversion Hrest.
  - left. injection E as -> _. by inversion Hdots.
Qed.

Lemma clean_mid init l1 c l2 : clean init (l1 ++ c :: l2) → c = ".." ∨ plain c = true.
Proof.
  intros (dots & rest & E & Hdots & Hrest & _).
  assert (c ∈ dots ++ rest) as [Hin|Hin]%elem_of_app by (rewrite <-E; set_solver).
  - left. by eapply Forall_forall in Hdots.
  - right. by eapply Forall_forall in Hrest.
Qed.

Lemma norm_loop_fix init comps acc :
  clean init (rev acc ++ comps) → Path.norm_loop init comps acc = rev acc ++ comps.
Proof.
  revert acc. induction comps as [|c comps IH]; intros acc Hc.
  { by rewrite app_nil_r. }
  assert (Path.norm_loop init (c :: comps) acc = Path.norm_loop init comps (c :: acc)) as ->.
  { destruct (clean_mid _ _ _ _ Hc) as [-> | Hp]; [|by apply plain_step].
    destruct (clean_dotdot_prefix _ _ _ Hc) as [Hl ->].
    cbn [Path.norm_loop String.eqb Ascii.eqb Bool.eqb orb negb andb Nat.eqb].
    destruct acc as [|a acc']; [done|]. cbn [rev] in Hl.
    apply Forall_app in Hl as [_ Ha]. inversion Ha; subst. done. }
  rewrite IH; cbn [rev]; by rewrite <-app_assoc.
Qed.

Lemma clean_no_sep init l : clean init l → Forall (λ c, no_sep c = true ∧ c ≠ "") l.
Proof.
  intros (dots & rest & -> & Hdots & Hrest & _). apply Forall_app. split.
  - eapply Forall_impl; [exact Hdots|]. by intros c ->.
  - eapply Forall_impl; [exact Hrest|]. intros c Hc. apply plain_inv in Hc. tauto.
Qed.

Lemma split_join comps :
  comps ≠ [] → Forall (λ c, no_sep c = true ∧ c ≠ "") comps →
  Path.split (Path.join_comps comps) = comps.
Proof.
  induction comps as [|c [|c' rest] IH]; intros Hne Hall; [done|..].
  - inversion Hall as [|?? [Hc _] _]; subst. by apply split_no_sep.
  - inversion Hall as [|?? [Hc _] Hall']; subst.
    change (Path.join_comps (c :: c' :: rest))
      with (c +:+ "/" +:+ Path.join_comps (c' :: rest)).
    rewrite split_prepend by done. by rewrite IH.
Qed.

Lemma no_sep_not_abs c s :
  no_sep c = true → c ≠ "" → Path.starts_with "/" (c +:+ s) = false.
Proof.
  intros Hn Hne. destruct c as [|a r]; [done|].
  cbn [no_sep] in Hn. apply andb_prop in Hn as [Ha _]. apply negb_true_iff in Ha.
  rewrite append_cons. cbn [Path.starts_with]. unfold Path.sep in Ha.
  rewrite Ascii.eqb_sym in Ha. by rewrite Ha.
Qed.

Lemma join_not_abs comps :
  Forall (λ c, no_sep c = true ∧ c ≠ "") comps →
  Path.starts_with "/" (Path.join_comps comps) = false.
Proof.
  destruct comps as [|c [|c' rest]]; intros Hall; [done|..];
    inversion Hall as [|?? [Hc Hne] _]; subst.
  - cbn [Path.join_comps]. rewrite <-(append_nil_r c). by apply no_sep_not_abs.
  - change (Path.join_comps (c :: c' :: rest))
      with (c +:+ "/" +:+ Path.join_comps (c' :: rest)).
    by apply no_sep_not_abs.
Qed.

Lemma norm_loop_skip_empty init comps acc :
  Path.norm_loop init ("" :: comps) acc = Path.norm_loop init comps acc.
Proof. reflexivity. Qed.

Lemma initial_slashes_cases p :
  Path.initial_slashes p = 0 ∨ Path.initial_slashes p = 1 ∨ Path.initial_slashes p = 2.
Proof.
  unfold Path.initial_slashes. destruct (Path.starts_with "/" p); [|by left].
  destruct (_ && _); auto.
Qed.

(** what [normpath] computes for a non-empty path *)
Lemma normpath_comps p :
  p ≠ "" →
  ∃ comps, clean (Path.initial_slashes p) comps
    ∧ Path.normpath p
      = let r := Path.slashes (Path.initial_slashes p) +:+ Path.join_comps comps in
        if (r =? "")%string then "." else r.
Proof.
  intros Hp. exists (Path.norm_loop (Path.initial_slashes p) (Path.split p) []).
  split.
  - apply norm_loop_clean; [apply split_all_no_sep|apply clean_nil].
  - unfold Path.normpath. apply String.eqb_neq in Hp. by rewrite Hp.
Qed.

Lemma normpath_of_clean init comps :
  init = 0 ∨ init = 1 ∨ init = 2 →
  clean init comps →
  Path.slashes init +:+ Path.join_comps comps ≠ "" →
  Path.normpath (Path.slashes init +:+ Path.join_comps comps)
  = Path.slashes init +:+ Path.join_comps comps.
Proof.
  intros Hinit Hc Hne. pose proof (clean_no_sep _ _ Hc) as Hns.
  pose proof (join_not_abs _ Hns) as Habs.
  set (j := Path.join_comps comps) in *.
  assert (Hj : Path.norm_loop init (Path.split j) [] = comps).
  { destruct comps as [|c rest] eqn:Ec; [done|]. subst j.
    rewrite split_join by done. by apply (norm_loop_fix init (c :: rest) []). }
  unfold Path.normpath. apply String.eqb_neq in Hne. rewrite Hne.
  assert (Hi : Path.initial_slashes (Path.slashes init +:+ j) = init).
  { unfold Path.initial_slashes.
    destruct Hinit as [-> | [-> | ->]]; cbn [Path.slashes]; rewrite ?append_cons, ?append_nil.
    - by rewrite Habs.
    - unfold Path.sep.
      change (Path.starts_with "/" (String "/" j)) with true.
      change (Path.starts_with "//" (String "/" j)) with (Path.starts_with "/" j).
      by rewrite Habs.
    - unfold Path.sep.
      change (Path.starts_with "/" (String "/" (String "/" j))) with true.
      change (Path.starts_with "//" (String "/" (String "/" j))) with true.
      change (Path.starts_with "///" (String "/" (String "/" j)))
        with (Path.starts_with "/" j).
      by rewrite Habs. }
  rewrite Hi.
  assert (Hs : Path.norm_loop init (Path.split (Path.slashes init +:+ j)) [] = comps).
  { destruct Hinit as [-> | [-> | ->]]; cbn [Path.slashes]; rewrite ?append_cons, ?append_nil;
      unfold Path.sep; cbn [Path.split Ascii.eqb Bool.eqb]; by rewrite ?norm_loop_skip_empty. }
  rewrite Hs. fold j. by rewrite Hne.
Qed.

Lemma normpath_idem p : Path.normpath (Path.normpath p) = Path.normpath p.
Proof.
  destruct (decide (p = "")) as [->|Hp]; [done|].
  destruct (normpath_comps p Hp) as (comps & Hc & ->). cbv zeta.
  destruct (_ =? "")%string eqn:E; [done|].
  apply normpath_of_clean; [|done|by apply String.eqb_neq].
  pose proof (initial_slashes_cases p). tauto.
Qed.

End PathFacts.

(** ** Facts about running the program *)

Section RunFacts.
Context `{HS : Sha1} `{HX : !Sha1Hex} `{HJ : JsonCodec}.

Lemma underscore_plain a c : no_sep a = true → no_sep c = true →
  plain (a +:+ "_" +:+ c) = true.
Proof.
  intros Ha Hc. apply plain_intro.
  - rewrite !no_sep_app, Ha, Hc. done.
  - by destruct a.
  - destruct a as [|x [|y a']]; rewrite ?append_cons, ?append_nil;
      cbn [String.eqb]; rewrite ?andb_false_r; try reflexivity.
    all: by destruct (Ascii.eqb x ".").
  - destruct a as [|x [|y [|z a']]]; rewrite ?append_cons, ?append_nil;
      cbn [String.eqb]; try reflexivity.
    + by destruct (Ascii.eqb x ".").
    + by destruct (Ascii.eqb x "."), (Ascii.eqb y ".").
    + by destruct (Ascii.eqb x "."), (Ascii.eqb y ".").
Qed.

Lemma object_name_plain data p : plain (object_name data p) = true.
Proof.
  unfold object_name, fingerprint. apply underscore_plain.
  - apply hexdigest_no_sep.
  - apply no_sep_basename.
Qed.

Lemma object_key_facts name :
  plain name = true →
  Path.join OBJECTS_DIR name = object_key name
  ∧ Path.normpath (object_key name) = object_key name
  ∧ Path.dirname (object_key name) = ".minigit/objects"
  ∧ Path.basename (object_key name) = name
  ∧ is_top (object_key name) = false.
Proof.
  intros Hn.
  destruct (path3_facts ".minigit" "objects" name) as (H1 & H2 & H3 & H4); [done..|].
  pose proof (is_top_path3 ".minigit" "objects" name) as H5.
  split_and!; [exact H1|exact H2|exact H3|exact H4|by apply H5].
Qed.

Lemma commit_key_facts commit_id :
  plain (commit_id +:+ ".json") = true →
  commit_path commit_id = commit_key commit_id
  ∧ Path.normpath (commit_key commit_id) = commit_key commit_id
  ∧ Path.dirname (commit_key commit_id) = ".minigit/commits"
  ∧ is_top (commit_key commit_id) = false.
Proof.
  intros Hn.
  destruct (path3_facts ".minigit" "commits" (commit_id +:+ ".json")) as (H1 & H2 & H3 & H4); [done..|].
  pose proof (is_top_path3 ".minigit" "commits" (commit_id +:+ ".json")) as H5.
  split_and!; [exact H1|exact H2|exact H3|by apply H5].
Qed.

Lemma bind_eq {A B} (m : M A) (k : A → M B) w :
  (m ≫= k) w = match m w with
               | (Ok a, w') => k a w'
               | (Raise e, w') => (Raise e, w')
               end.
Proof. reflexivity. Qed.

Lemma exists_eq p w :
  os_path_exists p w = (Ok (bool_decide (is_Some (node_at (disk w) p))), w).
Proof. reflexivity. Qed.

Lemma exists_true p w n :
  node_at (disk w) p = Some n → os_path_exists p w = (Ok true, w).
Proof. intros E. rewrite exists_eq, E. by rewrite bool_decide_eq_true_2. Qed.

Lemma exists_false p w :
  node_at (disk w) p = None → os_path_exists p w = (Ok false, w).
Proof.
  intros E. rewrite exists_eq, E. rewrite bool_decide_eq_false_2; [done|].
  by intros [? ?].
Qed.

Lemma isdir_eq p w :
  os_path_isdir p w
  = (Ok (match node_at (disk w) p with Some Dir => true | _ => false end), w).
Proof. reflexivity. Qed.

Lemma read_file_eq p w :
  read_file p w = (match node_at (disk w) p with
                   | None => Raise (FileNotFoundError p)
                   | Some Dir => Raise (IsADirectoryError p)
                   | Some (File data) => Ok data
                   end, w).
Proof.
  unfold read_file. rewrite bind_eq. change (get_disk w) with (Ok (disk w), w).
  cbv beta iota. by destruct (node_at (disk w) p) as [[|data]|].
Qed.

Lemma write_file_ok p data w :
  p ≠ "" →
  key_node (disk w) (Path.normpath p) ≠ Some Dir →
  Path.dirname (Path.normpath p) = ""
  ∨ node_at (disk w) (Path.dirname (Path.normpath p)) = Some Dir →
  write_file p data w
  = (Ok tt, mutated w (<[Path.normpath p := File data]> (disk w))).
Proof.
  intros Hp Hk Hpar. unfold write_file. rewrite bind_eq.
  change (get_disk w) with (Ok (disk w), w). cbv beta iota zeta.
  apply String.eqb_neq in Hp. rewrite Hp.
  destruct (key_node (disk w) (Path.normpath p)) as [[|old]|] eqn:Ek; [done|..].
  all: destruct Hpar as [-> | Hd]; [done|].
  all: rewrite Hd; by destruct (Path.dirname (Path.normpath p) =? "")%string.
Qed.

Lemma read_index_eq w : read_index w = (load_index (disk w), w).
Proof.
  unfold read_index, load_index. rewrite bind_eq.
  destruct (node_at (disk w) INDEX_FILE) as [[|data]|] eqn:E.
  - rewrite (exists_true _ _ _ E). rewrite bind_eq, read_file_eq, E. done.
  - rewrite (exists_true _ _ _ E). rewrite bind_eq, read_file_eq, E.
    by destruct (json_load data).
  - rewrite (exists_false _ _ E). done.
Qed.

Lemma ensure_repo_ok w :
  node_at (disk w) MINIGIT_DIR = Some Dir → ensure_repo w = (Ok tt, w).
Proof. intros E. unfold ensure_repo. rewrite bind_eq, isdir_eq, E. done. Qed.

Lemma hash_file_bytes_eq p w data :
  node_at (disk w) p = Some (File data) →
  hash_file_bytes p w = (Ok (fingerprint data), w).
Proof. intros E. unfold hash_file_bytes. by rewrite bind_eq, read_file_eq, E. Qed.

Lemma node_at_key d k :
  Path.normpath k = k → is_top k = false → node_at d k = d !! k.
Proof.
  intros Hk Ht. unfold node_at, key_node. rewrite Hk, Ht.
  destruct (String.eqb_spec k "") as [->|_]; [discriminate Hk|done].
Qed.

Lemma node_at_some d p n :
  node_at d p = Some n → p ≠ "" ∧ key_node d (Path.normpath p) = Some n.
Proof.
  unfold node_at. destruct (String.eqb_spec p "") as [->|Hp]; [done|]. by split.
Qed.

Lemma node_at_nonempty d p :
  p ≠ "" → node_at d p = key_node d (Path.normpath p).
Proof. intros Hp%String.eqb_neq. unfold node_at. by rewrite Hp. Qed.

Lemma node_at_file_lookup d p data :
  node_at d p = Some (File data) → d !! Path.normpath p = Some (File data).
Proof.
  intros [_ Hk]%node_at_some. unfold key_node in Hk. by destruct (is_top _).
Qed.

Lemma node_at_okey d data p : node_at d (okey data p) = d !! okey data p.
Proof.
  destruct (object_key_facts _ (object_name_plain data p)) as (_ & H2 & _ & _ & H5).
  by apply node_at_key.
Qed.

Lemma commit_loop_skip e rest acc w :
  node_at (disk w) e.1 = None →
  commit_loop (entry_json e :: rest) acc w
  = commit_loop rest acc (printed w (warning e.1)).
Proof.
  intros E. cbn [commit_loop]. rewrite bind_eq.
  change (lift _ w) with (Ok e.1 : res string, w). cbv beta iota.
  rewrite bind_eq, (exists_false _ _ E). cbv beta iota. rewrite bind_eq. done.
Qed.

Lemma commit_loop_keep e rest acc w data :
  node_at (disk w) e.1 = Some (File data) →
  is_Some (disk w !! okey data e.1) →
  commit_loop (entry_json e :: rest) acc w
  = commit_loop rest (acc ++ [recorded data e.1]) w.
Proof.
  intros E [n Ho]. cbn [commit_loop]. rewrite bind_eq.
  change (lift _ w) with (Ok e.1 : res string, w). cbv beta iota.
  rewrite bind_eq, (exists_true _ _ _ E). cbv beta iota.
  rewrite bind_eq, (hash_file_bytes_eq _ _ _ E). cbv beta iota zeta.
  destruct (object_key_facts _ (object_name_plain data e.1)) as (Hj & _).
  fold (object_name data e.1). rewrite Hj. fold (okey data e.1).
  rewrite bind_eq. rewrite (exists_true _ _ n) by (by rewrite node_at_okey).
  cbv beta iota. rewrite bind_eq. done.
Qed.

Lemma commit_loop_store e rest acc w data :
  node_at (disk w) e.1 = Some (File data) →
  disk w !! okey data e.1 = None →
  node_at (disk w) OBJECTS_DIR = Some Dir →
  commit_loop (entry_json e :: rest) acc w
  = commit_loop rest (acc ++ [recorded data e.1])
      (mutated w (<[okey data e.1 := File data]> (disk w))).
Proof.
  intros E Ho Hdir. cbn [commit_loop]. rewrite bind_eq.
  change (lift _ w) with (Ok e.1 : res string, w). cbv beta iota.
  rewrite bind_eq, (exists_true _ _ _ E). cbv beta iota.
  rewrite bind_eq, (hash_file_bytes_eq _ _ _ E). cbv beta iota zeta.
  destruct (object_key_facts _ (object_name_plain data e.1)) as (Hj & Hn & Hd & _ & Ht).
  fold (object_name data e.1). rewrite Hj. fold (okey data e.1) in *.
  rewrite bind_eq. rewrite exists_false by (by rewrite node_at_okey).
  cbv beta iota. rewrite bind_eq.
  assert (shutil_copy2 e.1 (okey data e.1) w
          = (Ok tt, mutated w (<[okey data e.1 := File data]> (disk w)))) as ->; [|done].
  unfold shutil_copy2. rewrite bind_eq, isdir_eq, node_at_okey, Ho. cbv beta iota.
  rewrite bind_eq. change (get_disk w) with (Ok (disk w), w). cbv beta iota.
  rewrite E. rewrite (bool_decide_eq_false_2 (Path.normpath e.1 = _)).
  2:{ intros Heq. apply node_at_file_lookup in E. rewrite Heq, Hn in E. congruence. }
  cbn [andb]. rewrite bind_eq, read_file_eq, E. cbv beta iota.
  rewrite write_file_ok; rewrite ?Hn.
  - done.
  - intros Heq. apply (f_equal String.length) in Heq. unfold okey, object_key in Heq.
    rewrite length_append in Heq. simpl in Heq. lia.
  - unfold key_node. by rewrite Ht, Ho.
  - right. by rewrite Hd.
Qed.

Lemma okey_not_objects_dir data p : okey data p ≠ ".minigit/objects".
Proof. unfold okey, object_key. intros E. apply (f_equal String.length) in E.
  rewrite length_append in E. simpl in E. lia. Qed.

Lemma node_at_insert_new d k n q :
  d !! k = None → node_at d q = Some Dir → node_at (<[k := n]> d) q = Some Dir.
Proof.
  unfold node_at, key_node. intros Hk. destruct (String.eqb q ""); [done|].
  destruct (is_top _); [done|].
  intros Hq. rewrite lookup_insert_ne; [done|]. intros ->. congruence.
Qed.

Lemma node_at_insert_file d k data q :
  node_at d q ≠ Some Dir → node_at (<[k := File data]> d) q ≠ Some Dir.
Proof.
  unfold node_at, key_node. destruct (String.eqb q ""); [done|].
  destruct (is_top _); [done|].
  intros Hq. destruct (decide (k = Path.normpath q)) as [->|Hne].
  - by rewrite lookup_insert_eq.
  - by rewrite lookup_insert_ne.
Qed.

Lemma step_disk_dir d e q :
  node_at d q = Some Dir → node_at (step_disk d e) q = Some Dir.
Proof.
  intros Hq. unfold step_disk. destruct (node_at d e.1) as [[|data]|]; try done.
  destruct (d !! okey data e.1) eqn:Ho; [done|]. by apply node_at_insert_new.
Qed.

Lemma step_disk_no_dirs d e es : no_dirs d es → no_dirs (step_disk d e) es.
Proof.
  unfold no_dirs. intros Hf. eapply Forall_impl; [exact Hf|]. intros x Hx. cbv beta in *.
  unfold step_disk. destruct (node_at d e.1) as [[|data]|]; try done.
  destruct (d !! okey data e.1); [done|]. by apply node_at_insert_file.
Qed.

Lemma commit_loop_run es : ∀ acc w,
  node_at (disk w) OBJECTS_DIR = Some Dir →
  no_dirs (disk w) es →
  commit_loop (map entry_json es) acc w
  = (Ok (acc ++ loop_files (disk w) es),
     World (loop_disk (disk w) es) (out w ++ loop_out (disk w) es)
           (hist w ++ loop_hist (disk w) es)).
Proof.
  induction es as [|e rest IH]; intros acc w Hobj Hnd.
  { destruct w. cbn. by rewrite !app_nil_r. }
  inversion Hnd as [|?? He Hrest]; subst.
  pose proof (step_disk_dir (disk w) e _ Hobj) as Hobj'.
  pose proof (step_disk_no_dirs (disk w) e _ Hrest) as Hrest'.
  cbn [map loop_files loop_out loop_hist loop_disk foldl]. fold (loop_disk (step_disk (disk w) e) rest).
  unfold step_disk in Hobj', Hrest' |- *.
  destruct (node_at (disk w) e.1) as [[|data]|] eqn:E; [done|..].
  - destruct (disk w !! okey data e.1) as [n|] eqn:Ho.
    + rewrite (commit_loop_keep _ _ _ _ data) by done.
      rewrite IH by done. by rewrite <-app_assoc.
    + rewrite (commit_loop_store _ _ _ _ data) by done.
      rewrite IH by done. cbn [mutated disk out hist]. by rewrite <-!app_assoc.
  - rewrite commit_loop_skip by done. rewrite IH by done.
    cbn [printed disk out hist]. by rewrite <-!app_assoc.
Qed.

Lemma okey_is_object data p : ¬ not_object (okey data p).
Proof. intros Hn. by apply (Hn (object_name data p)). Qed.

Lemma node_at_mono (d d' : disk_t) q n :
  d ⊆ d' → node_at d q = Some n → node_at d' q = Some n.
Proof.
  unfold node_at, key_node. intros Hsub. destruct (String.eqb q ""); [done|].
  destruct (is_top _); [done|].
  intros Hq. by eapply lookup_weaken.
Qed.

Lemma node_at_agree (d d' : disk_t) q :
  d' !! Path.normpath q = d !! Path.normpath q → node_at d' q = node_at d q.
Proof. unfold node_at, key_node. by intros ->. Qed.

Lemma step_disk_mono d e : d ⊆ step_disk d e.
Proof.
  unfold step_disk. destruct (node_at d e.1) as [[|data]|]; try done.
  destruct (d !! okey data e.1) eqn:Ho; [done|]. by apply insert_subseteq.
Qed.

Lemma loop_disk_mono es : ∀ d, d ⊆ loop_disk d es.
Proof.
  induction es as [|e rest IH]; intros d; [done|]. cbn.
  etrans; [apply step_disk_mono|apply IH].
Qed.

Lemma step_disk_frame d e k : not_object k → step_disk d e !! k = d !! k.
Proof.
  intros Hk. unfold step_disk. destruct (node_at d e.1) as [[|data]|]; try done.
  destruct (d !! okey data e.1) eqn:Ho; [done|].
  apply lookup_insert_ne. intros <-. by apply okey_is_object in Hk.
Qed.

Lemma loop_disk_frame es : ∀ d k, not_object k → loop_disk d es !! k = d !! k.
Proof.
  induction es as [|e rest IH]; intros d k Hk; [done|]. cbn.
  fold (loop_disk (step_disk d e) rest). by rewrite IH, step_disk_frame.
Qed.

Lemma loop_disk_app d es1 es2 :
  loop_disk d (es1 ++ es2) = loop_disk (loop_disk d es1) es2.
Proof. apply foldl_app. Qed.

(** every disk the loop goes through is the loop's disk after a prefix of
    the entries *)
Lemma loop_hist_prefix es : ∀ d s,
  s ∈ loop_hist d es → ∃ es1 es2, es = es1 ++ es2 ∧ s = loop_disk d es1.
Proof.
  induction es as [|e rest IH]; intros d s Hs; [by apply elem_of_nil in Hs|].
  assert (s = step_disk d e ∨ s ∈ loop_hist (step_disk d e) rest) as [->|Hin].
  { cbn [loop_hist] in Hs. destruct (node_at d e.1) as [[|data]|]; auto.
    destruct (d !! okey data e.1); auto. by apply elem_of_cons in Hs. }
  - by exists [e], rest.
  - destruct (IH _ _ Hin) as (es1 & es2 & -> & ->). by exists (e :: es1), es2.
Qed.

Lemma snapshot_cons d e rest :
  snapshot d (e :: rest)
  = match node_at d e.1 with
    | Some (File data) => recorded data e.1 :: snapshot d rest
    | _ => snapshot d rest
    end.
Proof. unfold snapshot. cbn [omap list_omap]. by destruct (node_at d e.1) as [[|data]|]. Qed.

Lemma warnings_cons d e rest :
  warnings d (e :: rest)
  = match node_at d e.1 with
    | None => warning e.1 :: warnings d rest
    | _ => warnings d rest
    end.
Proof. unfold warnings. cbn [omap list_omap]. by destruct (node_at d e.1) as [[|data]|]. Qed.

Lemma step_disk_same d e q :
  (node_at d q = None → not_object (Path.normpath q)) →
  node_at (step_disk d e) q = node_at d q.
Proof.
  intros Hq. destruct (node_at d q) as [n|] eqn:E.
  - eapply node_at_mono; [apply step_disk_mono|done].
  - rewrite <-E. apply node_at_agree. apply step_disk_frame. by apply Hq.
Qed.

Lemma step_disk_settled d e es : settled d es → settled (step_disk d e) es.
Proof.
  intros Hs. eapply Forall_impl; [exact Hs|]. intros q Hq Hnone. cbv beta in *.
  apply Hq. by rewrite step_disk_same in Hnone.
Qed.

Lemma snapshot_step d e es :
  settled d es → snapshot (step_disk d e) es = snapshot d es.
Proof.
  intros Hs. induction Hs as [|q rest Hq Hrest IH]; [done|].
  by rewrite !snapshot_cons, step_disk_same, IH.
Qed.

Lemma warnings_step d e es :
  settled d es → warnings (step_disk d e) es = warnings d es.
Proof.
  intros Hs. induction Hs as [|q rest Hq Hrest IH]; [done|].
  by rewrite !warnings_cons, step_disk_same, IH.
Qed.

Lemma loop_files_settled es : ∀ d,
  settled d es → loop_files d es = snapshot d es.
Proof.
  induction es as [|e rest IH]; intros d Hs; [done|].
  inversion Hs as [|?? He Hrest]; subst.
  cbn [loop_files]. rewrite IH by (by apply step_disk_settled).
  rewrite snapshot_step by done. rewrite snapshot_cons.
  by destruct (node_at d e.1) as [[|data]|].
Qed.

Lemma loop_out_settled es : ∀ d,
  settled d es → loop_out d es = warnings d es.
Proof.
  induction es as [|e rest IH]; intros d Hs; [done|].
  inversion Hs as [|?? He Hrest]; subst.
  cbn [loop_out]. rewrite IH by (by apply step_disk_settled).
  rewrite warnings_step by done. rewrite warnings_cons.
  by destruct (node_at d e.1) as [[|data]|].
Qed.

Lemma index_key_facts :
  Path.normpath INDEX_FILE = INDEX_KEY
  ∧ Path.dirname INDEX_KEY = ".minigit"
  ∧ is_top INDEX_KEY = false
  ∧ Path.normpath INDEX_KEY = INDEX_KEY.
Proof. by vm_compute. Qed.

Lemma index_not_object : not_object INDEX_KEY.
Proof.
  intros name E. unfold INDEX_KEY, object_key in E.
  change ".minigit/index.json" with (".minigit/" +:+ "index.json") in E.
  change (".minigit/objects/" +:+ name) with (".minigit/" +:+ ("objects/" +:+ name)) in E.
  apply String.app_inj in E. change ("objects/" +:+ name) with (String "o" ("bjects/" +:+ name)) in E.
  discriminate.
Qed.

Lemma commit_not_object commit_id : not_object (commit_key commit_id).
Proof.
  intros name E. unfold commit_key, object_key in E.
  change (".minigit/commits/" +:+ commit_id +:+ ".json")
    with (".minigit/" +:+ String "c" ("ommits/" +:+ commit_id +:+ ".json")) in E.
  change (".minigit/objects/" +:+ name)
    with (".minigit/" +:+ String "o" ("bjects/" +:+ name)) in E.
  apply String.app_inj in E. discriminate.
Qed.

Lemma commit_not_index commit_id : commit_key commit_id ≠ INDEX_KEY.
Proof.
  unfold commit_key, INDEX_KEY.
  change (".minigit/commits/" +:+ commit_id +:+ ".json")
    with (".minigit/" +:+ String "c" ("ommits/" +:+ commit_id +:+ ".json")).
  change ".minigit/index.json" with (".minigit/" +:+ "index.json").
  intros E. apply String.app_inj in E. discriminate.
Qed.

Lemma node_at_insert_ne (d : disk_t) k n q :
  k ≠ Path.normpath q → node_at (<[k := n]> d) q = node_at d q.
Proof. intros Hk. apply node_at_agree. by apply lookup_insert_ne. Qed.

Lemma commit_not_root commit_id : commit_key commit_id ≠ Path.normpath MINIGIT_DIR.
Proof.
  intros E. apply (f_equal String.length) in E. unfold commit_key in E.
  rewrite length_append in E. vm_compute in E. lia.
Qed.

Lemma staging_index_not_dir d fields es :
  staging d fields es → d !! INDEX_KEY ≠ Some Dir.
Proof.
  intros [Hl _] Hd. unfold load_index in Hl.
  destruct index_key_facts as (Hn & _ & Ht & _).
  unfold node_at, key_node in Hl. rewrite Hn, Ht, Hd in Hl. done.
Qed.

Lemma cmd_commit_run d fields e es message commit_id timestamp :
  repo_ok d →
  staging d fields (e :: es) →
  no_dirs d (e :: es) →
  plain (commit_id +:+ ".json") = true →
  d !! commit_key commit_id ≠ Some Dir →
  cmd_commit message commit_id timestamp (start d)
  = (Ok tt,
     World (disk_committed d (e :: es) message commit_id timestamp)
           (loop_out d (e :: es) ++ [created commit_id (length (loop_files d (e :: es)))])
           (loop_hist d (e :: es)
            ++ [disk_recorded d (e :: es) message commit_id timestamp;
                disk_committed d (e :: es) message commit_id timestamp])).
Proof.
  intros (Hrepo & Hcommits & Hobjects) [Hidx Hst] Hnd Hid Hcdir.
  pose proof (staging_index_not_dir _ _ _ (conj Hidx Hst)) as Hidir.
  destruct (commit_key_facts _ Hid) as (Hcp & Hcn & Hcd & Hct).
  destruct index_key_facts as (Hin & Hid' & Hit & _).
  set (es' := e :: es) in *.
  unfold cmd_commit. rewrite bind_eq, ensure_repo_ok by done.
  rewrite bind_eq, read_index_eq. cbn [start disk]. rewrite Hidx.
  rewrite bind_eq. change (lift ?r ?w) with (r, w).
  cbn [py_get]. unfold staged_in in Hst. rewrite Hst.
  change (py_truthy (JList (map entry_json es'))) with true. cbv iota.
  rewrite bind_eq. change (lift ?r ?w) with (r, w). cbn [py_iter].
  rewrite bind_eq, commit_loop_run by done. cbn [app start disk out hist].
  cbv zeta. rewrite bind_eq.
  rewrite Hcp. rewrite write_file_ok; rewrite ?Hcn.
  2:{ intros E. apply (f_equal String.length) in E. unfold commit_key in E.
      rewrite length_append in E. simpl in E. lia. }
  2:{ unfold key_node. rewrite Hct. cbn [disk].
      by rewrite loop_disk_frame by apply commit_not_object. }
  2:{ right. rewrite Hcd. cbn [disk].
      eapply node_at_mono; [apply loop_disk_mono|exact Hcommits]. }
  unfold write_index. rewrite bind_eq. rewrite write_file_ok; rewrite ?Hin.
  2:{ discriminate. }
  2:{ unfold key_node. rewrite Hit. cbn [mutated disk].
      rewrite lookup_insert_ne by apply commit_not_index.
      by rewrite loop_disk_frame by apply index_not_object. }
  2:{ right. rewrite Hid'. cbn [mutated disk].
      rewrite (node_at_insert_ne _ _ _ ".minigit") by apply commit_not_root.
      eapply node_at_mono; [apply loop_disk_mono|exact Hrepo]. }
  unfold print, mutated, disk_committed, disk_recorded, created.
  cbn [disk out hist]. by rewrite <-?app_assoc.
Qed.

End RunFacts.

(** ** Facts about the commit loop *)

Section CommitFacts.
Context `{HS : Sha1} `{HX : !Sha1Hex} `{HJ : JsonCodec}.

Lemma step_disk_object d e data :
  node_at d e.1 = Some (File data) → is_Some (step_disk d e !! okey data e.1).
Proof.
  intros E. unfold step_disk. rewrite E.
  destruct (d !! okey data e.1) eqn:Ho; [by rewrite Ho|]. by rewrite lookup_insert_eq.
Qed.

(** every staged file is recorded with the fingerprint of its bytes, and
    its object is in the store afterwards *)
Lemma loop_records es : ∀ d e data,
  e ∈ es → node_at d e.1 = Some (File data) →
  recorded data e.1 ∈ loop_files d es
  ∧ is_Some (loop_disk d es !! okey data e.1).
Proof.
  induction es as [|x rest IH]; intros d e data Hin E; [by apply elem_of_nil in Hin|].
  apply elem_of_cons in Hin as [->|Hin].
  - cbn [loop_files loop_disk foldl]. rewrite E. split; [apply list_elem_of_here|].
    destruct (step_disk_object d x data E) as [n Hn]. exists n.
    eapply lookup_weaken; [exact Hn|apply loop_disk_mono].
  - assert (node_at (step_disk d x) e.1 = Some (File data)) as E'.
    { eapply node_at_mono; [apply step_disk_mono|done]. }
    destruct (IH _ _ _ Hin E') as [Hf Ho]. split; [|exact Ho].
    cbn [loop_files]. destruct (node_at d x.1) as [[|dx]|]; try done.
    by apply list_elem_of_further.
Qed.

(** the recorded entries are files met in staging order *)
Lemma loop_files_order es : ∀ d,
  ∃ picks : list (string * bytes),
    loop_files d es = map (λ x, recorded x.2 x.1) picks
    ∧ picks.*1 `sublist_of` es.*1
    ∧ Forall (λ x, ∃ es1 es2, es = es1 ++ es2
                   ∧ node_at (loop_disk d es1) x.1 = Some (File x.2)) picks.
Proof.
  induction es as [|e rest IH]; intros d.
  { exists []. split_and!; [done|done|constructor]. }
  destruct (IH (step_disk d e)) as (picks & Hf & Hsub & Hall).
  assert (Hall' : Forall (λ x, ∃ es1 es2, e :: rest = es1 ++ es2
             ∧ node_at (loop_disk d es1) x.1 = Some (File x.2)) picks).
  { eapply Forall_impl; [exact Hall|]. intros x (es1 & es2 & -> & Hx).
    by exists (e :: es1), es2. }
  cbn [loop_files]. destruct (node_at d e.1) as [[|data]|] eqn:E.
  - exists picks. split_and!; [done| |done]. by apply sublist_cons.
  - exists ((e.1, data) :: picks). split_and!.
    + cbn. by rewrite Hf.
    + cbn. by apply sublist_skip.
    + constructor; [|done]. by exists [], (e :: rest).
  - exists picks. split_and!; [done| |done]. by apply sublist_cons.
Qed.

Lemma loop_unchanged es : ∀ d,
  (∀ e data, e ∈ es → node_at d e.1 = Some (File data) →
             is_Some (d !! okey data e.1)) →
  loop_disk d es = d ∧ loop_hist d es = [].
Proof.
  induction es as [|e rest IH]; intros d Hall; [done|].
  assert (step_disk d e = d) as Hstep.
  { unfold step_disk. destruct (node_at d e.1) as [[|data]|] eqn:E; try done.
    destruct (Hall e data) as [n Hn]; [apply list_elem_of_here|done|]. by rewrite Hn. }
  cbn [loop_disk foldl loop_hist]. fold (loop_disk (step_disk d e) rest).
  rewrite Hstep. destruct (IH d) as [Hd Hh].
  { intros e' data' Hin. apply Hall. by apply list_elem_of_further. }
  rewrite Hd, Hh. split; [done|].
  destruct (node_at d e.1) as [[|data]|] eqn:E; try done.
  destruct (Hall e data) as [n Hn]; [apply list_elem_of_here|done|]. by rewrite Hn.
Qed.

Lemma loop_all_vanished es : ∀ d,
  (∀ e, e ∈ es → node_at d e.1 = None) →
  loop_files d es = [] ∧ loop_out d es = map (λ e, warning e.1) es.
Proof.
  induction es as [|e rest IH]; intros d Hall; [done|].
  assert (node_at d e.1 = None) as E by (apply Hall, list_elem_of_here).
  assert (step_disk d e = d) as Hstep by (unfold step_disk; by rewrite E).
  cbn [loop_files loop_out map]. rewrite E, Hstep.
  destruct (IH d) as [Hf Ho]; [intros e' Hin; by apply Hall, list_elem_of_further|].
  by rewrite Hf, Ho.
Qed.

Lemma vanished_skipped es : ∀ d e,
  e ∈ es → node_at d e.1 = None → not_object (Path.normpath e.1) →
  warning e.1 ∈ loop_out d es.
Proof.
  induction es as [|x rest IH]; intros d e Hin E Hno; [by apply elem_of_nil in Hin|].
  apply elem_of_cons in Hin as [->|Hin].
  - cbn [loop_out]. rewrite E. apply list_elem_of_here.
  - assert (warning e.1 ∈ loop_out (step_disk d x) rest) as Hw.
    { apply IH; [done| |done]. by rewrite step_disk_same. }
    cbn [loop_out]. destruct (node_at d x.1) as [[|dx]|]; try done.
    by apply list_elem_of_further.
Qed.

Lemma vanished_not_recorded es d p o s :
  node_at d p = None → not_object (Path.normpath p) →
  file_entry p o s ∉ loop_files d es.
Proof.
  intros E Hno Hin. destruct (loop_files_order es d) as (picks & Hf & _ & Hall).
  rewrite Hf in Hin. apply list_elem_of_fmap in Hin as (x & Hx & Hxin).
  eapply Forall_forall in Hall as (es1 & es2 & _ & Hnode); [|exact Hxin].
  unfold recorded, file_entry in Hx. injection Hx as Hp _ _. subst p.
  rewrite (node_at_agree d) in Hnode by (by apply loop_disk_frame). congruence.
Qed.

Lemma json_name_plain commit_id :
  no_sep commit_id = true → plain (commit_id +:+ ".json") = true.
Proof.
  intros Hn. apply plain_intro.
  - by rewrite no_sep_app, Hn.
  - apply eqb_length_ne. rewrite length_append. simpl. lia.
  - apply eqb_length_ne. rewrite length_append. simpl. lia.
  - apply eqb_length_ne. rewrite length_append. simpl. lia.
Qed.

Lemma commit_run d fields es message commit_id timestamp :
  commit_ready d fields es commit_id →
  cmd_commit message commit_id timestamp (start d)
  = (Ok tt,
     World (disk_committed d es message commit_id timestamp)
           (loop_out d es ++ [created commit_id (length (loop_files d es))])
           (loop_hist d es
            ++ [disk_recorded d es message commit_id timestamp;
                disk_committed d es message commit_id timestamp])).
Proof.
  intros (Hrepo & Hst & Hne & Hnd & Hid & Hc). destruct es as [|e es]; [done|].
  eapply cmd_commit_run; eauto using json_name_plain.
Qed.

Lemma committed_lookup_record d es message commit_id timestamp :
  disk_committed d es message commit_id timestamp !! commit_key commit_id
  = Some (File (json_dump
       (commit_record commit_id timestamp message (loop_files d es)))).
Proof.
  unfold disk_committed, disk_recorded.
  rewrite lookup_insert_ne by (apply not_eq_sym, commit_not_index).
  by rewrite lookup_insert_eq.
Qed.

Lemma committed_lookup_other d es message commit_id timestamp k :
  k ≠ commit_key commit_id → k ≠ INDEX_KEY →
  disk_committed d es message commit_id timestamp !! k = loop_disk d es !! k.
Proof.
  intros H1 H2. unfold disk_committed, disk_recorded.
  by rewrite !lookup_insert_ne by done.
Qed.

Lemma committed_lookup_object d es message commit_id timestamp name :
  disk_committed d es message commit_id timestamp !! object_key name
  = loop_disk d es !! object_key name.
Proof.
  apply committed_lookup_other.
  - intros E. by apply (commit_not_object commit_id name).
  - intros E. by apply (index_not_object name).
Qed.

End CommitFacts.

(** ** Claims about commit *)

Section CommitClaims.
Context `{HS : Sha1} `{HX : !Sha1Hex} `{HJ : JsonCodec}.

(** C2. When the staging index lists nothing, a commit prints the
    nothing-to-commit notice and ends normally without any mutation of the
    disk: no record is created, no object is written, and the commit log,
    the object store and the index are what they were. *)
Theorem commit_empty_staging d fields message commit_id timestamp :
  node_at d MINIGIT_DIR = Some Dir →
  staging d fields [] →
  cmd_commit message commit_id timestamp (start d)
  = (Ok tt,
     World d ["Nada para commitear. El área de preparación está vacía."] []).
Proof.
  intros Hrepo [Hidx Hst]. unfold cmd_commit.
  rewrite bind_eq, ensure_repo_ok by done.
  rewrite bind_eq, read_index_eq. cbn [start disk]. rewrite Hidx.
  rewrite bind_eq. change (lift ?r ?w) with (r, w). cbn [py_get].
  unfold staged_in in Hst. by rewrite Hst.
Qed.




(** C8 (as amended). A commit writes its record under the generated id
    without looking at what is there: a record already stored under that id
    is replaced.  Every other node already on disk, the index apart, is kept
    as it is; in particular the records of all other ids are retained
    unchanged. *)
Theorem commit_keeps_other_records d fields es message commit_id timestamp :
  commit_ready d fields es commit_id →
  ∃ w',
    cmd_commit message commit_id timestamp (start d) = (Ok tt, w')
    ∧ disk w' !! commit_key commit_id
      = Some (File (json_dump
           (commit_record commit_id timestamp message (loop_files d es))))
    ∧ (∀ k n, d !! k = Some n → k ≠ commit_key commit_id → k ≠ INDEX_KEY →
         disk w' !! k = Some n)
    ∧ (∀ id' n, id' ≠ commit_id → d !! commit_key id' = Some n →
         disk w' !! commit_key id' = Some n).
Proof.
  intros Hready. eexists. split; [by eapply commit_run|]. cbn [disk].
  split; [apply committed_lookup_record|].
  assert (Hkeep : ∀ k n, d !! k = Some n → k ≠ commit_key commit_id →
            k ≠ INDEX_KEY →
            disk_committed d es message commit_id timestamp !! k = Some n).
  { intros k n Hk H1 H2. rewrite committed_lookup_other by done.
    eapply lookup_weaken; [exact Hk|apply loop_disk_mono]. }
  split; [exact Hkeep|]. intros id' n Hne Hk. apply Hkeep; [done| |].
  - unfold commit_key. intros E. apply String.app_inj in E.
    apply Hne. clear -E. revert commit_id E.
    induction id' as [|a r IH]; intros [|c r'] E; try done.
    + by destruct r' as [|? [|? [|? [|? [|? ?]]]]].
    + by destruct r as [|? [|? [|? [|? [|? ?]]]]].
    + rewrite !append_cons in E. injection E as -> E. f_equal. by apply IH.
  - apply commit_not_index.
Qed.

(** C9. In a commit that runs to its end, the staging index is cleared by the
    last mutation of the disk, and the mutation just before it writes the
    commit record: in every state the disk goes through before the index is
    cleared, the index is the one the commit started with, and the state
    that is cleared already holds the record. *)
Theorem commit_clears_after_persist d fields es message commit_id timestamp :
  commit_ready d fields es commit_id →
  ∃ w' hs d_rec,
    cmd_commit message commit_id timestamp (start d) = (Ok tt, w')
    ∧ hist w' = hs ++ [d_rec; disk w']
    ∧ (∀ s, s ∈ hs → s !! INDEX_KEY = d !! INDEX_KEY)
    ∧ d_rec !! INDEX_KEY = d !! INDEX_KEY
    ∧ d_rec !! commit_key commit_id
      = Some (File (json_dump
           (commit_record commit_id timestamp message (loop_files d es))))
    ∧ disk w' = <[INDEX_KEY := File (json_dump empty_index)]> d_rec.
Proof.
  intros Hready.
  eexists _, (loop_hist d es), (disk_recorded d es message commit_id timestamp).
  split; [by eapply commit_run|]. cbn [disk hist]. split_and!; [done|..|done].
  - intros s Hs. destruct (loop_hist_prefix _ _ _ Hs) as (es1 & es2 & _ & ->).
    apply loop_disk_frame, index_not_object.
  - unfold disk_recorded.
    rewrite lookup_insert_ne by apply commit_not_index.
    apply loop_disk_frame, index_not_object.
  - apply lookup_insert_eq.
Qed.

End CommitClaims.

(** ** Facts about the restore loop *)

Section RestoreRun.
Context `{HS : Sha1} `{HX : !Sha1Hex} `{HJ : JsonCodec}.

Lemma restore_loop_miss e rest n w :
  node_at (disk w) (opath e) = None →
  restore_loop (fentry_json e :: rest) n w
  = restore_loop rest n (printed w (missing e)).
Proof.
  intros E. cbn [restore_loop]. rewrite bind_eq.
  change (lift _ w) with (Ok (fobject e) : res string, w). cbv beta iota zeta.
  rewrite bind_eq. change (lift _ w) with (Ok (fpath e) : res string, w).
  cbv beta iota. fold (opath e).
  rewrite bind_eq, (exists_false _ _ E). cbv beta iota. rewrite bind_eq. done.
Qed.

Lemma restore_loop_copy e rest n w data :
  node_at (disk w) (opath e) = Some (File data) →
  entry_ok (disk w) e →
  Path.normpath (fpath e) ≠ Path.normpath (opath e) →
  restore_loop (fentry_json e :: rest) n w
  = restore_loop rest (S n)
      (mutated w (<[Path.normpath (fpath e) := File data]> (disk w))).
Proof.
  intros E [_ Hok] Hne. destruct Hok as (Hnz & Ht & Hd & Hp); [by rewrite E|].
  apply not_eq_sym in Hne.
  cbn [restore_loop]. rewrite bind_eq.
  change (lift _ w) with (Ok (fobject e) : res string, w). cbv beta iota zeta.
  rewrite bind_eq. change (lift _ w) with (Ok (fpath e) : res string, w).
  cbv beta iota. fold (opath e).
  rewrite bind_eq, (exists_true _ _ _ E). cbv beta iota.
  rewrite bind_eq, exists_eq. cbv beta iota.
  assert ((if negb (Path.dirname (fpath e) =? "")%string
              && negb (bool_decide (is_Some (node_at (disk w) (Path.dirname (fpath e)))))
           then os_makedirs (Path.dirname (fpath e)) else mret ()) = (mret () : M unit)) as ->.
  { destruct Hd as [-> | Hd]; [done|]. rewrite Hd.
    rewrite bool_decide_eq_true_2 by done. by rewrite andb_false_r. }
  rewrite bind_eq. change ((mret () : M unit) w) with (Ok (), w). cbv beta iota.
  rewrite bind_eq.
  assert (shutil_copy2 (opath e) (fpath e) w
          = (Ok tt, mutated w (<[Path.normpath (fpath e) := File data]> (disk w)))) as ->; [|done].
  unfold shutil_copy2. rewrite bind_eq, isdir_eq.
  assert (match node_at (disk w) (fpath e) with Some Dir => true | _ => false end = false) as ->.
  { by destruct (node_at (disk w) (fpath e)) as [[|?]|]. }
  cbv beta iota. rewrite bind_eq. change (get_disk w) with (Ok (disk w), w).
  cbv beta iota. rewrite (bool_decide_eq_false_2 (Path.normpath (opath e) = _)) by done.
  cbn [andb]. rewrite bind_eq, read_file_eq, E. cbv beta iota.
  rewrite write_file_ok; [done|exact Hnz| |done].
  unfold node_at in Ht. apply String.eqb_neq in Hnz. by rewrite Hnz in Ht.
Qed.

End RestoreRun.

(** ** Facts about restored disks *)

Section RestoreFacts.
Context `{HS : Sha1} `{HX : !Sha1Hex} `{HJ : JsonCodec}.

Lemma node_at_insert_dir (d : disk_t) k n q :
  key_node d k ≠ Some Dir → node_at d q = Some Dir →
  node_at (<[k := n]> d) q = Some Dir.
Proof.
  unfold node_at, key_node. intros Hk. destruct (String.eqb q ""); [done|].
  destruct (is_top (Path.normpath q)) eqn:Ht; [done|].
  intros Hq. rewrite lookup_insert_ne; [done|]. intros ->. by rewrite Ht in Hk.
Qed.

Lemma restore_step_object d x e :
  Path.normpath (fpath x) ≠ Path.normpath (opath e) →
  node_at (restore_step d x) (opath e) = node_at d (opath e).
Proof.
  intros Hne. unfold restore_step. destruct (node_at d (opath x)) as [[|data]|]; try done.
  by apply node_at_insert_ne.
Qed.

Lemma restore_step_ok d x e :
  entry_ok d x → entry_ok d e →
  Path.normpath (fpath x) ≠ Path.normpath (opath e) →
  entry_ok (restore_step d x) e.
Proof.
  intros [_ Hx] [He1 He2] Hne. unfold entry_ok.
  rewrite restore_step_object by done. split; [done|]. intros Hsome.
  destruct (He2 Hsome) as (Hnz & Ht & Hd & Hp). unfold restore_step.
  destruct (node_at d (opath x)) as [[|data]|] eqn:Ex; try done.
  destruct Hx as (Hxz & Hxt & _); [done|].
  unfold node_at in Hxt. apply String.eqb_neq in Hxz. rewrite Hxz in Hxt.
  split_and!.
  - exact Hnz.
  - by apply node_at_insert_file.
  - destruct Hd as [?|Hd]; [by left|right]. by apply node_at_insert_dir.
  - destruct Hp as [?|Hp]; [by left|right]. by apply node_at_insert_dir.
Qed.

Lemma restore_loop_run all es : ∀ n w,
  es ⊆ all → targets_apart all → Forall (entry_ok (disk w)) all →
  restore_loop (map fentry_json es) n w
  = (Ok (n + restore_count (disk w) es),
     World (restore_disk (disk w) es) (out w ++ restore_out (disk w) es)
           (hist w ++ restore_hist (disk w) es)).
Proof.
  induction es as [|e rest IH]; intros n w Hsub Hapart Hok.
  { destruct w. cbn. by rewrite Nat.add_0_r, !app_nil_r. }
  assert (e ∈ all) as Hin by (apply Hsub, list_elem_of_here).
  assert (rest ⊆ all) as Hsub' by (intros x Hx; by apply Hsub, list_elem_of_further).
  assert (Forall (entry_ok (restore_step (disk w) e)) all) as Hok'.
  { apply Forall_forall. intros x Hx. apply restore_step_ok.
    - by eapply Forall_forall in Hok.
    - by eapply Forall_forall in Hok.
    - by apply Hapart. }
  pose proof (proj1 (Forall_forall _ _) Hok e Hin) as He.
  cbn [map restore_count restore_out restore_hist restore_disk foldl].
  fold (restore_disk (restore_step (disk w) e) rest).
  unfold restore_step in Hok' |- *.
  destruct (node_at (disk w) (opath e)) as [[|data]|] eqn:E.
  - by destruct He as [He _].
  - rewrite (restore_loop_copy _ _ _ _ data) by (done || by apply Hapart).
    rewrite IH by done. unfold mutated. cbn [disk out hist].
    by rewrite <-!app_assoc, Nat.add_succ_r.
  - rewrite restore_loop_miss by done. rewrite IH by done.
    unfold printed. cbn [disk out hist]. by rewrite <-!app_assoc.
Qed.

Lemma restore_disk_object all es : ∀ d e,
  es ⊆ all → e ∈ all → targets_apart all →
  node_at (restore_disk d es) (opath e) = node_at d (opath e).
Proof.
  induction es as [|x rest IH]; intros d e Hsub Hin Hapart; [done|].
  cbn [restore_disk foldl]. fold (restore_disk (restore_step d x) rest).
  rewrite IH; [|intros y Hy; by apply Hsub, list_elem_of_further|done..].
  apply restore_step_object, Hapart; [apply Hsub, list_elem_of_here|done].
Qed.

Lemma omap_ext_in {A B} (f g : A → option B) (l : list A) :
  (∀ x, x ∈ l → f x = g x) → omap f l = omap g l.
Proof.
  induction l as [|y l IH]; intros Hfg; [done|]. cbn [omap list_omap].
  rewrite (Hfg y) by apply list_elem_of_here.
  rewrite IH; [done|]. intros x Hx. by apply Hfg, list_elem_of_further.
Qed.

Lemma stored_step all rest d x :
  rest ⊆ all → x ∈ all → targets_apart all →
  omap (stored (restore_step d x)) rest = omap (stored d) rest
  ∧ missing_warnings (restore_step d x) rest = missing_warnings d rest.
Proof.
  intros Hsub Hx Hapart. unfold missing_warnings, stored.
  split; apply omap_ext_in; intros y Hy;
    by rewrite restore_step_object by (apply Hapart; [done|by apply Hsub]).
Qed.

Lemma restore_count_stored all es : ∀ d,
  es ⊆ all → targets_apart all →
  restore_count d es = length (omap (stored d) es)
  ∧ restore_out d es = missing_warnings d es.
Proof.
  induction es as [|x rest IH]; intros d Hsub Hapart; [done|].
  assert (rest ⊆ all) as Hsub' by (intros y Hy; by apply Hsub, list_elem_of_further).
  assert (x ∈ all) as Hx by (apply Hsub, list_elem_of_here).
  destruct (IH (restore_step d x) Hsub' Hapart) as [Hc Ho].
  destruct (stored_step all rest d x Hsub' Hx Hapart) as [Es Em].
  cbn [restore_count restore_out]. rewrite Hc, Ho, Es, Em.
  unfold missing_warnings, stored. cbn [omap list_omap].
  by destruct (node_at d (opath x)) as [[|data]|].
Qed.

Lemma restore_disk_snoc d es x :
  restore_disk d (es ++ [x]) = restore_step (restore_disk d es) x.
Proof. unfold restore_disk. by rewrite foldl_app. Qed.

(** the node at a target, when all entries that write it carry the same bytes *)
Lemma restore_disk_target es : ∀ d e data,
  targets_apart es → e ∈ es → stored d e = Some data →
  (∀ e' data', e' ∈ es → stored d e' = Some data' →
     Path.normpath (fpath e') = Path.normpath (fpath e) → data' = data) →
  restore_disk d es !! Path.normpath (fpath e) = Some (File data).
Proof.
  intros d e data Hapart. 
  assert (∀ pre, pre ⊆ es → e ∈ pre → stored d e = Some data →
    (∀ e' data', e' ∈ pre → stored d e' = Some data' →
       Path.normpath (fpath e') = Path.normpath (fpath e) → data' = data) →
    restore_disk d pre !! Path.normpath (fpath e) = Some (File data)) as Hgen.
  { induction pre as [|x pre IH] using rev_ind; intros Hsub Hin Hst Hsame.
    { by apply elem_of_nil in Hin. }
    assert (pre ⊆ es) as Hsub' by (intros y Hy; apply Hsub, elem_of_app; by left).
    assert (x ∈ es) as Hx by (apply Hsub, elem_of_app; right; apply list_elem_of_here).
    rewrite restore_disk_snoc. unfold restore_step.
    rewrite (restore_disk_object es) by done.
    destruct (node_at d (opath x)) as [[|dx]|] eqn:Ex.
    - apply IH; [done| |done|].
      + apply elem_of_app in Hin as [?|Hin%list_elem_of_singleton]; [done|].
        subst x. unfold stored in Hst. by rewrite Ex in Hst.
      + intros e' data' Hin'. apply Hsame, elem_of_app. by left.
    - destruct (decide (Path.normpath (fpath x) = Path.normpath (fpath e))) as [Heq|Hne].
      + rewrite Heq, lookup_insert_eq. f_equal. f_equal.
        apply (Hsame x dx); [apply elem_of_app; right; apply list_elem_of_here| |done].
        unfold stored. by rewrite Ex.
      + rewrite lookup_insert_ne by done. apply IH; [done| |done|].
        * apply elem_of_app in Hin as [?|Hin%list_elem_of_singleton]; [done|]. by subst.
        * intros e' data' Hin'. apply Hsame, elem_of_app. by left.
    - apply IH; [done| |done|].
      + apply elem_of_app in Hin as [?|Hin%list_elem_of_singleton]; [done|].
        subst x. unfold stored in Hst. by rewrite Ex in Hst.
      + intros e' data' Hin'. apply Hsame, elem_of_app. by left. }
  intros Hin Hst Hsame. by apply Hgen.
Qed.

(** a key that no entry with a stored object targets keeps its node *)
Lemma restore_disk_other es : ∀ d k,
  targets_apart es →
  (∀ e, e ∈ es → is_Some (stored d e) → Path.normpath (fpath e) ≠ k) →
  restore_disk d es !! k = d !! k.
Proof.
  intros d k Hapart.
  assert (∀ pre, pre ⊆ es →
    (∀ e, e ∈ pre → is_Some (stored d e) → Path.normpath (fpath e) ≠ k) →
    restore_disk d pre !! k = d !! k) as Hgen.
  { induction pre as [|x pre IH] using rev_ind; intros Hsub Hk; [done|].
    assert (pre ⊆ es) as Hsub' by (intros y Hy; apply Hsub, elem_of_app; by left).
    assert (x ∈ es) as Hx by (apply Hsub, elem_of_app; right; apply list_elem_of_here).
    rewrite restore_disk_snoc. unfold restore_step.
    rewrite (restore_disk_object es) by done.
    assert (restore_disk d pre !! k = d !! k) as IH'.
    { apply IH; [done|]. intros e He. apply Hk, elem_of_app. by left. }
    destruct (node_at d (opath x)) as [[|dx]|] eqn:Ex; try done.
    rewrite lookup_insert_ne; [done|]. apply Hk.
    - apply elem_of_app; right; apply list_elem_of_here.
    - unfold stored. by rewrite Ex. }
  intros Hk. by apply Hgen.
Qed.

End RestoreFacts.

(** ** Claims about restore *)

Section RestoreClaims.
Context `{HS : Sha1} `{HX : !Sha1Hex} `{HJ : JsonCodec}.

Lemma cmd_restore_missing d commit_id :
  node_at d MINIGIT_DIR = Some Dir →
  node_at d (commit_path commit_id) = None →
  cmd_restore commit_id (start d)
  = (Raise (SystemExit ("No se encontró el commit con id " +:+ commit_id)), start d).
Proof.
  intros Hrepo E. unfold cmd_restore. rewrite bind_eq, ensure_repo_ok by done.
  cbv zeta. rewrite bind_eq, exists_false by done. done.
Qed.

Lemma cmd_restore_run d commit_id es :
  node_at d MINIGIT_DIR = Some Dir →
  record_lists d commit_id es →
  restorable d es →
  cmd_restore commit_id (start d)
  = (Ok tt,
     World (restore_disk d es)
           (restore_out d es ++ [restored_line (restore_count d es) commit_id])
           (restore_hist d es)).
Proof.
  intros Hrepo (data & record & E & Hload & Hfiles) [Hok Hapart].
  unfold cmd_restore. rewrite bind_eq, ensure_repo_ok by done.
  cbv zeta. rewrite bind_eq, (exists_true _ (start d) _ E). cbv beta iota.
  rewrite bind_eq, read_file_eq. cbn [start disk]. rewrite E. cbv beta iota.
  rewrite bind_eq, Hload. change ((mret record : M json) (start d)) with (Ok record, start d).
  cbv beta iota. rewrite bind_eq. change (lift ?r ?w) with (r, w). rewrite Hfiles.
  cbv beta iota. rewrite bind_eq. change (lift ?r ?w) with (r, w). cbn [py_iter].
  rewrite bind_eq, (restore_loop_run es) by done. cbn [start disk out hist app].
  done.
Qed.

Lemma not_dir_not_top d p :
  p ≠ "" → node_at d p ≠ Some Dir → is_top (Path.normpath p) = false.
Proof.
  unfold node_at, key_node. intros Hp. apply String.eqb_neq in Hp. rewrite Hp.
  by destruct (is_top _).
Qed.

Lemma restore_hist_order all es : ∀ d,
  es ⊆ all → targets_apart all →
  Forall2 (λ s x, s !! Path.normpath (fpath x.1) = Some (File x.2))
          (restore_hist d es) (stored_entries d es).
Proof.
  induction es as [|e rest IH]; intros d Hsub Hapart; [constructor|].
  assert (rest ⊆ all) as Hsub' by (intros y Hy; by apply Hsub, list_elem_of_further).
  assert (e ∈ all) as He by (apply Hsub, list_elem_of_here).
  specialize (IH (restore_step d e) Hsub' Hapart).
  assert (stored_entries (restore_step d e) rest = stored_entries d rest) as Heq.
  { unfold stored_entries. apply omap_ext_in. intros y Hy. unfold stored.
    by rewrite restore_step_object by (apply Hapart; [done|by apply Hsub']). }
  rewrite Heq in IH. unfold stored_entries in *. cbn [restore_hist omap list_omap].
  unfold stored at 1.
  destruct (node_at d (opath e)) as [[|data]|] eqn:E; cbn [fmap option_fmap option_map]; try done.
  constructor; [|done]. unfold restore_step. rewrite E. by rewrite lookup_insert_eq.
Qed.


End RestoreClaims.

(** ** The frame of restore *)

Section RestoreFrame.
Context `{HS : Sha1} `{HX : !Sha1Hex} `{HJ : JsonCodec}.

Lemma co_pure {A} K (m : M A) :
  (∀ w, ∃ r, m w = (r, w)) → changes_only K m.
Proof.
  intros Hm w r w' E k _. destruct (Hm w) as [r' E']. rewrite E' in E. by injection E as _ <-.
Qed.

Lemma co_ret {A} K (a : A) : changes_only K (mret a : M A).
Proof. apply co_pure. intros w. by eexists. Qed.

Lemma co_raise {A} K e : changes_only K (raise e : M A).
Proof. apply co_pure. intros w. by eexists. Qed.

Lemma co_lift {A} K (r : res A) : changes_only K (lift r).
Proof. apply co_pure. intros w. by eexists. Qed.

Lemma co_exists K p : changes_only K (os_path_exists p).
Proof. apply co_pure. intros w. by eexists. Qed.

Lemma co_isdir K p : changes_only K (os_path_isdir p).
Proof. apply co_pure. intros w. by eexists. Qed.

Lemma co_get K : changes_only K get_disk.
Proof. apply co_pure. intros w. by eexists. Qed.

Lemma co_read K p : changes_only K (read_file p).
Proof. apply co_pure. intros w. rewrite read_file_eq. by eexists. Qed.

Lemma co_print K line : changes_only K (print line).
Proof. intros w r w' E k _. unfold print in E. by injection E as _ <-. Qed.

Lemma co_bind {A B} K (m : M A) (f : A → M B) :
  changes_only K m → (∀ a, changes_only K (f a)) → changes_only K (m ≫= f).
Proof.
  intros Hm Hf w r w' E k Hk. rewrite bind_eq in E.
  destruct (m w) as [[a|e] w1] eqn:Em.
  - rewrite (Hf a _ _ _ E k Hk). by apply (Hm _ _ _ Em).
  - injection E as _ <-. by apply (Hm _ _ _ Em).
Qed.

Lemma co_weaken {A} (K K' : string → Prop) (m : M A) :
  (∀ k, K k → K' k) → changes_only K m → changes_only K' m.
Proof. intros HK Hm w r w' E k Hk. apply (Hm _ _ _ E). intros ?. by apply Hk, HK. Qed.

Lemma co_put K d' :
  (∀ w k, ¬ K k → d' !! k = disk w !! k) → changes_only K (put_disk d').
Proof. intros Hd w r w' E k Hk. unfold put_disk in E. injection E as _ <-. by apply Hd. Qed.

Lemma co_write_file p data :
  changes_only (λ k, k = Path.normpath p) (write_file p data).
Proof.
  intros w r w' E k Hk. unfold write_file in E. rewrite bind_eq in E.
  change (get_disk w) with (Ok (disk w), w) in E. cbv beta iota zeta in E.
  destruct (String.eqb p ""); [by injection E as _ <-|].
  assert (∀ r w', (match (if (Path.dirname (Path.normpath p) =? "")%string
                          then Some Dir
                          else node_at (disk w) (Path.dirname (Path.normpath p))) with
           | Some Dir => put_disk (<[Path.normpath p := File data]> (disk w))
           | Some (File _) => raise (NotADirectoryError p)
           | None => raise (FileNotFoundError p)
           end : M unit) w = (r, w') → disk w' !! k = disk w !! k) as Hin.
  { intros r0 w0 E0.
    destruct (if (_ =? "")%string then _ else _) as [[|?]|];
      [|by injection E0 as _ <-..].
    unfold put_disk in E0. injection E0 as _ <-. cbn [disk].
    by rewrite lookup_insert_ne by (intros ?; by apply Hk). }
  destruct (key_node (disk w) (Path.normpath p)) as [[|?]|]; eauto.
  by injection E as _ <-.
Qed.

Lemma co_mkdir_chain p chain :
  changes_only (λ k, k ∈ chain) (mkdir_chain p chain).
Proof.
  induction chain as [|c rest IH]; [apply co_ret|].
  intros w r w' E k Hk. cbn [mkdir_chain] in E. rewrite bind_eq in E.
  change (get_disk w) with (Ok (disk w), w) in E. cbv beta iota in E.
  assert (k ∉ rest) as Hk' by (intros ?; by apply Hk, list_elem_of_further).
  destruct (key_node (disk w) c) as [[|?]|].
  - by apply (IH _ _ _ E).
  - destruct rest; by injection E as _ <-.
  - rewrite bind_eq in E. unfold put_disk at 1 in E. cbv beta iota in E.
    rewrite (IH _ _ _ E k Hk'). cbn [disk].
    apply lookup_insert_ne. intros ->. apply Hk, list_elem_of_here.
Qed.

Lemma co_makedirs p :
  changes_only (λ k, k ∈ dir_chain "" (Path.split (Path.normpath p))) (os_makedirs p).
Proof. apply co_mkdir_chain. Qed.

Lemma co_copy2 src dst :
  changes_only (λ k, k = Path.normpath dst
                     ∨ k = Path.normpath (Path.join dst (Path.basename src)))
               (shutil_copy2 src dst).
Proof.
  unfold shutil_copy2. apply co_bind; [apply co_isdir|]. intros isdir.
  apply co_bind; [apply co_get|]. intros d.
  destruct (_ && _); [apply co_raise|].
  apply co_bind; [apply co_read|]. intros data.
  eapply co_weaken; [|apply co_write_file]. intros k ->. destruct isdir; auto.
Qed.

Lemma co_lift_bind {A B} K (r : res A) (f : A → M B) :
  (∀ a, r = Ok a → changes_only K (f a)) → changes_only K (lift r ≫= f).
Proof.
  intros Hf w r' w' E k Hk. rewrite bind_eq in E. change (lift r w) with (r, w) in E.
  destruct r as [a|e]; [by apply (Hf a eq_refl _ _ _ E)|by injection E as _ <-].
Qed.

Lemma co_restore_loop files : ∀ n,
  changes_only (λ k, k ∈ concat (map entry_targets files)) (restore_loop files n).
Proof.
  induction files as [|fmeta rest IH]; intros n; [apply co_ret|].
  cbn [restore_loop map concat].
  apply co_lift_bind. intros obj_name Eo. cbv zeta.
  apply co_lift_bind. intros target_path Et.
  unfold entry_targets at 1. rewrite Eo, Et.
  apply co_bind; [apply co_exists|]. intros [|].
  - apply co_bind; [apply co_exists|]. intros dex.
    apply co_bind.
    { destruct (_ && _); [|apply co_ret].
      eapply co_weaken; [|apply co_makedirs]. intros k Hk. cbv beta in *.
      apply elem_of_app. left. by do 2 apply list_elem_of_further. }
    intros _. apply co_bind.
    { eapply co_weaken; [|apply co_copy2]. intros k Hk. cbv beta in *.
      apply elem_of_app. left. destruct Hk as [-> | ->].
      - apply list_elem_of_here.
      - apply list_elem_of_further, list_elem_of_here. }
    intros _. eapply co_weaken; [|apply IH]. intros k Hk. cbv beta in *.
    apply elem_of_app. by right.
  - apply co_bind; [apply co_print|]. intros _.
    eapply co_weaken; [|apply IH]. intros k Hk. cbv beta in *.
    apply elem_of_app. by right.
Qed.


End RestoreFrame.

(** ** Claims about staging *)

Section AddClaims.
Context `{HS : Sha1} `{HX : !Sha1Hex} `{HJ : JsonCodec}.

Lemma assoc_set_same k v fields : assoc k (assoc_set k v fields) = Some v.
Proof.
  induction fields as [|[k' v'] rest IH]; cbn [assoc_set assoc].
  - by rewrite String.eqb_refl.
  - destruct (k =? k')%string eqn:E; cbn [assoc]; by rewrite E.
Qed.

Lemma without_path_entries es rel_path :
  without_path (map entry_json es) rel_path
  = Ok (map entry_json (filter (λ e, e.1 ≠ rel_path) es)).
Proof.
  induction es as [|e rest IH]; [done|].
  cbn [map without_path]. rewrite IH.
  change (py_getitem (entry_json e) "path") with (Ok (JStr e.1) : res json).
  cbn [py_ne_str]. rewrite filter_cons.
  destruct (decide (e.1 ≠ rel_path)) as [Hne|Heq].
  - apply String.eqb_neq in Hne. by rewrite Hne.
  - apply dec_stable in Heq. apply String.eqb_eq in Heq. by rewrite Heq.
Qed.

Lemma filter_other_key (es : list (string * string)) rel_path :
  filter (λ e, e.1 = rel_path) (filter (λ e, e.1 ≠ rel_path) es) = [].
Proof.
  induction es as [|e rest IH]; [done|]. rewrite (filter_cons (λ e, e.1 ≠ rel_path)).
  destruct (decide (e.1 ≠ rel_path)); [|done].
  rewrite filter_cons. by rewrite decide_False.
Qed.

Lemma normpath_nonempty p : Path.normpath p ≠ "".
Proof.
  unfold Path.normpath. destruct (String.eqb p ""); [done|]. cbv zeta.
  by destruct (String.eqb_spec (Path.slashes (Path.initial_slashes p)
                 +:+ Path.join_comps (Path.norm_loop (Path.initial_slashes p) (Path.split p) []))
               "").
Qed.

Lemma node_at_normpath d p n :
  node_at d p = Some n → node_at d (Path.normpath p) = Some n.
Proof.
  intros [_ Hk]%node_at_some.
  by rewrite node_at_nonempty, normpath_idem by apply normpath_nonempty.
Qed.

Lemma cmd_add_run d fields es file data :
  node_at d MINIGIT_DIR = Some Dir →
  staging d fields es →
  node_at d file = Some (File data) →
  cmd_add file (start d)
  = (Ok tt,
     mutated (printed (start d) (added (Path.normpath file)))
       (<[INDEX_KEY := File (json_dump (JDict
            (assoc_set "staged"
               (JList (map entry_json
                         (restaged es (Path.normpath file) (fingerprint data))))
               fields)))]> d)).
Proof.
  intros Hrepo Hst E. pose proof (staging_index_not_dir _ _ _ Hst) as Hidir.
  destruct Hst as [Hidx Hst]. destruct index_key_facts as (Hin & Hid & Hit & _).
  unfold cmd_add. rewrite bind_eq, ensure_repo_ok by done.
  cbv zeta. rewrite bind_eq, (exists_true _ (start d) _ E). cbv beta iota.
  rewrite bind_eq, read_index_eq. cbn [start disk]. rewrite Hidx. cbv beta iota.
  rewrite bind_eq. change (lift ?r ?w) with (r, w). cbn [py_get].
  unfold staged_in in Hst. rewrite Hst. cbv beta iota.
  rewrite bind_eq. change (lift ?r ?w) with (r, w). cbn [py_iter]. cbv beta iota.
  rewrite bind_eq. change (lift ?r ?w) with (r, w). rewrite without_path_entries.
  cbv beta iota. rewrite bind_eq.
  rewrite (hash_file_bytes_eq _ (start d) data) by (by apply node_at_normpath).
  cbv beta iota. rewrite bind_eq. change (lift ?r ?w) with (r, w). cbv beta iota.
  rewrite bind_eq. unfold write_index. rewrite write_file_ok; rewrite ?Hin.
  - cbv beta iota. unfold print, mutated, printed, added, restaged, start.
    cbn [disk out hist app]. rewrite map_app. done.
  - discriminate.
  - unfold key_node. by rewrite Hit.
  - right. by rewrite Hid.
Qed.


End AddClaims.

(** ** The round trip *)

Section RoundTrip.
Context `{HS : Sha1} `{HX : !Sha1Hex} `{HJ : JsonCodec}.

Lemma snapshot_as_entries d es :
  snapshot d es = map fentry_json (snapshot_entries d es).
Proof.
  unfold snapshot, snapshot_entries. induction es as [|e rest IH]; [done|].
  cbn [omap list_omap]. destruct (node_at d e.1) as [[|data]|]; cbn; by rewrite ?IH.
Qed.

Lemma working_settled d es : working_paths es → settled d es.
Proof.
  intros Hw. eapply Forall_impl; [exact Hw|]. intros e [Hn Ho] _. by rewrite Hn.
Qed.

(** the objects of the staged files hold their bytes after the loop *)
Lemma loop_objects_trusted all d0 : ∀ es d,
  settled d0 all → names_trusted d0 all → es ⊆ all →
  d0 ⊆ d →
  (∀ e, e ∈ all → node_at d e.1 = node_at d0 e.1) →
  (∀ e data n, e ∈ all → node_at d0 e.1 = Some (File data) →
     d !! okey data e.1 = Some n → n = File data) →
  ∀ e data n, e ∈ all → node_at d0 e.1 = Some (File data) →
    loop_disk d es !! okey data e.1 = Some n → n = File data.
Proof.
  induction es as [|x rest IH]; intros d Hset Htr Hsub Hext Hsame Hinv; [exact Hinv|].
  assert (x ∈ all) as Hx by (apply Hsub, list_elem_of_here).
  assert (rest ⊆ all) as Hsub' by (intros y Hy; by apply Hsub, list_elem_of_further).
  cbn [loop_disk foldl]. fold (loop_disk (step_disk d x) rest).
  apply IH; try done.
  - etrans; [exact Hext|apply step_disk_mono].
  - intros e He. rewrite <-(Hsame e He). apply step_disk_same.
    rewrite (Hsame e He). intros Hnone.
    by eapply Forall_forall in Hset; [apply Hset|].
  - intros e data n He E. unfold step_disk. rewrite (Hsame x Hx).
    destruct (node_at d0 x.1) as [[|dx]|] eqn:Ex; try by apply Hinv.
    destruct (d !! okey dx x.1) eqn:Eo; [by apply Hinv|].
    destruct (decide (okey dx x.1 = okey data e.1)) as [Heq|Hne].
    + rewrite Heq, lookup_insert_eq. intros [= <-]. f_equal.
      by apply (proj2 (Htr e data He E) x dx).
    + rewrite lookup_insert_ne by done. by apply Hinv.
Qed.

Lemma loop_object_bytes d es e data :
  settled d es → names_trusted d es → e ∈ es →
  node_at d e.1 = Some (File data) →
  loop_disk d es !! okey data e.1 = Some (File data).
Proof.
  intros Hset Htr He E.
  destruct (loop_records es d e data He E) as [_ [n Hn]]. rewrite Hn. f_equal.
  eapply (loop_objects_trusted es d es d); eauto.
  intros e' data' n' He' E'. by apply (proj1 (Htr e' data' He' E')).
Qed.

Lemma elem_of_snapshot_entries d es x :
  x ∈ snapshot_entries d es ↔
  ∃ e data, e ∈ es ∧ node_at d e.1 = Some (File data)
            ∧ x = FEntry e.1 (object_name data e.1) (fingerprint data).
Proof.
  unfold snapshot_entries. rewrite list_elem_of_omap. split.
  - intros (e & He & Hx). destruct (node_at d e.1) as [[|data]|] eqn:E; try done.
    injection Hx as <-. by exists e, data.
  - intros (e & data & He & E & ->). exists e. by rewrite E.
Qed.

Lemma opath_okey data p :
  opath (FEntry p (object_name data p) (fingerprint data)) = okey data p.
Proof.
  unfold opath. cbn [fobject].
  by destruct (object_key_facts _ (object_name_plain data p)) as (-> & _).
Qed.

Lemma tree_parent d k n :
  tree d → d !! k = Some n →
  Path.dirname k = "" ∨ node_at d (Path.dirname k) = Some Dir.
Proof. intros Ht Hk. by apply (Ht k n). Qed.

Lemma file_lookup d p data :
  Path.normpath p = p → node_at d p = Some (File data) →
  is_top p = false ∧ d !! p = Some (File data).
Proof.
  intros Hp [_ Hk]%node_at_some. rewrite Hp in Hk. unfold key_node in Hk.
  by destruct (is_top p).
Qed.

(** ** A commit followed by the loss of a working copy and a restore *)

Section Scenario.
Variables (d : disk_t) (fields : list (string * json)) (es : list (string * string)).
Variables (message commit_id timestamp : string).
Variables (F : string) (data : bytes).

Hypothesis Hready : commit_ready d fields es commit_id.
Hypothesis Hfresh : d !! commit_key commit_id = None.
Hypothesis Htree : tree d.
Hypothesis Hwork : working_paths es.
Hypothesis Htrust : names_trusted d es.
Hypothesis HF : F ∈ es.*1.
Hypothesis EF : node_at d F = Some (File data).
Hypothesis Hrt :
  roundtrips (commit_record commit_id timestamp message (snapshot d es)).

Let d2 : disk_t := disk_committed d es message commit_id timestamp.
Let d3 : disk_t := user_delete F d2.
Let entries : list fentry := snapshot_entries d es.

Lemma scenario_work e :
  e ∈ es → Path.normpath e.1 = e.1 ∧ not_object e.1.
Proof. intros He. pose proof Hwork as Hw. by eapply Forall_forall in Hw. Qed.

Lemma scenario_entry : ∃ e, F = e.1 ∧ e ∈ es.
Proof. pose proof HF as H. by apply list_elem_of_fmap in H. Qed.

Lemma scenario_F : Path.normpath F = F ∧ not_object F ∧ is_top F = false
                   ∧ d !! F = Some (File data).
Proof.
  destruct scenario_entry as (e & HeF & He).
  destruct (scenario_work e He) as [Hn Ho]. rewrite <-HeF in Hn, Ho.
  destruct (file_lookup _ _ _ Hn EF). by split_and!.
Qed.

Lemma scenario_lookup k :
  k ≠ F → k ≠ INDEX_KEY → k ≠ commit_key commit_id →
  d3 !! k = loop_disk d es !! k.
Proof.
  intros H1 H2 H3. destruct scenario_F as (Hn & _).
  unfold d3, user_delete. rewrite Hn, lookup_delete_ne by done.
  unfold d2. by rewrite committed_lookup_other.
Qed.

Lemma scenario_dirs q : node_at d q = Some Dir → node_at d3 q = Some Dir.
Proof.
  unfold node_at, key_node. destruct (String.eqb q ""); [done|].
  destruct (is_top (Path.normpath q)); [done|].
  intros Hq. destruct scenario_F as (_ & _ & _ & HdF).
  destruct Hready as (_ & Hst & _).
  rewrite scenario_lookup.
  - eapply lookup_weaken; [exact Hq|apply loop_disk_mono].
  - intros E. rewrite E in Hq. congruence.
  - intros E. rewrite E in Hq. by apply (staging_index_not_dir _ _ _ Hst).
  - intros E. rewrite E in Hq. pose proof Hfresh. congruence.
Qed.

Lemma scenario_objects e data' :
  e ∈ es → node_at d e.1 = Some (File data') →
  d3 !! okey data' e.1 = Some (File data').
Proof.
  intros He E. destruct scenario_F as (_ & HoF & _).
  rewrite scenario_lookup.
  - apply loop_object_bytes; [by apply working_settled|done..].
  - intros Heq. by apply (HoF (object_name data' e.1)).
  - intros Heq. by apply (index_not_object (object_name data' e.1)).
  - intros Heq. by apply (commit_not_object commit_id (object_name data' e.1)).
Qed.

Lemma scenario_targets e : e ∈ es → node_at d3 e.1 ≠ Some Dir.
Proof.
  intros He Hdir. destruct Hready as (_ & _ & _ & Hnd & _).
  eapply Forall_forall in Hnd; [|exact He]. cbv beta in Hnd.
  destruct (scenario_work e He) as [Hn Ho].
  unfold node_at, key_node in Hdir, Hnd. rewrite Hn in Hdir, Hnd.
  destruct (String.eqb e.1 ""); [done|].
  destruct (is_top e.1); [done|]. destruct scenario_F as (HnF & _).
  unfold d3, user_delete in Hdir. rewrite HnF in Hdir.
  destruct (decide (e.1 = F)) as [Heq|Hne]; [by rewrite Heq, lookup_delete_eq in Hdir|].
  rewrite lookup_delete_ne in Hdir by done. unfold d2, disk_committed in Hdir.
  destruct (decide (e.1 = INDEX_KEY)) as [Heq|Hne2];
    [by rewrite Heq, lookup_insert_eq in Hdir|].
  rewrite lookup_insert_ne in Hdir by done. unfold disk_recorded in Hdir.
  destruct (decide (e.1 = commit_key commit_id)) as [Heq|Hne3];
    [by rewrite Heq, lookup_insert_eq in Hdir|].
  rewrite lookup_insert_ne in Hdir by done.
  by rewrite loop_disk_frame in Hdir.
Qed.

Lemma scenario_record : record_lists d3 commit_id entries.
Proof.
  destruct Hready as (_ & _ & _ & _ & Hid & _).
  destruct (commit_key_facts _ (json_name_plain _ Hid)) as (Hcp & Hcn & _ & Hct).
  destruct scenario_F as (HnF & _ & _ & HdF).
  exists (json_dump (commit_record commit_id timestamp message (snapshot d es))),
         (commit_record commit_id timestamp message (snapshot d es)).
  split_and!.
  - rewrite Hcp, (node_at_key _ _ Hcn Hct).
    unfold d3, user_delete. rewrite HnF, lookup_delete_ne by congruence.
    unfold d2. rewrite committed_lookup_record.
    by rewrite loop_files_settled by (by apply working_settled).
  - exact Hrt.
  - unfold entries. by rewrite snapshot_as_entries.
Qed.

Lemma scenario_restorable : restorable d3 entries.
Proof.
  split.
  - apply Forall_forall. intros x (e & data' & He & E & ->)%elem_of_snapshot_entries.
    destruct (scenario_work e He) as [Hn Ho].
    unfold entry_ok. rewrite opath_okey, node_at_okey, (scenario_objects e data' He E).
    cbn [fpath]. split; [done|]. intros _.
    destruct (file_lookup _ _ _ Hn E) as [_ Hd].
    destruct (node_at_some _ _ _ E) as [Hnz _].
    assert (Path.dirname e.1 = "" ∨ node_at d3 (Path.dirname e.1) = Some Dir) as Hpar.
    { destruct (tree_parent _ _ _ Htree Hd) as [?|Hp]; [by left|right].
      by apply scenario_dirs. }
    split_and!; [done|by apply scenario_targets|done|by rewrite Hn].
  - intros x x' (e & data1 & He & E & ->)%elem_of_snapshot_entries
                (e' & data2 & He' & E' & ->)%elem_of_snapshot_entries.
    destruct (scenario_work e He) as [Hn Ho].
    rewrite opath_okey. cbn [fpath]. rewrite Hn. unfold okey.
    destruct (object_key_facts _ (object_name_plain data2 e'.1)) as (_ & -> & _).
    apply Ho.
Qed.


End Scenario.

End RoundTrip.

(** ** The digest of [hashlib] holds no slash *)

Lemma hex_digit_not_sep m :
  (m < 16)%N → Ascii.eqb (SHA1.hex_digit m) Path.sep = false.
Proof.
  intros Hm.
  assert (forallb (λ i, negb (Ascii.eqb (SHA1.hex_digit (N.of_nat i)) Path.sep))
                  (seq 0 16) = true) as Hall by (by vm_compute).
  rewrite forallb_forall in Hall. specialize (Hall (N.to_nat m)).
  rewrite N2Nat.id in Hall. apply negb_true_iff, Hall, in_seq. lia.
Qed.

Lemma hex_no_sep digits : ∀ n, no_sep (SHA1.hex digits n) = true.
Proof.
  induction digits as [|k IH]; intros n; [done|]. cbn [SHA1.hex].
  rewrite no_sep_app, IH. cbn [no_sep andb].
  rewrite hex_digit_not_sep; [done|]. apply N.mod_lt. lia.
Qed.

#[global] Instance hashlib_sha1_hex : Sha1Hex.
Proof.
  intros st. cbn [sha1_hexdigest hashlib_sha1]. unfold SHA1.hexdigest.
  destruct (SHA1.digest st) as [[[[h0 h1] h2] h3] h4].
  by rewrite !no_sep_app, !hex_no_sep.
Qed.

(** ** The claims on concrete runs *)

Ltac run := vm_compute; first [reflexivity | congruence | done].

Lemma demo_ready : commit_ready Demo.staged Demo.staged_fields [("a.txt", Demo.hello_sha)] Demo.id1.
Proof.
  unfold commit_ready, repo_ok, staging, staged_in, no_dirs.
  split_and!; try run.
  repeat constructor. run.
Qed.

Lemma commit_empty_staging_witness :
  cmd_commit "first" Demo.id1 Demo.ts1 (start Demo.fresh)
  = (Ok tt,
     World Demo.fresh ["Nada para commitear. El área de preparación está vacía."] []).
Proof.
  apply (commit_empty_staging Demo.fresh [("staged", JList [])]).
  - run.
  - split; run.
Defined.

Lemma demo_tree : tree Demo.staged.
Proof.
  intros k n Hk. apply elem_of_map_to_list in Hk.
  vm_compute map_to_list in Hk.
  repeat (apply elem_of_cons in Hk as [Hk|Hk];
          [injection Hk as -> _; first [by left|right; run]|]).
  by apply elem_of_nil in Hk.
Qed.

Lemma demo_working : working_paths [("a.txt", Demo.hello_sha)].
Proof.
  repeat constructor. intros name E. vm_compute in E. discriminate.
Qed.

Lemma demo_trusted : names_trusted Demo.staged [("a.txt", Demo.hello_sha)].
Proof.
  intros e data ->%list_elem_of_singleton E. vm_compute in E. injection E as <-.
  split.
  - intros n Hn. vm_compute in Hn. discriminate.
  - intros e' data' ->%list_elem_of_singleton E' _. vm_compute in E'.
    by injection E' as <-.
Qed.





Lemma demo_edited_ready :
  commit_ready Demo.edited Demo.staged_fields [("a.txt", Demo.hello_sha)] Demo.id1.
Proof.
  unfold commit_ready, repo_ok, staging, staged_in, no_dirs.
  split_and!; try run. repeat constructor. run.
Qed.


Lemma demo_vanished_ready :
  commit_ready Demo.vanished Demo.staged_fields [("a.txt", Demo.hello_sha)] Demo.id1.
Proof.
  unfold commit_ready, repo_ok, staging, staged_in, no_dirs.
  split_and!; try run. repeat constructor. run.
Qed.


Lemma commit_keeps_other_records_witness :
  ∃ w', cmd_commit "first" Demo.id1 Demo.ts1 (start Demo.staged) = (Ok tt, w')
        ∧ disk w' !! "a.txt" = Some (File Demo.hello).
Proof.
  destruct (commit_keeps_other_records Demo.staged Demo.staged_fields
              [("a.txt", Demo.hello_sha)] "first" Demo.id1 Demo.ts1 demo_ready)
    as (w' & Hrun & _ & Hkeep & _).
  exists w'. split; [exact Hrun|]. apply Hkeep; run.
Defined.

Lemma commit_overwrites_counterexample :
  load_commit Demo.again_staged Demo.id1
  = Some (commit_record Demo.id1 Demo.ts1 "first"
            [file_entry "a.txt" (Demo.hello_sha +:+ "_a.txt") Demo.hello_sha])
  ∧ Demo.again_commit.1 = Ok tt
  ∧ out Demo.again_commit.2 = [created Demo.id1 1]
  ∧ load_commit (disk Demo.again_commit.2) Demo.id1
    ≠ load_commit Demo.again_staged Demo.id1.
Proof. split_and!; run. Qed.

Lemma commit_clears_after_persist_witness :
  ∃ w' hs d_rec,
    cmd_commit "first" Demo.id1 Demo.ts1 (start Demo.staged) = (Ok tt, w')
    ∧ hist w' = hs ++ [d_rec; disk w']
    ∧ d_rec !! INDEX_KEY = Demo.staged !! INDEX_KEY
    ∧ is_Some (d_rec !! commit_key Demo.id1).
Proof.
  destruct (commit_clears_after_persist Demo.staged Demo.staged_fields
              [("a.txt", Demo.hello_sha)] "first" Demo.id1 Demo.ts1 demo_ready)
    as (w' & hs & d_rec & Hrun & Hh & _ & Hi & Hc & _).
  exists w', hs, d_rec. split_and!; [exact Hrun|exact Hh|exact Hi|].
  rewrite Hc. by eexists.
Defined.

Lemma demo_partial_record : record_lists Demo.partial Demo.id1 Demo.two_entries.
Proof.
  exists (json_dump (commit_record Demo.id1 Demo.ts1 "first"
                       (map fentry_json Demo.two_entries))),
         (commit_record Demo.id1 Demo.ts1 "first" (map fentry_json Demo.two_entries)).
  split_and!; run.
Qed.

Lemma demo_partial_restorable : restorable Demo.partial Demo.two_entries.
Proof.
  split.
  - repeat constructor; try run; intros _; split_and!; first [run | left; run].
  - intros e e' He He'.
    repeat (apply elem_of_cons in He as [->|He]);
      repeat (apply elem_of_cons in He' as [->|He']);
      try (by apply elem_of_nil in He); try (by apply elem_of_nil in He'); run.
Qed.





(** ** Init *)

Ltac in_list := repeat first [apply list_elem_of_here | apply list_elem_of_further].

Section InitFacts.
Context `{HS : Sha1} `{HJ : JsonCodec}.

Lemma made_lookup d k k' :
  made d k !! k' = if decide (k' = k) then Some (default Dir (d !! k)) else d !! k'.
Proof.
  unfold made. destruct (decide (k' = k)) as [->|Hne].
  - destruct (d !! k) eqn:E; cbn; [done|]. by rewrite lookup_insert_eq.
  - destruct (d !! k) eqn:E; [done|]. by rewrite lookup_insert_ne.
Qed.

Lemma made_grows d k : d ⊆ made d k.
Proof. unfold made. destruct (d !! k) eqn:E; [done|]. by apply insert_subseteq. Qed.

Lemma mkdir_chain_ok p chain : ∀ w,
  (∀ k, k ∈ chain → is_top k = false ∧ ∀ data, disk w !! k ≠ Some (File data)) →
  ∃ w', mkdir_chain p chain w = (Ok tt, w')
        ∧ disk w' = foldl made (disk w) chain ∧ out w' = out w.
Proof.
  induction chain as [|k rest IH]; intros w Hfree.
  { exists w. by destruct w. }
  destruct (Hfree k) as [Ht Hk]; [apply list_elem_of_here|].
  cbn [mkdir_chain foldl]. rewrite bind_eq.
  change (get_disk w) with (Ok (disk w), w). cbv beta iota.
  unfold key_node. rewrite Ht. unfold made at 2.
  destruct (disk w !! k) as [[|data]|] eqn:E.
  - apply IH. intros k' Hk'. apply Hfree. by apply list_elem_of_further.
  - by destruct (Hk data).
  - rewrite bind_eq. unfold put_disk at 1. cbv beta iota.
    destruct (IH (World (<[k:=Dir]> (disk w)) (out w) (hist w ++ [<[k:=Dir]> (disk w)])))
      as (w' & Hrun & Hd & Ho).
    { intros k' Hk'. destruct (Hfree k') as [Ht' Hf']; [by apply list_elem_of_further|].
      split; [done|]. intros data. cbn [disk].
      destruct (decide (k' = k)) as [->|Hne]; [by rewrite lookup_insert_eq|].
      by rewrite lookup_insert_ne. }
    exists w'. by split_and!.
Qed.

Lemma commits_chain :
  dir_chain "" (Path.split (Path.normpath COMMITS_DIR)) = [".minigit"; ".minigit/commits"].
Proof. by vm_compute. Qed.

Lemma objects_chain :
  dir_chain "" (Path.split (Path.normpath OBJECTS_DIR)) = [".minigit"; ".minigit/objects"].
Proof. by vm_compute. Qed.

Lemma init_dirs_not_top k : k ∈ init_dirs → is_top k = false.
Proof.
  intros Hk. unfold init_dirs in Hk.
  repeat (apply elem_of_cons in Hk as [->|Hk]; [by vm_compute|]).
  by apply elem_of_nil in Hk.
Qed.

Lemma made_free d k : init_free d → init_free (made d k).
Proof.
  intros Hf k' data Hk'. rewrite made_lookup. destruct (decide (k' = k)) as [->|Hne].
  - destruct (d !! k) as [n|] eqn:E; cbn; [|done]. rewrite <-E. by apply Hf.
  - by apply Hf.
Qed.

Lemma made_twice d k : made (made d k) k = made d k.
Proof.
  unfold made at 1. rewrite made_lookup, decide_True by done. done.
Qed.

Lemma made_is_dir d k :
  (∀ data, d !! k ≠ Some (File data)) → made d k !! k = Some Dir.
Proof.
  intros Hk. rewrite made_lookup, decide_True by done.
  destruct (d !! k) as [[|data]|] eqn:E; cbn; try done. by destruct (Hk data).
Qed.

Lemma cmd_init_run d :
  init_free d →
  ∃ w', cmd_init (start d) = (Ok tt, w')
        ∧ disk w' = init_disk d ∧ out w' = [init_line].
Proof.
  intros Hfree. unfold cmd_init, os_makedirs. rewrite commits_chain, objects_chain.
  destruct (mkdir_chain_ok COMMITS_DIR [".minigit"; ".minigit/commits"] (start d))
    as (w1 & R1 & D1 & O1).
  { intros k Hk. assert (k ∈ init_dirs) as Hin.
    { unfold init_dirs. repeat (apply elem_of_cons in Hk as [->|Hk]; [in_list|]).
      by apply elem_of_nil in Hk. }
    split; [by apply init_dirs_not_top|]. intros data. by apply Hfree. }
  cbn [foldl start disk out] in D1, O1.
  assert (init_free (disk w1)) as Hfree1.
  { rewrite D1. by do 2 apply made_free. }
  destruct (mkdir_chain_ok OBJECTS_DIR [".minigit"; ".minigit/objects"] w1)
    as (w2 & R2 & D2 & O2).
  { intros k Hk. assert (k ∈ init_dirs) as Hin.
    { unfold init_dirs. repeat (apply elem_of_cons in Hk as [->|Hk]; [in_list|]).
      by apply elem_of_nil in Hk. }
    split; [by apply init_dirs_not_top|]. intros data. by apply Hfree1. }
  cbn [foldl] in D2. rewrite D1 in D2.
  assert (disk w2 = foldl made d init_dirs) as D2'.
  { rewrite D2. cbn [foldl init_dirs].
    assert (made (made (made d ".minigit") ".minigit/commits") ".minigit"
            = made (made d ".minigit") ".minigit/commits") as ->; [|done].
    unfold made at 1. rewrite made_lookup, decide_False by done.
    by rewrite made_lookup, decide_True by done. }
  rewrite bind_eq, R1. cbv beta iota. rewrite bind_eq, R2. cbv beta iota.
  rewrite bind_eq, exists_eq. cbv beta iota.
  destruct index_key_facts as (Hin & Hid & Hit & Hnn).
  assert (node_at (disk w2) INDEX_FILE = disk w2 !! INDEX_KEY) as Hnode.
  { rewrite node_at_nonempty by done. unfold key_node. by rewrite Hin, Hit. }
  rewrite Hnode. unfold init_disk. rewrite <-D2'.
  destruct (disk w2 !! INDEX_KEY) as [n|] eqn:E.
  - rewrite bool_decide_eq_true_2 by done. rewrite bind_eq.
    change ((mret () : M unit) w2) with (Ok (), w2). cbv beta iota.
    eexists. split; [reflexivity|]. cbn [disk out]. by rewrite O2, O1.
  - rewrite bool_decide_eq_false_2 by (by intros [? ?]). rewrite bind_eq.
    rewrite write_file_ok; rewrite ?Hin.
    + cbv beta iota. eexists. split; [reflexivity|]. cbn [mutated disk out].
      by rewrite O2, O1.
    + done.
    + unfold key_node. by rewrite Hit, E.
    + right. rewrite Hid. rewrite (node_at_key _ ".minigit") by (by vm_compute).
      rewrite D2'. cbn [foldl init_dirs]. rewrite !made_lookup.
      rewrite decide_False by done. rewrite decide_False by done.
      rewrite decide_True by done.
      destruct (d !! ".minigit") as [[|data]|] eqn:Em; cbn; try done.
      destruct (Hfree ".minigit" data); [|done]. unfold init_dirs. in_list.
Qed.

Lemma init_disk_lookup d k :
  init_free d →
  init_disk d !! k
  = if decide (k ∈ init_dirs) then Some Dir
    else if decide (k = INDEX_KEY)
         then Some (default (File (json_dump empty_index)) (d !! INDEX_KEY))
         else d !! k.
Proof.
  intros Hfree.
  assert (∀ k', foldl made d init_dirs !! k'
                = if decide (k' ∈ init_dirs) then Some Dir else d !! k') as Hdirs.
  { intros k'. cbn [foldl init_dirs]. rewrite !made_lookup.
    destruct (decide (k' ∈ init_dirs)) as [Hin|Hout].
    - unfold init_dirs in Hin.
      repeat (apply elem_of_cons in Hin as [->|Hin]).
      + rewrite decide_False by done. rewrite decide_False by done.
        rewrite decide_True by done.
        destruct (d !! ".minigit") as [[|data]|] eqn:E; cbn; try done.
        destruct (Hfree ".minigit" data); [in_list|done].
      + rewrite decide_False by done. rewrite decide_True by done.
        rewrite decide_False by done.
        destruct (d !! ".minigit/commits") as [[|data]|] eqn:E; cbn; try done.
        destruct (Hfree ".minigit/commits" data); [in_list|done].
      + rewrite decide_True by done.
        rewrite decide_False by done. rewrite decide_False by done.
        destruct (d !! ".minigit/objects") as [[|data]|] eqn:E; cbn; try done.
        destruct (Hfree ".minigit/objects" data); [in_list|done].
      + by apply elem_of_nil in Hin.
    - unfold init_dirs in Hout.
      rewrite decide_False by (intros ->; apply Hout; in_list).
      rewrite decide_False by (intros ->; apply Hout; in_list).
      rewrite decide_False by (intros ->; apply Hout; in_list). done. }
  unfold init_disk. cbv zeta.
  assert (INDEX_KEY ∉ init_dirs) as Hidx.
  { unfold init_dirs. intros Hin.
    repeat (apply elem_of_cons in Hin as [Hin|Hin]; [discriminate|]).
    by apply elem_of_nil in Hin. }
  pose proof (Hdirs INDEX_KEY) as Hi. rewrite decide_False in Hi by done.
  destruct (decide (k = INDEX_KEY)) as [->|Hne].
  - rewrite decide_False by done. rewrite Hi.
    destruct (d !! INDEX_KEY) eqn:E; [by rewrite Hi|by rewrite lookup_insert_eq].
  - rewrite Hi. destruct (d !! INDEX_KEY) eqn:E; [apply Hdirs|].
    rewrite lookup_insert_ne by done. apply Hdirs.
Qed.

Lemma init_disk_grows d : init_free d → d ⊆ init_disk d.
Proof.
  intros Hfree. apply map_subseteq_spec. intros k n Hk.
  rewrite init_disk_lookup by done.
  destruct (decide (k ∈ init_dirs)) as [Hin|Hout].
  - destruct n as [|data]; [done|]. by destruct (Hfree k data).
  - destruct (decide (k = INDEX_KEY)) as [->|Hne]; [by rewrite Hk|done].
Qed.

(** X1. In a directory where no file stands at [.minigit], [.minigit/commits]
    or [.minigit/objects], init ends normally and leaves an initialised
    repository: the three directories are there and the index file exists,
    holding what it held before or, when it was missing, the empty staging
    list.  Every node that was on the disk is still there, unchanged. *)
Theorem init_creates_repo d :
  init_free d →
  ∃ w',
    cmd_init (start d) = (Ok tt, w')
    ∧ out w' = [init_line]
    ∧ repo_ok (disk w')
    ∧ disk w' !! INDEX_KEY
      = Some (default (File (json_dump empty_index)) (d !! INDEX_KEY))
    ∧ d ⊆ disk w'
    ∧ (∀ k, k ∉ INDEX_KEY :: init_dirs → disk w' !! k = d !! k).
Proof.
  intros Hfree. destruct (cmd_init_run d Hfree) as (w' & Hrun & Hd & Ho).
  exists w'. rewrite Hd. split_and!; [done|done| | | |].
  - unfold repo_ok.
    rewrite (node_at_key _ ".minigit"), (node_at_key _ ".minigit/commits"),
      (node_at_key _ ".minigit/objects") by (by vm_compute).
    rewrite !init_disk_lookup by done. split_and!; by rewrite decide_True by in_list.
  - rewrite init_disk_lookup by done. rewrite decide_False, decide_True; [done..|].
    unfold init_dirs. intros Hin.
    repeat (apply elem_of_cons in Hin as [Hin|Hin]; [discriminate|]).
    by apply elem_of_nil in Hin.
  - by apply init_disk_grows.
  - intros k Hk. rewrite init_disk_lookup by done.
    rewrite decide_False by (intros Hin; apply Hk; by apply list_elem_of_further).
    by rewrite decide_False by (intros ->; apply Hk; apply list_elem_of_here).
Qed.

Lemma mkdir_chain_present p chain w :
  (∀ k, k ∈ chain → key_node (disk w) k = Some Dir) →
  mkdir_chain p chain w = (Ok tt, w).
Proof.
  induction chain as [|k rest IH]; intros Hall; [done|].
  cbn [mkdir_chain]. rewrite bind_eq. change (get_disk w) with (Ok (disk w), w).
  cbv beta iota. rewrite (Hall k) by apply list_elem_of_here.
  apply IH. intros k' Hk'. by apply Hall, list_elem_of_further.
Qed.

(** X2. On an initialised repository whose index file exists, init changes
    nothing on the disk: staged entries, commits and objects are kept. *)
Theorem init_again d :
  repo_ok d →
  is_Some (node_at d INDEX_FILE) →
  cmd_init (start d) = (Ok tt, World d [init_line] []).
Proof.
  intros (Hrepo & Hcommits & Hobjects) Hidx.
  rewrite (node_at_key _ ".minigit") in Hrepo by (by vm_compute).
  rewrite (node_at_key _ ".minigit/commits") in Hcommits by (by vm_compute).
  rewrite (node_at_key _ ".minigit/objects") in Hobjects by (by vm_compute).
  unfold cmd_init, os_makedirs. rewrite commits_chain, objects_chain.
  rewrite bind_eq, mkdir_chain_present.
  2:{ intros k Hk. unfold key_node.
      repeat (apply elem_of_cons in Hk as [->|Hk]; [by vm_compute (is_top _)|]).
      by apply elem_of_nil in Hk. }
  cbv beta iota. rewrite bind_eq, mkdir_chain_present.
  2:{ intros k Hk. unfold key_node.
      repeat (apply elem_of_cons in Hk as [->|Hk]; [by vm_compute (is_top _)|]).
      by apply elem_of_nil in Hk. }
  cbv beta iota. rewrite bind_eq, exists_eq. cbn [start disk].
  rewrite bool_decide_eq_true_2 by done. done.
Qed.

Lemma bind_inv {A B} (m : M A) (f : A → M B) w r w' :
  (m ≫= f) w = (r, w') →
  (∃ a w1, m w = (Ok a, w1) ∧ f a w1 = (r, w'))
  ∨ (∃ e, m w = (Raise e, w') ∧ r = Raise e).
Proof.
  rewrite bind_eq. destruct (m w) as [[a|e] w1] eqn:E.
  - intros Hf. left. by exists a, w1.
  - intros [= <- <-]. right. by exists e.
Qed.

Lemma grows_mkdir_chain p chain : grows (mkdir_chain p chain).
Proof.
  induction chain as [|k rest IH]; intros w r w' E.
  { by injection E as _ <-. }
  cbn [mkdir_chain] in E. rewrite bind_eq in E.
  change (get_disk w) with (Ok (disk w), w) in E. cbv beta iota in E.
  unfold key_node in E. destruct (is_top k) eqn:Ht; [by apply (IH _ _ _ E)|].
  destruct (disk w !! k) as [[|data]|] eqn:Ek.
  - by apply (IH _ _ _ E).
  - destruct rest; by injection E as _ <-.
  - rewrite bind_eq in E. unfold put_disk at 1 in E. cbv beta iota in E.
    apply IH in E. cbn [disk] in E. etrans; [|exact E]. by apply insert_subseteq.
Qed.

Lemma grows_write_new p data w r w' :
  node_at (disk w) p = None → write_file p data w = (r, w') → disk w ⊆ disk w'.
Proof.
  intros Hp E. unfold write_file in E. rewrite bind_eq in E.
  change (get_disk w) with (Ok (disk w), w) in E. cbv beta iota zeta in E.
  unfold node_at in Hp. destruct (String.eqb p ""); [by injection E as _ <-|].
  rewrite Hp in E. unfold key_node in Hp.
  destruct (is_top (Path.normpath p)); [done|].
  destruct (if (Path.dirname (Path.normpath p) =? "")%string then Some Dir
            else node_at (disk w) (Path.dirname (Path.normpath p))) as [[|?]|];
    [|by injection E as _ <-..].
  unfold put_disk in E. injection E as _ <-. cbn [disk]. by apply insert_subseteq.
Qed.

(** X3. Whatever its outcome, init keeps every node the disk holds: it
    creates what is missing and never overwrites or removes a file, a
    directory, the index, a commit or an object. *)
Theorem init_keeps_nodes d r w' :
  cmd_init (start d) = (r, w') → d ⊆ disk w'.
Proof.
  unfold cmd_init. intros E.
  apply bind_inv in E as [(? & w1 & E1 & E)|(e & E1 & _)];
    [|by apply grows_mkdir_chain in E1].
  apply grows_mkdir_chain in E1. cbn [start disk] in E1. etrans; [exact E1|].
  apply bind_inv in E as [(? & w2 & E2 & E)|(e & E2 & _)];
    [|by apply grows_mkdir_chain in E2].
  apply grows_mkdir_chain in E2. etrans; [exact E2|].
  rewrite bind_eq, exists_eq in E. cbv beta iota in E.
  destruct (node_at (disk w2) INDEX_FILE) as [n|] eqn:Ei.
  - rewrite bool_decide_eq_true_2 in E by done. rewrite bind_eq in E.
    change ((mret () : M unit) w2) with (Ok (), w2) in E. cbv beta iota in E.
    unfold print in E. by injection E as _ <-.
  - rewrite bool_decide_eq_false_2 in E by (by intros [? ?]).
    apply bind_inv in E as [(? & w3 & E3 & E)|(e & E3 & _)].
    + apply grows_write_new in E3; [|done]. unfold print in E.
      injection E as _ <-. exact E3.
    + by apply grows_write_new in E3.
Qed.

Lemma ensure_repo_fail w :
  node_at (disk w) MINIGIT_DIR ≠ Some Dir →
  ensure_repo w = (Raise not_a_repo, w).
Proof.
  intros E. unfold ensure_repo. rewrite bind_eq, isdir_eq.
  by destruct (node_at (disk w) MINIGIT_DIR) as [[|?]|].
Qed.

End InitFacts.

(** ** Commands outside a repository *)

Section NeedRepo.
Context `{HS : Sha1} `{HJ : JsonCodec} `{HD : JsonDumps}.

(** X5. Where [.minigit] is not a directory, add, commit, restore and index
    stop with the not-a-repository exit, print nothing and leave the disk as
    it is. *)
Theorem commands_need_repo d file message commit_id timestamp :
  node_at d MINIGIT_DIR ≠ Some Dir →
  cmd_add file (start d) = (Raise not_a_repo, start d)
  ∧ cmd_commit message commit_id timestamp (start d) = (Raise not_a_repo, start d)
  ∧ cmd_restore commit_id (start d) = (Raise not_a_repo, start d)
  ∧ cmd_show_index (start d) = (Raise not_a_repo, start d).
Proof.
  intros E. unfold cmd_add, cmd_commit, cmd_restore, cmd_show_index.
  by rewrite !bind_eq, !ensure_repo_fail.
Qed.

End NeedRepo.

(** ** Add *)

Section AddFacts.
Context `{HS : Sha1} `{HX : !Sha1Hex} `{HJ : JsonCodec}.

(** X6. Staging a path that does not exist stops with the file-not-found
    exit, which names the path as it was given; nothing is printed and the
    disk, the index included, is left as it is. *)
Theorem add_missing_file d file :
  node_at d MINIGIT_DIR = Some Dir →
  node_at d file = None →
  cmd_add file (start d)
  = (Raise (SystemExit ("Archivo no encontrado: " +:+ file)), start d).
Proof.
  intros Hrepo E. unfold cmd_add. rewrite bind_eq, ensure_repo_ok by done.
  cbv zeta. by rewrite bind_eq, exists_false.
Qed.


Lemma co_ensure_repo K : changes_only K ensure_repo.
Proof.
  unfold ensure_repo. apply co_bind; [apply co_isdir|].
  intros [|]; [apply co_ret|apply co_raise].
Qed.

Lemma co_read_index K : changes_only K read_index.
Proof. apply co_pure. intros w. rewrite read_index_eq. by eexists. Qed.

Lemma co_hash K p : changes_only K (hash_file_bytes p).
Proof.
  unfold hash_file_bytes. apply co_bind; [apply co_read|]. intros data. apply co_ret.
Qed.

Lemma co_write_index v : changes_only (λ k, k = INDEX_KEY) (write_index v).
Proof. unfold write_index. apply (co_write_file INDEX_FILE). Qed.

(** X8. Whatever its outcome, add writes nothing but the index file: the
    working tree, the commit records and the object store are as they were
    (no object is stored when a file is staged). *)
Theorem add_writes_index_only d file r w' :
  cmd_add file (start d) = (r, w') →
  ∀ k, k ≠ INDEX_KEY → disk w' !! k = d !! k.
Proof.
  intros E k Hk.
  assert (changes_only (λ k, k = INDEX_KEY) (cmd_add file)) as Hco;
    [|exact (Hco _ _ _ E k Hk)].
  unfold cmd_add. apply co_bind; [apply co_ensure_repo|]. intros _. cbv zeta.
  apply co_bind; [apply co_exists|]. intros [|]; [|apply co_raise].
  apply co_bind; [apply co_read_index|]. intros index.
  apply co_lift_bind. intros old _. apply co_lift_bind. intros items _.
  apply co_lift_bind. intros staged _.
  apply co_bind; [apply co_hash|]. intros sha.
  apply co_lift_bind. intros index' _.
  apply co_bind; [apply co_write_index|]. intros _. apply co_print.
Qed.

Lemma restaged_twice (es : list (string * string)) rel_path sha :
  restaged (restaged es rel_path sha) rel_path sha = restaged es rel_path sha.
Proof.
  unfold restaged. rewrite filter_app. f_equal.
  rewrite filter_cons, decide_False by (by intros ?).
  rewrite filter_nil, app_nil_r.
  induction es as [|e rest IH]; [done|]. rewrite filter_cons.
  destruct (decide (e.1 ≠ rel_path)); [|done].
  by rewrite filter_cons, decide_True, IH by done.
Qed.

Lemma assoc_set_twice k v v' fields :
  assoc_set k v (assoc_set k v' fields) = assoc_set k v fields.
Proof.
  induction fields as [|[k' x] rest IH]; cbn [assoc_set].
  - by rewrite String.eqb_refl.
  - destruct (k =? k')%string eqn:E; cbn [assoc_set]; rewrite E; [done|by rewrite IH].
Qed.

Lemma staging_written d fields es :
  roundtrips (JDict fields) → staged_in fields es →
  staging (<[INDEX_KEY := File (json_dump (JDict fields))]> d) fields es.
Proof.
  intros Hrt Hst. destruct index_key_facts as (Hin & _ & Hit & _). split; [|done].
  unfold load_index. rewrite node_at_nonempty by discriminate.
  unfold key_node. rewrite Hin, Hit, lookup_insert_eq. by rewrite Hrt.
Qed.


End AddFacts.

(** ** The index file *)

Section IndexFacts.
Context `{HS : Sha1} `{HX : !Sha1Hex} `{HJ : JsonCodec} `{HD : JsonDumps}.

Lemma index_missing d : d !! INDEX_KEY = None → node_at d INDEX_FILE = None.
Proof.
  intros E. destruct index_key_facts as (Hin & _ & Hit & _).
  rewrite node_at_nonempty by discriminate. unfold key_node. by rewrite Hin, Hit.
Qed.

Lemma index_file d data :
  d !! INDEX_KEY = Some (File data) → node_at d INDEX_FILE = Some (File data).
Proof.
  intros E. destruct index_key_facts as (Hin & _ & Hit & _).
  rewrite node_at_nonempty by discriminate. unfold key_node. by rewrite Hin, Hit.
Qed.

Lemma cmd_commit_falsy d index staged message commit_id timestamp :
  node_at d MINIGIT_DIR = Some Dir →
  load_index d = Ok index →
  py_get index "staged" (JList []) = Ok staged →
  py_truthy staged = false →
  cmd_commit message commit_id timestamp (start d) = (Ok tt, World d [nothing_staged] []).
Proof.
  intros Hrepo Hidx Hst Ht. unfold cmd_commit.
  rewrite bind_eq, ensure_repo_ok by done.
  rewrite bind_eq, read_index_eq. cbn [start disk]. rewrite Hidx.
  rewrite bind_eq. change (lift ?r ?w) with (r, w). rewrite Hst. cbv beta iota.
  by rewrite Ht.
Qed.

Lemma cmd_show_index_run d index :
  node_at d MINIGIT_DIR = Some Dir →
  load_index d = Ok index →
  cmd_show_index (start d) = (Ok tt, World d [json_dumps index] []).
Proof.
  intros Hrepo Hidx. unfold cmd_show_index.
  rewrite bind_eq, ensure_repo_ok by done.
  rewrite bind_eq, read_index_eq. cbn [start disk]. by rewrite Hidx.
Qed.



(** X12. What [write_index] writes, [read_index] reads back: in a repository
    whose index path is not a directory, the document read after a write is
    the document written, whenever the codec reads that document back. *)
Theorem index_write_read d v :
  node_at d MINIGIT_DIR = Some Dir →
  d !! INDEX_KEY ≠ Some Dir →
  roundtrips v →
  ∃ w1,
    write_index v (start d) = (Ok tt, w1)
    ∧ read_index w1 = (Ok v, w1).
Proof.
  intros Hrepo Hidx Hrt. destruct index_key_facts as (Hin & Hid & Hit & _).
  eexists. split.
  - unfold write_index. rewrite write_file_ok; rewrite ?Hin; [reflexivity|done|..].
    + unfold key_node. by rewrite Hit.
    + right. by rewrite Hid.
  - rewrite read_index_eq. cbn [mutated start disk].
    unfold load_index. rewrite node_at_nonempty by discriminate.
    unfold key_node. rewrite Hin, Hit, lookup_insert_eq. by rewrite Hrt.
Qed.


End IndexFacts.

(** ** The fingerprint *)

Section HashFacts.
Context `{HS : Sha1} `{HL : !Sha1Stream}.

Lemma chunk_size_pos : 0 < chunk_size.
Proof. unfold chunk_size. apply Nat.neq_0_lt_0, Nat.pow_nonzero. lia. Qed.

Lemma hash_chunks_all fuel : ∀ rest h,
  length rest < fuel → hash_chunks fuel rest h = sha1_update h rest.
Proof.
  induction fuel as [|n IH]; intros rest h Hlen; [lia|].
  cbn [hash_chunks]. pose proof chunk_size_pos as Hpos.
  destruct (take chunk_size rest) as [|b chunk] eqn:Et.
  - apply (f_equal length) in Et. rewrite length_take in Et. cbn [length] in Et.
    destruct rest; [by rewrite sha1_update_nil|]. cbn [length] in Et. lia.
  - rewrite IH.
    + by rewrite sha1_update_app, <-Et, take_drop.
    + rewrite length_drop. apply (f_equal length) in Et. rewrite length_take in Et.
      cbn [length] in Et. lia.
Qed.

(** X14. The fingerprint of a file does not depend on the chunks it is read
    in: the loop that reads 8192 bytes at a time consumes the whole content,
    and the result is the digest of the content fed at once. *)
Theorem fingerprint_whole_content (data : bytes) :
  fingerprint data = sha1_hexdigest (sha1_update sha1_new data).
Proof. unfold fingerprint. rewrite hash_chunks_all; [done|lia]. Qed.

End HashFacts.

#[global] Instance hashlib_sha1_stream : Sha1Stream.
Proof.
  split.
  - intros h. cbn [sha1_update hashlib_sha1]. apply app_nil_r.
  - intros h a b. cbn [sha1_update hashlib_sha1]. by rewrite <-app_assoc.
Qed.

(** ** A commit that fails *)

Section CommitFailure.
Context `{HS : Sha1} `{HX : !Sha1Hex} `{HJ : JsonCodec}.

Lemma write_file_inv p data w r w' :
  write_file p data w = (r, w') →
  (r = Ok tt ∧ w' = mutated w (<[Path.normpath p := File data]> (disk w)))
  ∨ (∃ e, r = Raise e ∧ w' = w).
Proof.
  unfold write_file. rewrite bind_eq. change (get_disk w) with (Ok (disk w), w).
  cbv beta iota zeta. intros E.
  destruct (String.eqb p ""); [right; injection E as <- <-; by eexists|].
  assert (∀ m : M unit,
    m = (match (if (Path.dirname (Path.normpath p) =? "")%string then Some Dir
                else node_at (disk w) (Path.dirname (Path.normpath p))) with
         | Some Dir => put_disk (<[Path.normpath p := File data]> (disk w))
         | Some (File _) => raise (NotADirectoryError p)
         | None => raise (FileNotFoundError p)
         end) →
    m w = (r, w') →
    (r = Ok tt ∧ w' = mutated w (<[Path.normpath p := File data]> (disk w)))
    ∨ (∃ e, r = Raise e ∧ w' = w)) as Hin.
  { intros m -> E0.
    destruct (if (_ =? "")%string then _ else _) as [[|?]|].
    - left. unfold put_disk in E0. by injection E0 as <- <-.
    - right. injection E0 as <- <-. by eexists.
    - right. injection E0 as <- <-. by eexists. }
  destruct (key_node (disk w) (Path.normpath p)) as [[|?]|].
  - right. injection E as <- <-. by eexists.
  - by eapply Hin.
  - by eapply Hin.
Qed.

Lemma copy2_new src dst w r w' :
  node_at (disk w) dst = None →
  shutil_copy2 src dst w = (r, w') →
  ∀ k, k ≠ Path.normpath dst → disk w' !! k = disk w !! k.
Proof.
  intros Hd E k Hk. unfold shutil_copy2 in E.
  rewrite bind_eq, isdir_eq, Hd in E. cbv beta iota in E.
  rewrite bind_eq in E. change (get_disk w) with (Ok (disk w), w) in E.
  cbv beta iota in E. destruct (_ && _); [by injection E as _ <-|].
  rewrite bind_eq, read_file_eq in E.
  destruct (node_at (disk w) src) as [[|data]|]; [by injection E as _ <-| |by injection E as _ <-].
  cbv beta iota in E. by apply (co_write_file dst data _ _ _ E).
Qed.

(** the loop of a commit writes to the object store only *)
Lemma commit_loop_frame items : ∀ acc w r w',
  commit_loop items acc w = (r, w') →
  ∀ k, not_object k → disk w' !! k = disk w !! k.
Proof.
  induction items as [|entry rest IH]; intros acc w r w' E k Hk.
  { by injection E as _ <-. }
  cbn [commit_loop] in E. rewrite bind_eq in E.
  change (lift ?x w) with (x, w) in E.
  destruct (py_getitem entry "path" ≫= as_str) as [path|e]; [|by injection E as _ <-].
  cbv beta iota in E. rewrite bind_eq, exists_eq in E. cbv beta iota in E.
  destruct (bool_decide (is_Some (node_at (disk w) path))).
  - unfold hash_file_bytes in E. rewrite !bind_eq, read_file_eq in E.
    destruct (node_at (disk w) path) as [[|data]|];
      [by injection E as _ <-| |by injection E as _ <-].
    cbv beta iota zeta in E. change ((mret (fingerprint data) : M string) w)
      with (Ok (fingerprint data), w) in E. cbv beta iota in E.
    fold (object_name data path) in E.
    destruct (object_key_facts _ (object_name_plain data path)) as (Hj & Hn & _).
    rewrite Hj in E. rewrite bind_eq, exists_eq in E. cbv beta iota in E.
    destruct (node_at (disk w) (object_key (object_name data path))) as [n|] eqn:Eo.
    + rewrite bool_decide_eq_true_2 in E by done. rewrite bind_eq in E.
      change ((mret () : M unit) w) with (Ok (), w) in E. cbv beta iota in E.
      by apply (IH _ _ _ _ E).
    + rewrite bool_decide_eq_false_2 in E by (by intros [? ?]).
      apply bind_inv in E as [(? & w1 & E1 & E)|(e & E1 & _)].
      * rewrite (IH _ _ _ _ E k Hk). apply (copy2_new _ _ _ _ _ Eo E1).
        rewrite Hn. apply Hk.
      * apply (copy2_new _ _ _ _ _ Eo E1). rewrite Hn. apply Hk.
  - rewrite bind_eq in E. unfold print at 1 in E. cbv beta iota in E.
    by apply (IH _ _ _ _ E).
Qed.


End CommitFailure.

(** ** A commit after a commit *)

Section CommitAgain.
Context `{HS : Sha1} `{HX : !Sha1Hex} `{HJ : JsonCodec}.

(** X16. The staging index does not outlive a commit: a commit that follows
    a completed commit, with nothing staged in between, finds nothing to
    commit and leaves the disk as the first commit left it. *)
Theorem commit_then_nothing d fields es message commit_id timestamp
    message' commit_id' timestamp' :
  commit_ready d fields es commit_id →
  roundtrips empty_index →
  ∃ w1,
    cmd_commit message commit_id timestamp (start d) = (Ok tt, w1)
    ∧ cmd_commit message' commit_id' timestamp' (start (disk w1))
      = (Ok tt, World (disk w1) [nothing_staged] []).
Proof.
  intros Hready Hrt. pose proof Hready as ((Hrepo & _) & _).
  eexists. split; [by apply (commit_run d fields es)|]. cbn [disk].
  destruct index_key_facts as (Hin & _ & Hit & _).
  apply (cmd_commit_falsy _ empty_index (JList [])); [| |done..].
  - unfold disk_committed, disk_recorded.
    rewrite (node_at_insert_ne _ _ _ ".minigit") by (by vm_compute).
    rewrite (node_at_insert_ne _ _ _ ".minigit") by apply commit_not_root.
    eapply node_at_mono; [apply loop_disk_mono|exact Hrepo].
  - unfold load_index. rewrite node_at_nonempty by discriminate.
    unfold key_node. rewrite Hin, Hit. unfold disk_committed.
    rewrite lookup_insert_eq. by rewrite Hrt.
Qed.

End CommitAgain.

(** ** A restore after a restore *)

Section RestoreAgain.
Context `{HS : Sha1} `{HX : !Sha1Hex} `{HJ : JsonCodec}.

Lemma written_snoc d ws kv :
  written d (ws ++ [kv]) = <[kv.1 := File kv.2]> (written d ws).
Proof. unfold written. by rewrite foldl_app. Qed.

Lemma written_masked ws : ∀ (d : disk_t) k v v',
  <[k := v]> (written (<[k := v']> d) ws) = <[k := v]> (written d ws).
Proof.
  induction ws as [|kv ws IH] using rev_ind; intros d k v v'.
  { cbn. by rewrite insert_insert_eq. }
  rewrite !written_snoc. destruct (decide (kv.1 = k)) as [->|Hne].
  - by rewrite !insert_insert_eq.
  - rewrite (insert_insert_ne _ k kv.1) by done.
    rewrite (insert_insert_ne _ k kv.1) by done. by rewrite IH.
Qed.

Lemma written_twice ws : ∀ d, written (written d ws) ws = written d ws.
Proof.
  induction ws as [|kv ws IH] using rev_ind; intros d; [done|].
  rewrite !written_snoc. by rewrite written_masked, IH.
Qed.

Lemma writes_step all rest d x :
  rest ⊆ all → x ∈ all → targets_apart all →
  writes (restore_step d x) rest = writes d rest.
Proof.
  intros Hsub Hx Hapart. unfold writes, stored. apply omap_ext_in. intros y Hy.
  by rewrite restore_step_object by (apply Hapart; [done|by apply Hsub]).
Qed.

Lemma restore_disk_written all es : ∀ d,
  es ⊆ all → targets_apart all → restore_disk d es = written d (writes d es).
Proof.
  induction es as [|e rest IH]; intros d Hsub Hapart; [done|].
  assert (rest ⊆ all) as Hsub' by (intros y Hy; by apply Hsub, list_elem_of_further).
  assert (e ∈ all) as He by (apply Hsub, list_elem_of_here).
  cbn [restore_disk foldl]. fold (restore_disk (restore_step d e) rest).
  rewrite IH by done. rewrite (writes_step all) by done.
  unfold writes at 2. cbn [omap list_omap]. fold (writes d rest).
  unfold restore_step, stored. by destruct (node_at d (opath e)) as [[|data]|].
Qed.

Lemma restore_disk_ok all es : ∀ d,
  es ⊆ all → targets_apart all → Forall (entry_ok d) all →
  Forall (entry_ok (restore_disk d es)) all.
Proof.
  induction es as [|e rest IH]; intros d Hsub Hapart Hok; [done|].
  assert (rest ⊆ all) as Hsub' by (intros y Hy; by apply Hsub, list_elem_of_further).
  assert (e ∈ all) as He by (apply Hsub, list_elem_of_here).
  cbn [restore_disk foldl]. fold (restore_disk (restore_step d e) rest).
  apply IH; [done..|]. apply Forall_forall. intros x Hx.
  rewrite Forall_forall in Hok. apply restore_step_ok; [by apply Hok..|by apply Hapart].
Qed.


End RestoreAgain.

(** ** Records that cannot be restored *)

Section RestoreEdges.
Context `{HS : Sha1} `{HX : !Sha1Hex} `{HJ : JsonCodec}.


Lemma restore_loop_then all es tl : ∀ n w,
  es ⊆ all → targets_apart all → Forall (entry_ok (disk w)) all →
  restore_loop (map fentry_json es ++ tl) n w
  = restore_loop tl (n + restore_count (disk w) es)
      (World (restore_disk (disk w) es) (out w ++ restore_out (disk w) es)
             (hist w ++ restore_hist (disk w) es)).
Proof.
  induction es as [|e rest IH]; intros n w Hsub Hapart Hok.
  { destruct w as [dw ow hw].
    cbn [map app restore_count restore_out restore_hist restore_disk foldl disk out hist].
    by rewrite Nat.add_0_r, !app_nil_r. }
  assert (e ∈ all) as Hin by (apply Hsub, list_elem_of_here).
  assert (rest ⊆ all) as Hsub' by (intros x Hx; by apply Hsub, list_elem_of_further).
  assert (Forall (entry_ok (restore_step (disk w) e)) all) as Hok'.
  { apply Forall_forall. intros x Hx. apply restore_step_ok.
    - by eapply Forall_forall in Hok.
    - by eapply Forall_forall in Hok.
    - by apply Hapart. }
  pose proof (proj1 (Forall_forall _ _) Hok e Hin) as He.
  cbn [map app restore_count restore_out restore_hist restore_disk foldl].
  fold (restore_disk (restore_step (disk w) e) rest).
  unfold restore_step in Hok' |- *.
  destruct (node_at (disk w) (opath e)) as [[|data]|] eqn:E.
  - by destruct He as [He _].
  - rewrite (restore_loop_copy _ _ _ _ data) by (done || by apply Hapart).
    rewrite IH by done. unfold mutated. cbn [disk out hist].
    by rewrite <-!app_assoc, Nat.add_succ_r.
  - rewrite restore_loop_miss by done. rewrite IH by done.
    unfold printed. cbn [disk out hist]. by rewrite <-!app_assoc.
Qed.


End RestoreEdges.

(** ** Relative paths of ordinary names *)

Section DirFacts.

Lemma join_comps_cons c c' rest :
  Path.join_comps (c :: c' :: rest) = c +:+ "/" +:+ Path.join_comps (c' :: rest).
Proof. reflexivity. Qed.

Lemma join_comps_snoc pre c :
  pre ≠ [] → Path.join_comps (pre ++ [c]) = Path.join_comps pre +:+ "/" +:+ c.
Proof.
  induction pre as [|a [|b r] IH]; intros Hne; [done|done|].
  change ((a :: b :: r) ++ [c]) with (a :: b :: (r ++ [c])).
  rewrite !join_comps_cons. change (b :: r ++ [c]) with ((b :: r) ++ [c]).
  rewrite IH by done. by rewrite !append_assoc.
Qed.

Lemma plain_comps comps :
  Forall (λ c, plain c = true) comps → Forall (λ c, no_sep c = true ∧ c ≠ "") comps.
Proof.
  intros Hall. eapply Forall_impl; [exact Hall|]. intros c Hc.
  apply plain_inv in Hc. tauto.
Qed.

Lemma join_plain_nonempty comps :
  comps ≠ [] → Forall (λ c, plain c = true) comps → Path.join_comps comps ≠ "".
Proof.
  intros Hne Hall. destruct comps as [|c [|c' rest]]; [done|..];
    inversion Hall as [|?? Hc _]; subst; apply plain_inv in Hc as (_ & Hc & _).
  - done.
  - rewrite join_comps_cons. intros E. apply (f_equal String.length) in E.
    rewrite !length_append in E. simpl in E. lia.
Qed.

Lemma join_plain_facts comps :
  comps ≠ [] → Forall (λ c, plain c = true) comps →
  Path.split (Path.join_comps comps) = comps
  ∧ Path.normpath (Path.join_comps comps) = Path.join_comps comps
  ∧ is_top (Path.join_comps comps) = false.
Proof.
  intros Hne Hall. pose proof (plain_comps _ Hall) as Hns.
  pose proof (split_join _ Hne Hns) as Hsplit.
  pose proof (join_plain_nonempty _ Hne Hall) as Hnz.
  split_and!; [done| |].
  - apply (normpath_of_clean 0 comps); [by left| |done].
    exists [], comps. by split_and!.
  - unfold is_top. rewrite Hsplit.
    destruct comps as [|c rest]; [done|]. inversion Hall as [|?? Hc _]; subst.
    apply plain_inv in Hc as (_ & Hc1 & Hc2 & Hc3).
    assert (forallb (String.eqb "..") (c :: rest) = false) as ->.
    { cbn [forallb]. apply not_eq_sym, String.eqb_neq in Hc3. by rewrite Hc3. }
    rewrite !orb_false_r.
    destruct (String.eqb_spec (Path.join_comps (c :: rest)) ".") as [E|_].
    { rewrite E in Hsplit. by injection Hsplit as <- _. }
    destruct (String.eqb_spec (Path.join_comps (c :: rest)) "/") as [E|_].
    { rewrite E in Hsplit. by injection Hsplit as <- _. }
    destruct (String.eqb_spec (Path.join_comps (c :: rest)) "//") as [E|_]; [|done].
    rewrite E in Hsplit. by injection Hsplit as <- _.
Qed.

Lemma join_plain_inj a b :
  a ≠ [] → b ≠ [] →
  Forall (λ c, plain c = true) a → Forall (λ c, plain c = true) b →
  Path.join_comps a = Path.join_comps b → a = b.
Proof.
  intros Ha Hb Hpa Hpb E.
  destruct (join_plain_facts a Ha Hpa) as (<- & _).
  destruct (join_plain_facts b Hb Hpb) as (<- & _). by rewrite E.
Qed.

Lemma join_plain_no_trailing_sep comps :
  comps ≠ [] → Forall (λ c, plain c = true) comps →
  Path.ends_with_sep (Path.join_comps comps) = false.
Proof.
  intros Hne Hall. destruct comps as [|c rest _] using rev_ind; [done|].
  apply Forall_app in Hall as [_ Hc]. inversion Hc as [|?? Hp _]; subst.
  apply plain_inv in Hp as (Hns & Hnz & _).
  destruct rest as [|a r]; [by apply ends_with_sep_no_sep|].
  rewrite join_comps_snoc by done.
  rewrite ends_with_sep_app by (by destruct c).
  change ("/" +:+ c) with (String "/" c). cbn [Path.ends_with_sep].
  destruct c; [done|]. by apply ends_with_sep_no_sep.
Qed.

Lemma rstrip_join dirs :
  dirs ≠ [] → Forall (λ c, plain c = true) dirs →
  Path.rstrip_sep (Path.join_comps dirs +:+ "/") = Path.join_comps dirs.
Proof.
  induction dirs as [|a [|b r] IH]; intros Hne Hall; [done|..];
    inversion Hall as [|?? Ha Hall']; subst;
    apply plain_inv in Ha as (Ha0 & Ha1 & _).
  - cbn [Path.join_comps]. rewrite rstrip_sep_app by done.
    change (Path.rstrip_sep "/") with "". by rewrite append_nil_r.
  - rewrite join_comps_cons, !append_assoc. rewrite rstrip_sep_app by done.
    f_equal. change ("/" +:+ ?x) with (String "/" x). cbn [Path.rstrip_sep].
    rewrite IH by done.
    pose proof (join_plain_nonempty (b :: r) ltac:(done) Hall') as Hnz.
    by destruct (Path.join_comps (b :: r)).
Qed.

Lemma dirname_join dirs name :
  dirs ≠ [] → Forall (λ c, plain c = true) (dirs ++ [name]) →
  Path.dirname (Path.join_comps (dirs ++ [name])) = Path.join_comps dirs.
Proof.
  intros Hne Hall. pose proof Hall as Hall'. apply Forall_app in Hall' as [Hd _].
  unfold Path.dirname.
  destruct (join_plain_facts (dirs ++ [name])) as (-> & _); [by destruct dirs|done|].
  cbv zeta.
  assert (removelast (dirs ++ [name]) = dirs) as Hrl by apply removelast_last.
  pose proof (rstrip_join dirs Hne Hd) as Hrs.
  pose proof (join_plain_nonempty dirs Hne Hd) as Hnz.
  destruct dirs as [|a r]; [done|].
  change ((a :: r) ++ [name]) with (a :: (r ++ [name])) in *.
  destruct (r ++ [name]) as [|x l] eqn:Er; [by destruct r|].
  rewrite Hrl, Hrs. by destruct (Path.join_comps (a :: r)).
Qed.

Lemma dir_chain_eq comps : ∀ pre,
  pre ≠ [] → Forall (λ c, plain c = true) (pre ++ comps) →
  dir_chain (Path.join_comps pre) comps
  = map (λ n, Path.join_comps (pre ++ take n comps)) (seq 1 (length comps)).
Proof.
  induction comps as [|c rest IH]; intros pre Hne Hall; [done|].
  pose proof Hall as Hall'. apply Forall_app in Hall' as [Hpre Hc].
  inversion Hc as [|?? Hpc _]; subst. apply plain_inv in Hpc as (_ & Hcz & _).
  cbn [dir_chain length seq map].
  pose proof (join_plain_nonempty pre Hne Hpre) as Hnz.
  apply String.eqb_neq in Hnz, Hcz. rewrite Hnz, Hcz.
  rewrite join_plain_no_trailing_sep by done.
  rewrite <-join_comps_snoc by done. f_equal.
  rewrite IH; [|by destruct pre|by rewrite <-app_assoc].
  rewrite <-(fmap_S_seq 1). change (map ?f (S <$> ?l)) with (f <$> (S <$> l)).
  rewrite <-list_fmap_compose. apply list_fmap_ext. intros _ n _.
  cbn [compose take]. by rewrite <-app_assoc.
Qed.

(** the directories [os.makedirs] goes through for a relative path of
    ordinary names are the paths of its prefixes *)
Lemma dir_chain_plain dirs k :
  Forall (λ c, plain c = true) dirs →
  k ∈ dir_chain "" dirs
  ↔ ∃ n, 1 ≤ n ≤ length dirs ∧ k = Path.join_comps (take n dirs).
Proof.
  intros Hall. destruct dirs as [|c rest].
  { split; [by intros ?%elem_of_nil|]. intros (n & Hn & _). cbn in Hn. lia. }
  pose proof Hall as Hall'.
  inversion Hall' as [|?? Hpc _]; subst. apply plain_inv in Hpc as (_ & Hcz & _).
  cbn [dir_chain]. apply String.eqb_neq in Hcz. rewrite Hcz. cbn [String.eqb].
  change c with (Path.join_comps [c]) at 2. rewrite dir_chain_eq by done.
  rewrite elem_of_cons. change (map ?f ?l) with (f <$> l). rewrite list_elem_of_fmap.
  split.
  - intros [->|(n & -> & Hn)].
    + exists 1. cbn [length take]. split; [lia|done].
    + apply elem_of_seq in Hn. exists (S n). cbn [length take]. split; [lia|done].
  - intros (n & Hn & ->). cbn [length] in Hn. destruct n as [|n]; [lia|].
    destruct n as [|n]; [by left|]. right. exists (S n). cbn [take].
    split; [done|]. apply elem_of_seq. lia.
Qed.

Lemma dir_chain_plain_last dirs :
  dirs ≠ [] → Forall (λ c, plain c = true) dirs →
  Path.join_comps dirs ∈ dir_chain "" dirs.
Proof.
  intros Hne Hall. apply dir_chain_plain; [done|]. exists (length dirs).
  rewrite firstn_all. split; [|done]. destruct dirs; [done|]. cbn [length]. lia.
Qed.

End DirFacts.

(** ** Targets in missing directories *)

Section RestoreDirs.
Context `{HS : Sha1} `{HX : !Sha1Hex} `{HJ : JsonCodec}.

Lemma foldl_made_lookup chain : ∀ (d : disk_t) k,
  foldl made d chain !! k
  = if decide (k ∈ chain) then Some (default Dir (d !! k)) else d !! k.
Proof.
  induction chain as [|c rest IH]; intros d k; cbn [foldl].
  { rewrite decide_False; [done|]. by intros ?%elem_of_nil. }
  rewrite IH, made_lookup.
  destruct (decide (k ∈ c :: rest)) as [Hin|Hout].
  - destruct (decide (k ∈ rest)) as [Hr|Hr].
    + destruct (decide (k = c)) as [->|Hne]; [|done]. by destruct (d !! c).
    + apply elem_of_cons in Hin as [->|?]; [|done]. by rewrite decide_True.
  - rewrite decide_False by (intros ?; apply Hout; by apply list_elem_of_further).
    rewrite decide_False; [done|]. intros ->. apply Hout, list_elem_of_here.
Qed.

Lemma foldl_made_grows chain : ∀ d : disk_t, d ⊆ foldl made d chain.
Proof.
  induction chain as [|c rest IH]; intros d; [done|]. cbn [foldl].
  etrans; [apply made_grows|apply IH].
Qed.

(** X22. Restore recreates the directories of a target: when the record
    lists a file under directories that are missing (a relative path of
    ordinary names), restore makes every missing directory on the way, then
    writes the file with the bytes of its object and counts it; nothing
    that was on the disk is changed. *)
Theorem restore_creates_directories d commit_id dirs name obj sha data :
  let target := Path.join_comps (dirs ++ [name]) in
  node_at d MINIGIT_DIR = Some Dir →
  record_lists d commit_id [FEntry target obj sha] →
  stored d (FEntry target obj sha) = Some data →
  dirs ≠ [] →
  Forall (λ c, plain c = true) (dirs ++ [name]) →
  d !! Path.join_comps dirs = None →
  d !! target = None →
  (∀ n data', 1 ≤ n ≤ length dirs →
     d !! Path.join_comps (take n dirs) ≠ Some (File data')) →
  ∃ w',
    cmd_restore commit_id (start d) = (Ok tt, w')
    ∧ out w' = [restored_line 1 commit_id]
    ∧ disk w' !! target = Some (File data)
    ∧ (∀ n, 1 ≤ n ≤ length dirs →
         disk w' !! Path.join_comps (take n dirs) = Some Dir)
    ∧ d ⊆ disk w'.
Proof.
  intros target Hrepo (raw & record & E & Hload & Hfiles) Hst Hne Hall Hdir Htarget Hfree.
  pose proof Hall as Hall'. apply Forall_app in Hall' as [Hpd _].
  assert (dirs ++ [name] ≠ []) as Hne' by (by destruct dirs).
  destruct (join_plain_facts _ Hne' Hall) as (Hts & Htn & Htt). fold target in Hts, Htn, Htt.
  destruct (join_plain_facts _ Hne Hpd) as (Hds & Hdn & Hdt).
  pose proof (dirname_join dirs name Hne Hall) as Hdirname. fold target in Hdirname.
  pose proof (join_plain_nonempty _ Hne' Hall) as Htz. fold target in Htz.
  pose proof (join_plain_nonempty _ Hne Hpd) as Hdz.
  set (chain := dir_chain "" dirs).
  set (e := FEntry target obj sha) in *.
  assert (node_at d (opath e) = Some (File data)) as Eo.
  { unfold stored in Hst. by destruct (node_at d (opath e)) as [[|?]|]; simplify_eq. }
  (* the directories *)
  destruct (mkdir_chain_ok (Path.dirname target) chain (start d)) as (w1 & R1 & D1 & O1).
  { intros k Hk. apply dir_chain_plain in Hk as (n & Hn & ->); [|done]. split.
    - apply join_plain_facts.
      + destruct dirs; [done|]. by destruct n; [lia|].
      + by apply Forall_take.
    - intros data'. by apply Hfree. }
  cbn [start disk out] in D1, O1.
  assert (target ∉ chain) as Hout.
  { intros (n & Hn & Heq)%dir_chain_plain; [|done].
    apply join_plain_inj in Heq; [| |destruct dirs; [done|]; by destruct n; [lia|]
                                   |done|by apply Forall_take]; [|done].
    apply (f_equal length) in Heq. rewrite length_app, length_take in Heq.
    cbn [length] in Heq. lia. }
  assert (disk w1 !! target = None) as Ht1.
  { by rewrite D1, foldl_made_lookup, decide_False. }
  assert (∀ k, k ∈ chain → disk w1 !! k = Some Dir) as Hdirs.
  { intros k Hk. rewrite D1, foldl_made_lookup, decide_True by done.
    apply dir_chain_plain in Hk as (n & Hn & ->); [|done].
    destruct (d !! Path.join_comps (take n dirs)) as [[|data']|] eqn:Ek; [done| |done].
    by destruct (Hfree n data' Hn). }
  assert (d ⊆ disk w1) as Hsub by (rewrite D1; apply foldl_made_grows).
  (* the run *)
  exists (World (<[target := File data]> (disk w1)) [restored_line 1 commit_id]
            (hist w1 ++ [<[target := File data]> (disk w1)])).
  split_and!.
  - unfold cmd_restore. rewrite bind_eq, ensure_repo_ok by done.
    cbv zeta. rewrite bind_eq, (exists_true _ (start d) _ E). cbv beta iota.
    rewrite bind_eq, read_file_eq. cbn [start disk]. rewrite E. cbv beta iota.
    rewrite bind_eq, Hload.
    change ((mret record : M json) (start d)) with (Ok record, start d).
    cbv beta iota. rewrite bind_eq. change (lift ?r ?w) with (r, w). rewrite Hfiles.
    cbv beta iota. rewrite bind_eq. change (lift ?r ?w) with (r, w). cbn [py_iter map].
    cbv beta iota. rewrite bind_eq.
    cbn [restore_loop]. rewrite bind_eq.
    change (lift _ (start d)) with (Ok obj : res string, start d). cbv beta iota zeta.
    rewrite bind_eq. change (lift _ (start d)) with (Ok target : res string, start d).
    cbv beta iota. change (Path.join OBJECTS_DIR obj) with (opath e).
    rewrite bind_eq, (exists_true _ (start d) _ Eo). cbv beta iota.
    rewrite bind_eq, exists_eq. cbv beta iota. cbn [start disk].
    rewrite Hdirname. rewrite (node_at_key _ _ Hdn Hdt), Hdir.
    apply String.eqb_neq in Hdz. rewrite Hdz.
    rewrite bool_decide_eq_false_2 by (by intros [? ?]). cbn [negb andb].
    unfold os_makedirs. rewrite Hdn, Hds. fold chain.
    rewrite <-Hdirname at 1. rewrite bind_eq, R1. cbv beta iota.
    rewrite bind_eq.
    assert (shutil_copy2 (opath e) target w1
            = (Ok tt, mutated w1 (<[target := File data]> (disk w1)))) as ->.
    { unfold shutil_copy2. rewrite bind_eq, isdir_eq.
      rewrite (node_at_key _ _ Htn Htt), Ht1. cbv beta iota.
      rewrite bind_eq. change (get_disk w1) with (Ok (disk w1), w1). cbv beta iota.
      rewrite (node_at_key _ _ Htn Htt), Ht1.
      rewrite (bool_decide_eq_false_2 (is_Some None)) by (by intros [? ?]).
      rewrite andb_false_r. rewrite bind_eq, read_file_eq.
      rewrite (node_at_mono _ _ _ _ Hsub Eo). cbv beta iota.
      rewrite write_file_ok; rewrite ?Htn; [done|done|..].
      - unfold key_node. by rewrite Htt, Ht1.
      - right. rewrite Hdirname, (node_at_key _ _ Hdn Hdt).
        apply Hdirs. by apply dir_chain_plain_last. }
    cbv beta iota.
    change ((mret 1 : M nat) ?w) with (Ok 1, w). cbv beta iota.
    unfold print, mutated, restored_line. cbn [disk out hist]. by rewrite O1.
  - done.
  - cbn [disk]. by rewrite lookup_insert_eq.
  - intros n Hn. cbn [disk]. rewrite lookup_insert_ne.
    + apply Hdirs. apply dir_chain_plain; [done|]. by exists n.
    + intros Heq. apply Hout. rewrite Heq. apply dir_chain_plain; [done|]. by exists n.
  - cbn [disk]. etrans; [exact Hsub|]. by apply insert_subseteq.
Qed.

End RestoreDirs.

(** ** What a commit keeps *)

Section CommitInvariants.
Context `{HS : Sha1} `{HX : !Sha1Hex} `{HJ : JsonCodec}.

Lemma loop_lengths es : ∀ d,
  no_dirs d es → length (loop_files d es) + length (loop_out d es) = length es.
Proof.
  induction es as [|e rest IH]; intros d Hnd; [done|].
  inversion Hnd as [|?? He Hrest]; subst.
  pose proof (IH _ (step_disk_no_dirs d e _ Hrest)) as Hlen.
  cbn [loop_files loop_out length].
  destruct (node_at d e.1) as [[|data]|]; [done|..]; cbn [length]; lia.
Qed.

(** X17. A commit accounts for every staged entry: each one is either
    recorded in the commit or reported by a warning, so the number of files
    of the record and the number of warnings add up to the number of staged
    entries, and the count printed is the number of files of the record. *)
Theorem commit_accounts_for_entries d fields es message commit_id timestamp :
  commit_ready d fields es commit_id →
  ∃ w' files warns,
    cmd_commit message commit_id timestamp (start d) = (Ok tt, w')
    ∧ disk w' !! commit_key commit_id
      = Some (File (json_dump (commit_record commit_id timestamp message files)))
    ∧ out w' = warns ++ [created commit_id (length files)]
    ∧ Forall (λ line, ∃ e, e ∈ es ∧ line = warning e.1) warns
    ∧ length files + length warns = length es.
Proof.
  intros Hready. pose proof Hready as (_ & _ & _ & Hnd & _).
  exists (World (disk_committed d es message commit_id timestamp)
            (loop_out d es ++ [created commit_id (length (loop_files d es))])
            (loop_hist d es
             ++ [disk_recorded d es message commit_id timestamp;
                 disk_committed d es message commit_id timestamp])),
         (loop_files d es), (loop_out d es).
  split_and!.
  - by apply (commit_run d fields es).
  - cbn [disk]. apply committed_lookup_record.
  - done.
  - clear. revert d. induction es as [|e rest IH]; intros d; [constructor|].
    cbn [loop_out].
    assert (Forall (λ line, ∃ e0, e0 ∈ e :: rest ∧ line = warning e0.1)
              (loop_out (step_disk d e) rest)) as Hrest.
    { eapply Forall_impl; [apply IH|]. intros line (e0 & He0 & ->).
      exists e0. split; [by apply list_elem_of_further|done]. }
    destruct (node_at d e.1) as [[|data]|]; [done..|].
    constructor; [|done]. exists e. split; [apply list_elem_of_here|done].
  - by apply loop_lengths.
Qed.

Lemma object_key_inj a b : object_key a = object_key b → a = b.
Proof. unfold object_key. apply String.app_inj. Qed.

Lemma step_disk_named d e : store_named d → store_named (step_disk d e).
Proof.
  intros Hn name data'. unfold step_disk.
  destruct (node_at d e.1) as [[|data]|]; [apply Hn| |apply Hn].
  destruct (d !! okey data e.1) eqn:Ho; [apply Hn|].
  destruct (decide (object_key name = okey data e.1)) as [Heq|Hne].
  - rewrite Heq, lookup_insert_eq. intros [= <-]. unfold okey in Heq.
    apply object_key_inj in Heq as ->. by exists (Path.basename e.1).
  - rewrite lookup_insert_ne by done. apply Hn.
Qed.

Lemma loop_disk_named es : ∀ d, store_named d → store_named (loop_disk d es).
Proof.
  induction es as [|e rest IH]; intros d Hn; [done|].
  cbn [loop_disk foldl]. apply IH. by apply step_disk_named.
Qed.

(** X18. A commit keeps the object store well named: if every object goes
    by the fingerprint of its bytes before the commit, so does every object
    after it (a new object is stored under the fingerprint of the bytes
    copied, and no object is rewritten). *)
Theorem commit_keeps_store_named d fields es message commit_id timestamp :
  commit_ready d fields es commit_id →
  store_named d →
  ∃ w',
    cmd_commit message commit_id timestamp (start d) = (Ok tt, w')
    ∧ store_named (disk w').
Proof.
  intros Hready Hn. eexists. split; [by apply (commit_run d fields es)|].
  cbn [disk]. intros name data. rewrite committed_lookup_object.
  by apply loop_disk_named.
Qed.

End CommitInvariants.

(** ** Init, then add *)

Section InitThenAdd.
Context `{HS : Sha1} `{HX : !Sha1Hex} `{HJ : JsonCodec}.


End InitThenAdd.

(** ** The further properties on concrete runs *)

Lemma runs_bare_free : init_free Runs.bare.
Proof.
  intros k data Hk. unfold init_dirs in Hk.
  repeat (apply elem_of_cons in Hk as [->|Hk]; [by vm_compute|]).
  by apply elem_of_nil in Hk.
Qed.

Lemma init_creates_repo_witness :
  ∃ w', cmd_init (start Runs.bare) = (Ok tt, w')
        ∧ repo_ok (disk w')
        ∧ Runs.bare ⊆ disk w'.
Proof.
  destruct (init_creates_repo Runs.bare runs_bare_free)
    as (w' & Hrun & _ & Hrepo & _ & Hsub & _).
  exists w'. split_and!; [exact Hrun|exact Hrepo|exact Hsub].
Defined.

Lemma init_again_witness :
  cmd_init (start Demo.staged) = (Ok tt, World Demo.staged [init_line] []).
Proof.
  apply (init_again Demo.staged).
  - split_and!; run.
  - vm_compute. by eexists.
Defined.

Lemma init_keeps_nodes_witness :
  Runs.corrupt ⊆ disk (cmd_init (start Runs.corrupt)).2.
Proof.
  apply (init_keeps_nodes Runs.corrupt (cmd_init (start Runs.corrupt)).1).
  apply surjective_pairing.
Defined.

Lemma commands_need_repo_witness :
  cmd_add "a.txt" (start Runs.bare) = (Raise not_a_repo, start Runs.bare)
  ∧ cmd_commit "first" Demo.id1 Demo.ts1 (start Runs.bare)
    = (Raise not_a_repo, start Runs.bare)
  ∧ cmd_restore Demo.id1 (start Runs.bare) = (Raise not_a_repo, start Runs.bare)
  ∧ cmd_show_index (start Runs.bare) = (Raise not_a_repo, start Runs.bare).
Proof. apply (commands_need_repo Runs.bare). run. Defined.

Lemma add_missing_file_witness :
  cmd_add "b.txt" (start Demo.tracked)
  = (Raise (SystemExit ("Archivo no encontrado: " +:+ "b.txt")), start Demo.tracked).
Proof. apply (add_missing_file Demo.tracked); run. Defined.

Lemma demo_tracked_staging : staging Demo.tracked [("staged", JList [])] [].
Proof. split; run. Qed.


Lemma add_writes_index_only_witness :
  disk (cmd_add "a.txt" (start Demo.tracked)).2 !! "a.txt" = Demo.tracked !! "a.txt".
Proof.
  apply (add_writes_index_only Demo.tracked "a.txt"
           (cmd_add "a.txt" (start Demo.tracked)).1).
  - apply surjective_pairing.
  - discriminate.
Defined.




Lemma index_write_read_witness :
  ∃ w1,
    write_index Runs.mixed_index (start Demo.fresh) = (Ok tt, w1)
    ∧ read_index w1 = (Ok Runs.mixed_index, w1).
Proof. apply (index_write_read Demo.fresh Runs.mixed_index); run. Defined.


Lemma fingerprint_whole_content_witness :
  fingerprint Demo.hello = sha1_hexdigest (sha1_update sha1_new Demo.hello).
Proof. apply (fingerprint_whole_content Demo.hello). Defined.


Lemma commit_then_nothing_witness :
  ∃ w1,
    cmd_commit "first" Demo.id1 Demo.ts1 (start Demo.staged) = (Ok tt, w1)
    ∧ cmd_commit "second" Demo.id1 Demo.ts1 (start (disk w1))
      = (Ok tt, World (disk w1) [nothing_staged] []).
Proof.
  apply (commit_then_nothing Demo.staged Demo.staged_fields [("a.txt", Demo.hello_sha)]);
    [exact demo_ready|run].
Defined.



Lemma runs_bad_restorable : restorable Runs.bad_record [Runs.a_entry].
Proof.
  split.
  - repeat constructor; try run; intros _; split_and!; first [run | left; run].
  - intros e e' He He'.
    repeat (apply elem_of_cons in He as [->|He]);
      repeat (apply elem_of_cons in He' as [->|He']);
      try (by apply elem_of_nil in He); try (by apply elem_of_nil in He'); run.
Qed.


Lemma runs_deep_record : record_lists Runs.deep_lost Demo.id1 [Runs.deep_entry].
Proof.
  exists (json_dump (commit_record Demo.id1 Demo.ts1 "first"
                       (map fentry_json [Runs.deep_entry]))),
         (commit_record Demo.id1 Demo.ts1 "first" (map fentry_json [Runs.deep_entry])).
  split_and!; run.
Qed.

Lemma restore_creates_directories_witness :
  ∃ w',
    cmd_restore Demo.id1 (start Runs.deep_lost) = (Ok tt, w')
    ∧ disk w' !! Path.join_comps (Runs.deep_dirs ++ ["a.txt"]) = Some (File Demo.hello)
    ∧ (∀ n, 1 ≤ n ≤ length Runs.deep_dirs →
         disk w' !! Path.join_comps (take n Runs.deep_dirs) = Some Dir).
Proof.
  destruct (restore_creates_directories Runs.deep_lost Demo.id1 Runs.deep_dirs "a.txt"
              (Demo.hello_sha +:+ "_a.txt") Demo.hello_sha Demo.hello)
    as (w' & Hrun & _ & Hfile & Hdirs & _).
  - run.
  - exact runs_deep_record.
  - run.
  - done.
  - repeat constructor.
  - run.
  - run.
  - intros n data' Hn. destruct n as [|[|[|n]]]; [lia|run|run|].
    unfold Runs.deep_dirs in Hn. cbn [length] in Hn. lia.
  - exists w'. split_and!; [exact Hrun|exact Hfile|exact Hdirs].
Defined.

Lemma commit_accounts_for_entries_witness :
  ∃ w' (files : list json) (warns : list string),
    cmd_commit "first" Demo.id1 Demo.ts1 (start Demo.staged) = (Ok tt, w')
    ∧ out w' = warns ++ [created Demo.id1 (length files)]
    ∧ length files + length warns
      = length ([("a.txt", Demo.hello_sha)] : list (string * string)).
Proof.
  destruct (commit_accounts_for_entries Demo.staged Demo.staged_fields
              [("a.txt", Demo.hello_sha)] "first" Demo.id1 Demo.ts1 demo_ready)
    as (w' & files & warns & Hrun & _ & Hout & _ & Hlen).
  exists w', files, warns. split_and!; [exact Hrun|exact Hout|exact Hlen].
Defined.

Lemma demo_staged_named : store_named Demo.staged.
Proof.
  intros name data Hl. apply elem_of_map_to_list in Hl.
  vm_compute map_to_list in Hl.
  repeat (apply elem_of_cons in Hl as [Hl|Hl];
          [injection Hl as Hk _; vm_compute in Hk; discriminate Hk|]).
  by apply elem_of_nil in Hl.
Qed.

Lemma commit_keeps_store_named_witness :
  ∃ w',
    cmd_commit "first" Demo.id1 Demo.ts1 (start Demo.staged) = (Ok tt, w')
    ∧ store_named (disk w').
Proof.
  apply (commit_keeps_store_named Demo.staged Demo.staged_fields
           [("a.txt", Demo.hello_sha)] "first" Demo.id1 Demo.ts1 demo_ready).
  exact demo_staged_named.
Defined.

